(** * BBMASTER: metadata manager and pseudo-C_ell bookkeeping

    A shallow embedding of [bbmaster/metadata_manager.py] (class [BBmeta])
    and of [bbmaster/utils.py] ([get_pcls], [PipelineManager.cl_pair_iter]),
    together with the properties stated about them.

    Conventions.
    - Python [str] values are [string]s (byte strings; the identifiers and
      paths handled here are ASCII, on which Python's code-point order and
      the byte order coincide).
    - Python [int]s are [Z]; list positions and lengths are [nat].
    - A Python [dict] is an association list in insertion order; key
      uniqueness is the predicate [Py.dict_wf].
    - Exceptions are values of [Py.exn]; fallible code lives in [Py.result],
      code that also touches the file system in [Os.io]. *)

From stdpp Require Import base strings pretty list gmap sets.
From Stdlib Require Import Ascii ZArith Lia.

Open Scope string_scope.
Open Scope list_scope.
Open Scope nat_scope.

(** ** Python built-ins used by the sources *)

Module Py.

Inductive exn :=
| ValueError (msg : string)
| KeyError (key : string)
| AttributeError (name : string)
| IndexError
| FileExistsError (path : string)
| FileNotFoundError (path : string)
| StopIteration.

Inductive result (A : Type) :=
| Ok (a : A)
| Raise (e : exn).
Global Arguments Ok {A} a.
Global Arguments Raise {A} e.

Global Instance result_ret : MRet result := @Ok.
Global Instance result_bind : MBind result := λ A B f r,
  match r with Ok a => f a | Raise e => Raise e end.
Global Instance result_fmap : FMap result := λ A B f r,
  match r with Ok a => Ok (f a) | Raise e => Raise e end.

(** Code that also acts on a world of type [W]: the world as it is when the
    exception is raised is kept. *)
Definition st (W A : Type) : Type := W → result A * W.

Global Instance st_ret {W} : MRet (st W) := λ A a w, (Ok a, w).
Global Instance st_bind {W} : MBind (st W) := λ A B f m w,
  match m w with
  | (Ok a, w') => f a w'
  | (Raise e, w') => (Raise e, w')
  end.

Definition lift {W A : Type} (r : result A) : st W A := λ w, (r, w).

(** [for x in l: s = body x s], stopping at the first exception. *)
Fixpoint for_each {A S : Type} (l : list A) (body : A → S → result S) (s : S)
  : result S :=
  match l with
  | [] => Ok s
  | x :: l' => s' ← body x s; for_each l' body s'
  end.

(** [enumerate(l)] *)
Definition enumerate {A : Type} (l : list A) : list (nat * A) := imap pair l.

(** [range(n)] for a Python integer [n]: empty when [n <= 0]. *)
Definition range (n : Z) : list Z := Z.of_nat <$> seq 0 (Z.to_nat n).

(** [d[k]] on a dict kept as an association list. *)
Fixpoint dict_get {V : Type} (d : list (string * V)) (k : string) : result V :=
  match d with
  | [] => Raise (KeyError k)
  | (k', v) :: d' => if decide (k = k') then Ok v else dict_get d' k
  end.

Definition dict_keys {V : Type} (d : list (string * V)) : list string := d.*1.

(** The invariant of a Python dict: no key occurs twice. *)
Definition dict_wf {V : Type} (d : list (string * V)) : Prop := NoDup (dict_keys d).

(** [l[i]] for a non-negative position [i]. *)
Definition list_get {A : Type} (l : list A) (i : nat) : result A :=
  match l !! i with Some a => Ok a | None => Raise IndexError end.

(** [a > b] on strings: lexicographic, character by character. *)
Definition str_gt (a b : string) : bool :=
  match String.compare a b with Gt => true | _ => false end.

Definition startswith_sep (s : string) : bool :=
  match s with String c _ => bool_decide (c = "/"%char) | "" => false end.

Fixpoint endswith_sep (s : string) : bool :=
  match s with
  | "" => false
  | String c "" => bool_decide (c = "/"%char)
  | String _ s' => endswith_sep s'
  end.

(** [s.split("__")]: cut at every leftmost occurrence of two underscores.
    [cur] is the piece read so far. *)
Fixpoint split_dunder_go (cur s : string) : list string :=
  match s with
  | "" => [cur]
  | String c s1 =>
      match s1 with
      | String c2 s2 =>
          if decide (c = "_"%char ∧ c2 = "_"%char)
          then cur :: split_dunder_go "" s2
          else split_dunder_go (cur +:+ String c "") s1
      | "" => [cur +:+ String c ""]
      end
  end.

Definition split_dunder (s : string) : list string := split_dunder_go "" s.

Fixpoint has_underscore (s : string) : bool :=
  match s with
  | "" => false
  | String c s' => bool_decide (c = "_"%char) || has_underscore s'
  end.

(** An identifier that [split("__")] gives back whole when it is followed by
    ["__"] and digits: no two underscores in a row, none at the end. *)
Fixpoint plain_name (s : string) : bool :=
  match s with
  | "" => true
  | String c s' =>
      (if bool_decide (c = "_"%char)
       then match s' with
            | "" => false
            | String c2 _ => negb (bool_decide (c2 = "_"%char))
            end
       else true)
      && plain_name s'
  end.

(** [a, b = l]: exactly two values, else [ValueError]. *)
Definition unpack2 (l : list string) : result (string * string) :=
  match l with
  | [a; b] => Ok (a, b)
  | _ :: _ :: _ :: _ => Raise (ValueError "too many values to unpack (expected 2)")
  | _ => Raise (ValueError "not enough values to unpack (expected 2)")
  end.

(** [f"{n:04d}"]: decimal, zero-padded to width four, the sign counted in
    the width. *)
Fixpoint zeros (n : nat) : string :=
  match n with
  | O => ""
  | S n' => String "0" (zeros n')
  end.

Definition zfill (w : nat) (s : string) : string :=
  zeros (w - String.length s) +:+ s.

Definition format_04d (n : Z) : string :=
  match n with
  | Zneg p => "-" +:+ zfill 3 (pretty (Zpos p))
  | _ => zfill 4 (pretty n)
  end.

End Py.

Import Py.

(** ** [os.path.join], [os.makedirs] and the part of the file system they see *)

Module Os.

(** Directories and regular files, by path as written. *)
Record FS := { dirs : gset string; files : gset string }.

Abbreviation io := (st FS).

(** [os.path.join(a, b)] (posixpath). *)
Definition path_join (a b : string) : string :=
  if startswith_sep b then b
  else if bool_decide (a = "") || endswith_sep a then a +:+ b
  else a +:+ "/" +:+ b.

(** The proper ancestors of a path: its non-empty prefixes that end right
    before a separator, outermost first. *)
Fixpoint ancestors_go (pre s : string) : list string :=
  match s with
  | "" => []
  | String c s' =>
      (if bool_decide (c = "/"%char) && negb (bool_decide (pre = ""))
       then [pre] else [])
      ++ ancestors_go (pre +:+ String c "") s'
  end.

Definition ancestors (p : string) : list string := ancestors_go "" p.

(** Create the directories of [ds] in turn; one that exists already is left
    alone, a regular file in the way raises. *)
Fixpoint mkdir_chain (ds : list string) : io () :=
  match ds with
  | [] => mret ()
  | d :: ds' => λ fs,
      if decide (d ∈ files fs) then (Raise (FileExistsError d), fs)
      else mkdir_chain ds' {| dirs := {[ d ]} ∪ dirs fs; files := files fs |}
  end.

(** [os.makedirs(p, exist_ok=True)] *)
Definition makedirs (p : string) : io () := mkdir_chain (ancestors p ++ [p]).

End Os.

Import Os.

(** ** [metadata_manager.py]: the configuration and the [BBmeta] object *)

Module Meta.

(** The attribute dict of one entry of [map_sets]. *)
Record MapSet := {
  n_splits : Z;
  file_root : string;
  exp_tag : string
}.

Record GeneralPars := {
  gp_nside : Z;
  gp_lmax : Z;
  gp_binning_file : string
}.

Record Masks := {
  galactic_mask_root : string;
  gal_mask_mode : string;
  binary_mask : string;
  point_source_mask : string;
  analysis_mask : string
}.

(** The entries of [sim_pars] that [_init_simulation_params] reads. *)
Record SimPars := {
  num_sims : Z;
  cosmology : string;
  mock_nsrcs : Z;
  mock_srcs_hole_radius : Z;
  hitmap_file : string
}.

(** The parsed yaml file. [data_dirs], [output_dirs] and [map_sets] are
    dicts in file order; [tf_settings] is the flat mapping whose entries
    become attributes. The keys that the constructor reads by name are
    fields here, so that reading them cannot fail. *)
Record Config := {
  data_dirs : list (string * string);
  output_dirs : list (string * string);
  general_pars : GeneralPars;
  map_sets : list (string * MapSet);
  masks : Masks;
  sim_pars : SimPars;
  tf_settings : list (string * string)
}.

(** The object after [__init__]. [attrs] holds the attributes that are set
    by name with [setattr] (one per directory label, one per transfer
    function setting); the others are fields. *)
Record BBmeta := {
  config : Config;
  attrs : gmap string string;
  nside : Z;
  lmax : Z;
  path_to_binning : string;
  map_sets_list : list string;
  maps_list : list string;
  binary_mask_name : string;
  galactic_mask_name : string;
  point_source_mask_name : string;
  analysis_mask_name : string;
  sim : SimPars;
  tf_est_sims_dir : string;
  tf_val_sims_dir : string;
  cosmo_sims_dir : string;
  cosmo_cls_file : string;
  tf_est_cls_file : string;
  tf_val_cls_file : string
}.

(** [getattr(self, name)] for an attribute set by name. *)
Definition getattr (a : gmap string string) (name : string) : result string :=
  match a !! name with
  | Some v => Ok v
  | None => Raise (AttributeError name)
  end.

(** One of the two loops of [_set_directory_attributes]; [root_attr] is
    ["data_dir"] or ["output_dir"]. *)
Fixpoint set_directory_loop (d : list (string * string)) (root_attr : string)
    (items : list (string * string)) (a : gmap string string)
  : io (gmap string string) :=
  match items with
  | [] => mret a
  | (label, path) :: items' =>
      if decide (label = "root") then
        root ← lift (dict_get d "root");
        set_directory_loop d root_attr items' (<[root_attr := root]> a)
      else
        root ← lift (dict_get d "root");
        let full_path := root +:+ "/" +:+ path in
        let a' := <[label +:+ "_relative" := path]> (<[label := full_path]> a) in
        makedirs full_path;;
        set_directory_loop d root_attr items' a'
  end.

Definition _set_directory_attributes (c : Config) (a : gmap string string)
  : io (gmap string string) :=
  a1 ← set_directory_loop (data_dirs c) "data_dir" (data_dirs c) a;
  set_directory_loop (output_dirs c) "output_dir" (output_dirs c) a1.

(** The text of the exception raised by the sanity check. *)
Definition lmax_message (nside : Z) : string :=
  "lmax should be lower or equal to 3*nside-1 = " +:+ pretty (3 * nside - 1)%Z.

Definition sanity_check (lmax nside : Z) : result () :=
  if decide (lmax > 3 * nside - 1)%Z
  then Raise (ValueError (lmax_message nside))
  else Ok ().

(** [next(iter(self.map_sets))]: the first key. *)
Definition first_key {V : Type} (d : list (string * V)) : result string :=
  match d with
  | [] => Raise StopIteration
  | (k, _) :: _ => Ok k
  end.

(** The getters installed by [_init_getter_from_map_set]. *)
Definition n_splits_from_map_set (ms : list (string * MapSet)) (map_set : string)
  : result Z := n_splits <$> dict_get ms map_set.
Definition file_root_from_map_set (ms : list (string * MapSet)) (map_set : string)
  : result string := file_root <$> dict_get ms map_set.
Definition exp_tag_from_map_set (ms : list (string * MapSet)) (map_set : string)
  : result string := exp_tag <$> dict_get ms map_set.

Definition _get_map_sets_list (ms : list (string * MapSet)) : list string :=
  dict_keys ms.

(** [f"{map_set}__{id_split}"] *)
Definition map_name (map_set : string) (id_split : Z) : string :=
  map_set +:+ "__" +:+ pretty id_split.

(** The list comprehension of [_get_map_list]: the outer loop runs over
    [map_sets_list], the inner one over [range(n_splits)]. *)
Fixpoint _get_map_list (ms : list (string * MapSet)) (sets : list string)
  : result (list string) :=
  match sets with
  | [] => Ok []
  | map_set :: sets' =>
      n ← n_splits_from_map_set ms map_set;
      rest ← _get_map_list ms sets';
      Ok (map (map_name map_set) (range n) ++ rest)
  end.

Definition _get_galactic_mask_name (c : Config) (a : gmap string string)
  : result string :=
  let fname := galactic_mask_root (masks c) +:+ "_" +:+ gal_mask_mode (masks c)
               +:+ ".fits" in
  d ← getattr a "mask_directory"; mret (path_join d fname).

Definition _get_mask_name (file : string) (a : gmap string string)
  : result string :=
  d ← getattr a "mask_directory"; mret (path_join d file).

Fixpoint _init_tf_estimation_params (s : list (string * string))
    (a : gmap string string) : gmap string string :=
  match s with
  | [] => a
  | (name, v) :: s' => _init_tf_estimation_params s' (<[name := v]> a)
  end.

(** [BBmeta.__init__], from the parsed configuration on. *)
Definition init (c : Config) : io BBmeta :=
  a ← _set_directory_attributes c ∅;
  let nside := gp_nside (general_pars c) in
  let lmax := gp_lmax (general_pars c) in
  lift (sanity_check lmax nside);;
  pre ← lift (getattr a "pre_process_directory");
  let path_to_binning := pre +:+ "/" +:+ gp_binning_file (general_pars c) in
  lift (first_key (map_sets c));;
  let map_sets_list := _get_map_sets_list (map_sets c) in
  maps_list ← lift (_get_map_list (map_sets c) map_sets_list);
  binary ← lift (_get_mask_name (binary_mask (masks c)) a);
  galactic ← lift (_get_galactic_mask_name c a);
  point_source ← lift (_get_mask_name (point_source_mask (masks c)) a);
  analysis ← lift (_get_mask_name (analysis_mask (masks c)) a);
  let a' := _init_tf_estimation_params (tf_settings c) a in
  pre' ← lift (getattr a' "pre_process_directory");
  mret {|
    config := c; attrs := a'; nside := nside; lmax := lmax;
    path_to_binning := path_to_binning;
    map_sets_list := map_sets_list; maps_list := maps_list;
    binary_mask_name := binary; galactic_mask_name := galactic;
    point_source_mask_name := point_source; analysis_mask_name := analysis;
    sim := sim_pars c;
    tf_est_sims_dir := pre' +:+ "/tf_est_sims";
    tf_val_sims_dir := pre' +:+ "/tf_val_sims";
    cosmo_sims_dir := pre' +:+ "/cosmo_sims";
    cosmo_cls_file := pre' +:+ "/cosmo_cls.npz";
    tf_est_cls_file := pre' +:+ "/tf_est_cls.npz";
    tf_val_cls_file := pre' +:+ "/tf_val_cls.npz"
  |}.

(** The content that [__init__] needs besides the resolution bound: the
    directory attributes can be set on the file system at hand, the two
    directories that the constructor reads are among them, and there is a
    map set. *)
Definition valid_content (c : Config) (fs : FS) : Prop :=
  ∃ a fs', _set_directory_attributes c ∅ fs = (Ok a, fs')
    ∧ is_Some (a !! "pre_process_directory")
    ∧ is_Some (a !! "mask_directory")
    ∧ map_sets c ≠ [].

(** [get_map_filename(map_set, id_split, id_sim)]; [id_sim = None] is the
    data map. *)
Definition get_map_filename (m : BBmeta) (map_set : string) (id_split : Z)
    (id_sim : option Z) : io string :=
  map_set_root ← lift (file_root_from_map_set (map_sets (config m)) map_set);
  path_to_maps ←
    match id_sim with
    | Some n =>
        sims ← lift (getattr (attrs m) "sims_directory");
        let path_to_maps := path_join sims (format_04d n) in
        makedirs path_to_maps;;
        mret path_to_maps
    | None => lift (getattr (attrs m) "map_directory")
    end;
  mret (path_join path_to_maps
          (map_set_root +:+ "_split_" +:+ pretty id_split +:+ ".fits")).

(** The body of the double loop of [get_ps_names_list]: [Ok false] is
    [continue], [Ok true] reaches the [append]. *)
Definition ps_keep (m : BBmeta) (type : string) (coadd : bool)
    (i : nat) (map1 : string) (j : nat) (map2 : string) : result bool :=
  if coadd then
    if bool_decide (j < i) then Ok false
    else if bool_decide (type = "cross") && bool_decide (i = j) then Ok false
    else if bool_decide (type = "auto") && bool_decide (i ≠ j) then Ok false
    else Ok true
  else
    '(map_set_1, split_1) ← unpack2 (split_dunder map1);
    '(map_set_2, split_2) ← unpack2 (split_dunder map2);
    if bool_decide (map_set_1 = map_set_2) && str_gt split_1 split_2
    then Ok false
    else
      exp_tag_1 ← exp_tag_from_map_set (map_sets (config m)) map_set_1;
      exp_tag_2 ← exp_tag_from_map_set (map_sets (config m)) map_set_2;
      if bool_decide (type = "cross") && bool_decide (exp_tag_1 = exp_tag_2)
         && bool_decide (split_1 = split_2) then Ok false
      else if bool_decide (type = "auto") && bool_decide (exp_tag_1 ≠ exp_tag_2)
         && bool_decide (split_1 ≠ split_2) then Ok false
      else Ok true.

Definition get_ps_names_list (m : BBmeta) (type : string) (coadd : bool)
  : result (list (string * string)) :=
  let map_iterable := if coadd then map_sets_list m else maps_list m in
  for_each (enumerate map_iterable) (λ '(i, map1) ps_name_list,
    for_each (enumerate map_iterable) (λ '(j, map2) ps_name_list,
      keep ← ps_keep m type coadd i map1 j map2;
      Ok (if keep : bool then ps_name_list ++ [(map1, map2)] else ps_name_list))
    ps_name_list) [].

End Meta.

(** ** numpy arrays, as far as [get_pcls] uses them *)

Module Np.

(** The arithmetic of array entries. *)
Class Arith (R : Type) := {
  zero : R;
  one : R;
  add : R → R → R;
  mul : R → R → R
}.




(** A C-contiguous array: its shape and its entries in row-major order. *)
Record ndarray (R : Type) := {
  shape : list nat;
  data : list R
}.
Global Arguments shape {R}.
Global Arguments data {R}.

Definition size_of (sh : list nat) : nat := foldr Nat.mul 1 sh.

Definition wf {R : Type} (a : ndarray R) : Prop :=
  length (data a) = size_of (shape a).

(** [a.reshape(sh)] *)
Definition reshape {R : Type} (a : ndarray R) (sh : list nat)
  : result (ndarray R) :=
  if decide (size_of sh = length (data a))
  then Ok {| shape := sh; data := data a |}
  else Raise (ValueError "cannot reshape array").

(** [a.flatten()] *)
Definition flatten {R : Type} (a : ndarray R) : ndarray R :=
  {| shape := [length (data a)]; data := data a |}.

(** The [n] rows of length [m] of a row-major matrix. *)
Fixpoint rows {R : Type} (m n : nat) (l : list R) : list (list R) :=
  match n with
  | O => []
  | S n' => take m l :: rows m n' (drop m l)
  end.

(** The sum of the products of two vectors, accumulated from the left. *)
Definition vdot {R : Type} `{Arith R} (u v : list R) : R :=
  foldl add zero (zip_with mul u v).

(** [np.dot(a, b)] for a matrix [a] and a vector [b]. *)
Definition dot {R : Type} `{Arith R} (a b : ndarray R) : result (ndarray R) :=
  match shape a, shape b with
  | [n; m], [m'] =>
      if decide (m = m')
      then Ok {| shape := [n]; data := (λ r, vdot r (data b)) <$> rows m n (data a) |}
      else Raise (ValueError "shapes not aligned")
  | _, _ => Raise (ValueError "shapes not aligned")
  end.

(** [a[k]]: the [k]-th slice along the first axis. *)
Definition getitem {R : Type} (a : ndarray R) (k : nat) : result (ndarray R) :=
  match shape a with
  | [] => Raise IndexError
  | n :: sh =>
      if decide (k < n)
      then Ok {| shape := sh;
                 data := take (size_of sh) (drop (k * size_of sh) (data a)) |}
      else Raise IndexError
  end.

(** The entries [s .. s+m-1] of row [r] of an identity matrix. *)
Definition unit_row {R : Type} `{Arith R} (r s m : nat) : list R :=
  (λ k, if decide (r = k) then one else zero) <$> seq s m.

(** [np.eye(n)], row by row. *)
Definition eye_data {R : Type} `{Arith R} (n : nat) : list R :=
  r ← seq 0 n; unit_row r 0 n.

End Np.

Import Np.

(** ** [utils.py]: [PipelineManager.cl_pair_iter] and [get_pcls] *)

Module Utils.

(** The inner loop of [cl_pair_iter]: the triples of row [i] and the
    counter after them. *)
Fixpoint cl_pair_row (i : nat) (js : list nat) (icl : nat)
  : list (nat * nat * nat) * nat :=
  match js with
  | [] => ([], icl)
  | j :: js' =>
      let '(out, icl') := cl_pair_row i js' (S icl) in
      ((icl, i, j) :: out, icl')
  end.

Fixpoint cl_pair_rows (range_i : list nat) (nmaps icl : nat)
  : list (nat * nat * nat) :=
  match range_i with
  | [] => []
  | i :: range_i' =>
      let '(out, icl') := cl_pair_row i (seq i (nmaps - i)) icl in
      out ++ cl_pair_rows range_i' nmaps icl'
  end.

(** The triples [(icl, i, j)] that the generator yields, in order. *)
Definition cl_pair_iter (nmaps : nat) : list (nat * nat * nat) :=
  cl_pair_rows (seq 0 nmaps) nmaps 0.

(** The collaborators of [get_pcls]: healpy's map reader (the content of
    the files it can read), NaMaster's fields and coupled spectra. *)
Class Collab (R : Type) := {
  hmap : Type;
  mask : Type;
  field : Type;
  hp_read_map : string → result (hmap * hmap);
  NmtField : mask → hmap → hmap → field;
  compute_coupled_cell : field → field → ndarray R
}.

(** An [NmtBin] object. *)
Record NmtBin (R : Type) := {
  get_n_bands : nat;
  bin_cell : ndarray R → ndarray R;
  get_effective_ells : ndarray R
}.
Global Arguments get_n_bands {R}.
Global Arguments bin_cell {R}.
Global Arguments get_effective_ells {R}.

(** One [add_ell_cl] call on a [sacc.Sacc] object. *)
Record EllCl (R : Type) := {
  data_type : string;
  tracer1 : string;
  tracer2 : string;
  ell : ndarray R;
  x : ndarray R
}.
Global Arguments data_type {R}.
Global Arguments tracer1 {R}.
Global Arguments tracer2 {R}.
Global Arguments ell {R}.
Global Arguments x {R}.

(** A [sacc.Sacc] object: the [add_tracer] and [add_ell_cl] calls made on
    it, in order. *)
Record Sacc (R : Type) := {
  tracers : list (string * string);
  ell_cls : list (EllCl R)
}.
Global Arguments tracers {R}.
Global Arguments ell_cls {R}.

Definition add_tracer {R} (s : Sacc R) (kind name : string) : Sacc R :=
  {| tracers := tracers s ++ [(kind, name)]; ell_cls := ell_cls s |}.

Definition add_ell_cl {R} (s : Sacc R) (dt t1 t2 : string) (l v : ndarray R)
  : Sacc R :=
  {| tracers := tracers s;
     ell_cls := ell_cls s ++
       [{| data_type := dt; tracer1 := t1; tracer2 := t2; ell := l; x := v |}] |}.

(** What [get_pcls] does to the outside, in order: the calls it makes.
    [EvSaveFits] is the call of [save_fits]; what that call does on disk,
    and whether it raises, is not part of this model. *)
Inductive event (R : Type) :=
| EvReadMap (fname : string)
| EvNmtField (fname : string)
| EvSaveFits (fname : string) (s : Sacc R).
Global Arguments EvReadMap {R} fname.
Global Arguments EvNmtField {R} fname.
Global Arguments EvSaveFits {R} fname s.

Definition emit {R} (e : event R) : st (list (event R)) () :=
  λ tr, (Ok (), tr ++ [e]).

Section GetPcls.
Context {R : Type} `{Arith R} `{Collab R}.

(** The check at the head of [get_pcls], with the operator as the loop
    uses it afterwards. *)
Definition check_winv (binning : NmtBin R) (winv : option (ndarray R))
  : result (option (ndarray R)) :=
  match winv with
  | Some w =>
      let nbpw := get_n_bands binning in
      if decide (shape w ≠ [4; nbpw; 4; nbpw])
      then Raise (ValueError "Incompatible binning scheme and binned MCM.")
      else Some <$> reshape w [4 * nbpw; 4 * nbpw]
  | None => Ok None
  end.

(** "Read maps" *)
Fixpoint read_fields (fnames : list string) (msk : mask) (fields : list field)
  : st (list (event R)) (list field) :=
  match fnames with
  | [] => mret fields
  | fname :: fnames' =>
      emit (EvReadMap fname);;
      '(mpQ, mpU) ← lift (hp_read_map fname);
      emit (EvNmtField fname);;
      read_fields fnames' msk (fields ++ [NmtField msk mpQ mpU])
  end.

(** The binned spectrum of a pair, before the deconvolution. *)
Definition binned (binning : NmtBin R) (f1 f2 : field) : ndarray R :=
  bin_cell binning (compute_coupled_cell f1 f2).

(** [np.dot(winv, pcl.flatten()).reshape([4, nbpw])] *)
Definition deconvolve (w : ndarray R) (nbpw : nat) (pcl : ndarray R)
  : result (ndarray R) :=
  v ← dot w (flatten pcl); reshape v [4; nbpw].

(** The body of the "Compute pseudo-C_ell" loop. *)
Definition spectrum (binning : NmtBin R) (winv : option (ndarray R))
    (fields : list field) (i j : nat) : result (ndarray R) :=
  f1 ← list_get fields i;
  f2 ← list_get fields j;
  let pcl := binned binning f1 f2 in
  match winv with
  | Some w => deconvolve w (get_n_bands binning) pcl
  | None => Ok pcl
  end.

Definition compute_cls (binning : NmtBin R) (winv : option (ndarray R))
    (fields : list field) : result (list (ndarray R)) :=
  for_each (cl_pair_iter (length fields)) (λ '(icl, i, j) cls,
    pcl ← spectrum binning winv fields i j;
    Ok (cls ++ [pcl])) [].

(** The body of the "Save to sacc" loop. *)
Definition save_pair (names : list string) (leff : ndarray R)
    (cls : list (ndarray R)) (icl i j : nat) (s : Sacc R) : result (Sacc R) :=
  ni ← list_get names i;
  nj ← list_get names j;
  c ← list_get cls icl;
  ee ← getitem c 0;
  let s := add_ell_cl s "cl_ee" ni nj leff ee in
  eb ← getitem c 1;
  let s := add_ell_cl s "cl_eb" ni nj leff eb in
  s ← (if decide (i ≠ j)
       then be ← getitem c 2; Ok (add_ell_cl s "cl_be" ni nj leff be)
       else Ok s);
  bb ← getitem c 3;
  Ok (add_ell_cl s "cl_bb" ni nj leff bb).

Definition save_cls (names : list string) (leff : ndarray R)
    (cls : list (ndarray R)) (nmaps : nat) : result (Sacc R) :=
  let s := foldl (λ s n, add_tracer s "Misc" n)
                 {| tracers := []; ell_cls := [] |} names in
  for_each (cl_pair_iter nmaps) (λ '(icl, i, j) s,
    save_pair names leff cls icl i j s) s.

Definition get_pcls (fnames names : list string) (fname_out : string)
    (msk : mask) (binning : NmtBin R) (winv : option (ndarray R))
  : st (list (event R)) () :=
  winv ← lift (check_winv binning winv);
  fields ← read_fields fnames msk [];
  let nmaps := length fields in
  cls ← lift (compute_cls binning winv fields);
  let leff := get_effective_ells binning in
  s ← lift (save_cls names leff cls nmaps);
  emit (EvSaveFits fname_out s).

End GetPcls.

End Utils.

(** ** More of Python: exceptions of the interpreter itself, slices *)

Module PyExt.

(** The exceptions of [Py.exn], and those that the interpreter raises on
    the code as it is written: a call with too many arguments or an
    operand of the wrong type, a local variable read before any
    assignment. *)
Inductive error :=
| Builtin (e : exn)
| TypeError
| UnboundLocalError (name : string).

Inductive res (A : Type) :=
| Ret (a : A)
| Throw (e : error).
Global Arguments Ret {A} a.
Global Arguments Throw {A} e.

Global Instance res_ret : MRet res := @Ret.
Global Instance res_bind : MBind res := λ A B f r,
  match r with Ret a => f a | Throw e => Throw e end.

(** [for x in l: out.append(f x)], stopping at the first exception. *)
Fixpoint collect {A B : Type} (f : A → res B) (l : list A) (out : list B)
  : res (list B) :=
  match l with
  | [] => Ret out
  | x :: l' => y ← f x; collect f l' (out ++ [y])
  end.

(** The truth value of an optional string: [None] and [""] are false. *)
Definition truthy (s : option string) : bool :=
  match s with
  | Some s' => negb (bool_decide (s' = ""))
  | None => false
  end.

(** A slice bound brought into [0 .. len]: a negative one counts from the
    end. *)
Definition slice_bound (len i : Z) : Z :=
  if decide (i < 0)%Z then Z.max 0 (i + len) else Z.min i len.

(** [l[start:stop]]; [stop = None] is [l[start:]]. *)
Definition py_slice {A : Type} (l : list A) (start : Z) (stop : option Z)
  : list A :=
  let len := Z.of_nat (length l) in
  let a := slice_bound len start in
  let b := match stop with Some s => slice_bound len s | None => len end in
  take (Z.to_nat (b - a)) (drop (Z.to_nat a) l).

(** [os.path.join(a, *ps)] *)
Definition join_all (a : string) (ps : list string) : string :=
  foldl path_join a ps.

(** [simname + suffix], where [simname] may be [None]. *)
Definition str_add (simname : option string) (suffix : string) : res string :=
  match simname with
  | Some n => Ret (n +:+ suffix)
  | None => Throw TypeError
  end.

(** [s] has two underscores in a row. *)
Fixpoint has_dunder (s : string) : bool :=
  match s with
  | "" => false
  | String c s' =>
      match s' with
      | "" => false
      | String c2 _ =>
          (bool_decide (c = "_"%char) && bool_decide (c2 = "_"%char))
          || has_dunder s'
      end
  end.

(** Every character of [s] passes the test [P]. *)
Fixpoint str_forall (P : ascii → bool) (s : string) : bool :=
  match s with
  | "" => true
  | String c s' => P c && str_forall P s'
  end.

Definition is_digit (c : ascii) : bool :=
  match Ascii.is_nat c with Some _ => true | None => false end.

(** A decimal digit or the minus sign. *)
Definition is_digit_or_minus (c : ascii) : bool :=
  is_digit c || bool_decide (c = "-"%char).

End PyExt.

Import PyExt.

(** ** [metadata_manager.py]: the other path functions *)

Module MetaMore.
Import Meta.

(** [get_fname_mask(map_type)], on the [masks] dict as the yaml file has
    it (the record [Masks] holds five of its entries). *)
Definition get_fname_mask (masks : list (string * string)) (map_type : string)
  : result string :=
  base_dir ← dict_get masks "mask_directory";
  if decide (map_type = "analysis") then
    f ← dict_get masks "analysis_mask"; Ok (path_join base_dir f)
  else if decide (map_type = "binary") then
    f ← dict_get masks "binary_mask"; Ok (path_join base_dir f)
  else if decide (map_type = "point_source") then
    f ← dict_get masks "point_source_mask"; Ok (path_join base_dir f)
  else
    Raise (ValueError ("The map_type chosen does not exits. "
                       +:+ "Choose between 'analysis', 'binary', "
                       +:+ "'point_source'.")).

(** [getattr(self, f"{cl_type}_sims_dir")]: one of the three directories
    that [__init__] sets last, else an attribute set by name. *)
Definition sims_dir_attr (m : BBmeta) (cl_type : string) : result string :=
  if decide (cl_type = "tf_est") then Ok (tf_est_sims_dir m)
  else if decide (cl_type = "tf_val") then Ok (tf_val_sims_dir m)
  else if decide (cl_type = "cosmo") then Ok (cosmo_sims_dir m)
  else getattr (attrs m) (cl_type +:+ "_sims_dir").

(** [get_map_filename_transfer2(id_sim, cl_type, pure_type)] *)
Definition get_map_filename_transfer2 (m : BBmeta) (id_sim : Z)
    (cl_type : string) (pure_type : option string) : result string :=
  path_to_maps ← sims_dir_attr m cl_type;
  let pure_label :=
    match pure_type with
    | Some p => if truthy pure_type then "_" +:+ p else ""
    | None => ""
    end in
  let file_name :=
    "TQU" +:+ pure_label +:+ "_noiseless_nside" +:+ pretty (nside m)
    +:+ "_lmax" +:+ pretty (lmax m) +:+ "_" +:+ format_04d id_sim +:+ ".fits" in
  Ok (path_to_maps +:+ "/" +:+ file_name).

End MetaMore.

(** ** [utils.py]: the file names of [PipelineManager] *)

Module Pipeline.

(** The attributes of a [PipelineManager] that the name functions read:
    the two arrays of simulation names, as one-dimensional arrays, and the
    two input directories. ([np.loadtxt] gives an array without dimension
    for a file of one name only, which cannot be sliced: such a manager is
    not among these.) The [stname_*] attributes are the constants that
    [__init__] sets. *)
Record PipelineManager := {
  pl_names : list string;
  val_names : list string;
  pl_input_dir : string;
  val_input_dir : string
}.

Definition stname_mcm : string := "mcm".
Definition stname_filtpl : string := "filter_PL".
Definition stname_pclpl_in : string := "pcl_PL_in".
Definition stname_pclpl_filt : string := "pcl_PL_filt".
Definition stname_filtval : string := "filter_val".
Definition stname_pclval_in : string := "pcl_val_in".
Definition stname_pclval_filt : string := "pcl_val_filt".
Definition stname_clval : string := "cl_val".
Definition stname_transfer : string := "transfer".

(** [if product == tag: fname = value]: the assignment is made, and its
    right-hand side evaluated, only when the tags agree. *)
Definition assign_if (product tag : string) (value : res string)
    (fname : option string) : res (option string) :=
  if decide (product = tag) then v ← value; Ret (Some v)
  else Ret fname.

(** [get_filename(product, out_base_dir, simname)]: twelve tests in a row,
    then [return fname]. *)
Definition get_filename (pm : PipelineManager) (product out_base_dir : string)
    (simname : option string) : res string :=
  let up (dir : string) (file : res string) : res string :=
    f ← file; Ret (join_all out_base_dir [".."; dir; f]) in
  fname ← assign_if product "mcm" (up stname_mcm (Ret "mcm.npz")) None;
  fname ← assign_if product "mcm_plots"
            (Ret (join_all out_base_dir [".."; stname_mcm])) fname;
  fname ← assign_if product "pl_sim_input"
            (f ← str_add simname ".fits"; Ret (path_join (pl_input_dir pm) f))
            fname;
  fname ← assign_if product "pl_sim_filtered"
            (up stname_filtpl (str_add simname ".fits")) fname;
  fname ← assign_if product "pcl_pl_sim_input"
            (up stname_pclpl_in (str_add simname "_pcl_in.fits")) fname;
  fname ← assign_if product "pcl_pl_sim_filtered"
            (up stname_pclpl_filt (str_add simname "_pcl_filt.fits")) fname;
  fname ← assign_if product "val_sim_input"
            (f ← str_add simname ".fits"; Ret (path_join (val_input_dir pm) f))
            fname;
  fname ← assign_if product "val_sim_filtered"
            (up stname_filtval (str_add simname ".fits")) fname;
  fname ← assign_if product "pcl_val_sim_input"
            (up stname_pclval_in (str_add simname "_pcl_in.fits")) fname;
  fname ← assign_if product "pcl_val_sim_filtered"
            (up stname_pclval_filt (str_add simname "_pcl_filt.fits")) fname;
  fname ← assign_if product "cl_val_sim"
            (up stname_clval (str_add simname "_cl.fits")) fname;
  fname ← assign_if product "transfer_function"
            (up stname_transfer (Ret "transfer.npz")) fname;
  match fname with
  | Some f => Ret f
  | None => Throw (UnboundLocalError "fname")
  end.

(** [names[sim0:]] if [nsims == -1], else [names[sim0:sim0+nsims]]. *)
Definition select (names : list string) (sim0 nsims : Z) : list string :=
  if decide (nsims = -1)%Z then py_slice names sim0 None
  else py_slice names sim0 (Some (sim0 + nsims)%Z).

(** The body of the loop of [val_sim_names]. *)
Definition val_sim_name (pm : PipelineManager) (output_dir which n : string)
  : res string :=
  if decide (which = "names") then Ret n
  else if decide (which = "input") then
    get_filename pm "val_sim_input" output_dir (Some n)
  else if decide (which = "filtered" ∨ which = "decoupled") then
    get_filename pm "val_sim_filtered" output_dir (Some n)
  else if decide (which = "input_Cl") then
    get_filename pm "pcl_val_sim_input" output_dir (Some n)
  else if decide (which = "filtered_Cl") then
    get_filename pm "pcl_val_sim_filtered" output_dir (Some n)
  else if decide (which = "decoupled_Cl") then
    get_filename pm "cl_val_sim" output_dir (Some n)
  else Throw (Builtin (ValueError ("Unknown kind " +:+ which))).

(** [val_sim_names(sim0, nsims, output_dir, which)] *)
Definition val_sim_names (pm : PipelineManager) (sim0 nsims : Z)
    (output_dir which : string) : res (list string) :=
  collect (val_sim_name pm output_dir which) (select (val_names pm) sim0 nsims) [].

(** An entry of the list that [pl_sim_names] returns: a name, or the list
    [[fE, fB]]. *)
Inductive entry :=
| One (f : string)
| Both (fE fB : string).

(** What one round of the loop of [pl_sim_names] appends. *)
Definition pl_sim_name (pm : PipelineManager) (output_dir which : string)
    (EandB : bool) (n : string) : res (list entry) :=
  let e_and_b (fE fB : string) : list entry :=
    if EandB then [Both fE fB] else [One fE; One fB] in
  if decide (which = "names") then Ret (e_and_b (n +:+ "_E") (n +:+ "_B"))
  else if decide (which = "input") then
    fE ← get_filename pm "pl_sim_input" output_dir (Some (n +:+ "_E"));
    fB ← get_filename pm "pl_sim_input" output_dir (Some (n +:+ "_B"));
    Ret (e_and_b fE fB)
  else if decide (which = "filtered") then
    fE ← get_filename pm "pl_sim_filtered" output_dir (Some (n +:+ "_E"));
    fB ← get_filename pm "pl_sim_filtered" output_dir (Some (n +:+ "_B"));
    Ret (e_and_b fE fB)
  else if decide (which = "input_Cl") then
    fn ← get_filename pm "pcl_pl_sim_input" output_dir (Some n); Ret [One fn]
  else if decide (which = "filtered_Cl") then
    fn ← get_filename pm "pcl_pl_sim_filtered" output_dir (Some n); Ret [One fn]
  else Throw (Builtin (ValueError ("Unknown kind " +:+ which))).

Fixpoint pl_sim_loop (pm : PipelineManager) (output_dir which : string)
    (EandB : bool) (names : list string) (fnames : list entry)
  : res (list entry) :=
  match names with
  | [] => Ret fnames
  | n :: names' =>
      es ← pl_sim_name pm output_dir which EandB n;
      pl_sim_loop pm output_dir which EandB names' (fnames ++ es)
  end.

(** [pl_sim_names(sim0, nsims, output_dir, which, EandB)] *)
Definition pl_sim_names (pm : PipelineManager) (sim0 nsims : Z)
    (output_dir which : string) (EandB : bool) : res (list entry) :=
  pl_sim_loop pm output_dir which EandB (select (pl_names pm) sim0 nsims) [].

(** [pl_sim_names_EandB(sim0, nsims, output_dir, which)] *)
Definition pl_sim_names_EandB (pm : PipelineManager) (sim0 nsims : Z)
    (output_dir which : string) : res (list entry) :=
  pl_sim_names pm sim0 nsims output_dir which true.

(** The names in a list of entries, pairs opened. *)
Definition flat (es : list entry) : list string :=
  e ← es; match e with One f => [f] | Both fE fB => [fE; fB] end.

End Pipeline.

(** ** Reference enumerations, to compare the loops with *)

Module Ref.

(** The pairs [(l[i], l[j])] with [i <= j], row by row. *)
Fixpoint upper_pairs {A : Type} (l : list A) : list (A * A) :=
  match l with
  | [] => []
  | a :: l' => (pair a <$> (a :: l')) ++ upper_pairs l'
  end.

(** The maps of a registry as (map set, split) pairs, in the order of
    [maps_list]. *)
Definition split_index (ms : list (string * Meta.MapSet)) : list (string * Z) :=
  '(s, a) ← ms; pair s <$> range (Meta.n_splits a).

(** All ordered pairs of maps, but for those of one map set whose first
    split is greater, as a string, than the second. *)
Definition all_pairs_kept (ms : list (string * Meta.MapSet))
  : list (string * string) :=
  p1 ← split_index ms; p2 ← split_index ms;
  if bool_decide (p1.1 = p2.1) && str_gt (pretty p1.2) (pretty p2.2)
  then []
  else [(Meta.map_name p1.1 p1.2, Meta.map_name p2.1 p2.2)].

(** The pairs [(l[i], l[j])] with [i < j], row by row. *)
Fixpoint strict_pairs {A : Type} (l : list A) : list (A * A) :=
  match l with
  | [] => []
  | a :: l' => (pair a <$> l') ++ strict_pairs l'
  end.

(** What the three tests of the loop on individual maps decide for two
    maps, given as map set, split (as text) and tag of the map set. *)
Definition kept (type : string) (s1 k1 t1 s2 k2 t2 : string) : bool :=
  negb (bool_decide (s1 = s2) && str_gt k1 k2)
  && negb (bool_decide (type = "cross") && bool_decide (t1 = t2)
           && bool_decide (k1 = k2))
  && negb (bool_decide (type = "auto") && bool_decide (t1 ≠ t2)
           && bool_decide (k1 ≠ k2)).

(** The tag of a map set of the registry. *)
Definition tag_of (ms : list (string * Meta.MapSet)) (s : string) : string :=
  match dict_get ms s with Ok a => Meta.exp_tag a | Raise _ => "" end.

(** The ordered pairs of maps that pass the three tests, in loop order. *)
Definition kept_pairs (type : string) (ms : list (string * Meta.MapSet))
  : list (string * string) :=
  p1 ← split_index ms; p2 ← split_index ms;
  if kept type p1.1 (pretty p1.2) (tag_of ms p1.1)
               p2.1 (pretty p2.2) (tag_of ms p2.1)
  then [(Meta.map_name p1.1 p1.2, Meta.map_name p2.1 p2.2)]
  else [].

(** The index pairs [(i, j)] with [i <= j < n], row by row. *)
Definition index_pairs (n : nat) : list (nat * nat) :=
  i ← seq 0 n; pair i <$> seq i (n - i).

(** The row of a 4 x nbands spectrum that a record type stores. *)
Definition component (dt : string) : nat :=
  if decide (dt = "cl_ee") then 0
  else if decide (dt = "cl_eb") then 1
  else if decide (dt = "cl_be") then 2
  else 3.

(** The record types written for the pair [(i, j)]. *)
Definition pair_types (i j : nat) : list string :=
  if decide (i = j) then ["cl_ee"; "cl_eb"; "cl_bb"]
  else ["cl_ee"; "cl_eb"; "cl_be"; "cl_bb"].

(** [np.eye(4*nbpw).reshape(4, nbpw, 4, nbpw)] *)
Definition identity_winv {R : Type} `{Arith R} (nbpw : nat) : ndarray R :=
  {| shape := [4; nbpw; 4; nbpw]; data := eye_data (4 * nbpw) |}.

(** The records of one pair: their types, and for each of them the
    effective multipoles, the two names and the row of [pcl] it stores. *)
Definition pair_block {R : Type} (names : list string) (leff pcl : ndarray R)
    (i j : nat) (blk : list (Utils.EllCl R)) : Prop :=
  Utils.data_type <$> blk = pair_types i j
  ∧ Forall (λ r, Utils.ell r = leff
                 ∧ names !! i = Some (Utils.tracer1 r)
                 ∧ names !! j = Some (Utils.tracer2 r)
                 ∧ getitem pcl (component (Utils.data_type r)) = Ok (Utils.x r))
           blk.

(** The events of the "Read maps" loop. *)
Definition read_events {R : Type} (fnames : list string) : list (Utils.event R) :=
  f ← fnames; [Utils.EvReadMap f; Utils.EvNmtField f].

End Ref.

(** ** Concrete inputs used to exercise the statements *)

Module Examples.
Import Meta Utils.

Definition masks0 : Masks := {|
  galactic_mask_root := "planck_galactic"; gal_mask_mode := "gal070";
  binary_mask := "binary.fits"; point_source_mask := "ps.fits";
  analysis_mask := "analysis.fits"
|}.

Definition config_of (nside lmax : Z) (ms : list (string * MapSet)) : Config := {|
  data_dirs := [("root", "/data"); ("map_directory", "maps");
                ("mask_directory", "masks")];
  output_dirs := [("root", "/out"); ("pre_process_directory", "pre");
                  ("sims_directory", "sims")];
  general_pars := {| gp_nside := nside; gp_lmax := lmax;
                     gp_binning_file := "binning.npz" |};
  map_sets := ms;
  masks := masks0;
  sim_pars := {| num_sims := 10; cosmology := "planck18"; mock_nsrcs := 80;
                 mock_srcs_hole_radius := 40; hitmap_file := "hits.fits" |};
  tf_settings := []
|}.

Definition set_A : MapSet := {| n_splits := 2; file_root := "a"; exp_tag := "X" |}.
Definition set_B : MapSet := {| n_splits := 3; file_root := "b"; exp_tag := "Y" |}.

(** Map sets [A] (two splits) and [B] (three splits), [nside = 256]. *)
Definition config_AB : Config := config_of 256 767 [("A", set_A); ("B", set_B)].

(** One map set [A] with two splits. *)
Definition config_A : Config := config_of 256 767 [("A", set_A)].

(** One map set [A] with eleven splits. *)
Definition set_A11 : MapSet := {| n_splits := 11; file_root := "a"; exp_tag := "X" |}.
Definition config_A11 : Config := config_of 256 767 [("A", set_A11)].

(** A map set whose file root is an absolute path. *)
Definition set_abs : MapSet := {| n_splits := 2; file_root := "/x"; exp_tag := "X" |}.
Definition config_abs : Config := config_of 256 767 [("A", set_abs)].

(** Exact integer arithmetic for the array entries. *)
Definition Z_arith : Arith Z :=
  {| zero := 0%Z; one := 1%Z; add := Z.add; mul := Z.mul |}.

(** Collaborators over integers: a map file holds the length of its name
    and one, except the file [missing.fits]; a field is its first map; the
    coupled spectrum of two fields is a 4 x 2 array made from them. *)
Definition Z_collab : Collab Z := {|
  hmap := Z; mask := (); field := Z;
  hp_read_map := λ fname,
    if decide (fname = "missing.fits") then Raise (FileNotFoundError fname)
    else Ok (Z.of_nat (String.length fname), 1%Z);
  NmtField := λ _ mpQ _, mpQ;
  compute_coupled_cell := λ f1 f2,
    {| shape := [4; 2];
       data := [f1; f2; (f1 + f2)%Z; (f1 * f2)%Z; 5%Z; 6%Z; 7%Z; 8%Z] |}
|}.











(** A binning with two bands that leaves 4 x 2 arrays as they are. *)
Definition bins2 : NmtBin Z := {|
  get_n_bands := 2;
  bin_cell := λ c, c;
  get_effective_ells := {| shape := [2]; data := [10%Z; 20%Z] |}
|}.

(** A binning with two bands that cuts or pads with zeros what it is given
    to a 4 x 2 array. *)
Definition bins_pad : NmtBin Z := {|
  get_n_bands := 2;
  bin_cell := λ c, {| shape := [4; 2];
                      data := take 8 (data c ++ replicate 8 0%Z) |};
  get_effective_ells := {| shape := [2]; data := [10%Z; 20%Z] |}
|}.

(** A configuration whose [data_dirs] has no [root]. *)
Definition config_no_root : Config := {|
  data_dirs := [("map_directory", "maps")];
  output_dirs := [("root", "/out")];
  general_pars := {| gp_nside := 256; gp_lmax := 767;
                     gp_binning_file := "binning.npz" |};
  map_sets := [("A", set_A)];
  masks := masks0;
  sim_pars := {| num_sims := 10; cosmology := "planck18"; mock_nsrcs := 80;
                 mock_srcs_hole_radius := 40; hitmap_file := "hits.fits" |};
  tf_settings := []
|}.

(** The registry of the docstring of [get_ps_names_list]: two map sets of
    two splits each. *)
Definition set_ms1 : MapSet := {| n_splits := 2; file_root := "m1"; exp_tag := "X" |}.
Definition set_ms2 : MapSet := {| n_splits := 2; file_root := "m2"; exp_tag := "Y" |}.
Definition config_doc : Config :=
  config_of 256 767 [("ms1", set_ms1); ("ms2", set_ms2)].

(** A map set whose name has two underscores in a row. *)
Definition config_dunder : Config :=
  config_of 256 767 [("my__set", set_A)].

(** An empty file system. *)
Definition fs0 : FS := {| dirs := ∅; files := ∅ |}.

(** A pipeline manager with three power-law and four validation
    simulations. *)
Definition pm0 : Pipeline.PipelineManager := {|
  Pipeline.pl_names := ["pl0"; "pl1"; "pl2"];
  Pipeline.val_names := ["v0"; "v1"; "v2"; "v3"];
  Pipeline.pl_input_dir := "/in/pl";
  Pipeline.val_input_dir := "/in/val"
|}.

End Examples.

(** * Properties *)

Import Meta Utils.

(** ** Strings *)

Lemma str_app_cons (c : ascii) (a b : string) :
  String c a +:+ b = String c (a +:+ b).
Proof. reflexivity. Qed.

Lemma str_app_nil_r (s : string) : s +:+ "" = s.
Proof.
  induction s as [|c s IH]; [done|]. by rewrite str_app_cons, IH.
Qed.

Lemma str_app_assoc (a b c : string) : (a +:+ b) +:+ c = a +:+ (b +:+ c).
Proof.
  induction a as [|x a IH]; [done|]. by rewrite !str_app_cons, IH.
Qed.

Lemma str_length_app (a b : string) :
  String.length (a +:+ b) = String.length a + String.length b.
Proof.
  induction a as [|x a IH]; [done|]. rewrite str_app_cons. simpl. by rewrite IH.
Qed.

(** Two concatenations with tails of the same length agree piecewise. *)
Lemma str_app_inj_len (a b s t : string) :
  a +:+ s = b +:+ t → String.length s = String.length t → a = b ∧ s = t.
Proof.
  revert b. induction a as [|x a IH]; intros [|y b] Heq Hlen.
  - done.
  - apply (f_equal String.length) in Heq.
    rewrite !str_length_app in Heq. simpl in Heq. lia.
  - apply (f_equal String.length) in Heq.
    rewrite !str_length_app in Heq. simpl in Heq. lia.
  - rewrite !str_app_cons in Heq. injection Heq as -> Heq.
    destruct (IH b Heq Hlen) as [-> ->]. done.
Qed.

(** ** The exception monads *)

Lemma result_bind_Ok {A B} (r : result A) (f : A → result B) (b : B) :
  r ≫= f = Ok b ↔ ∃ a, r = Ok a ∧ f a = Ok b.
Proof.
  destruct r as [a|e]; simpl; split.
  - eauto.
  - by intros (a' & [= <-] & ?).
  - done.
  - by intros (a' & ? & ?).
Qed.

Lemma st_bind_Ok {W A B} (m : st W A) (f : A → st W B) (w w' : W) (b : B) :
  (m ≫= f) w = (Ok b, w') ↔ ∃ a w1, m w = (Ok a, w1) ∧ f a w1 = (Ok b, w').
Proof.
  unfold mbind, st_bind. destruct (m w) as [[a|e] w1]; split.
  - eauto.
  - by intros (a' & w2 & [= <- <-] & ?).
  - done.
  - by intros (a' & w2 & ? & ?).
Qed.

Lemma st_lift_Ok {W A} (r : result A) (w w' : W) (a : A) :
  lift r w = (Ok a, w') ↔ r = Ok a ∧ w' = w.
Proof. unfold lift. split; [by intros [= -> ->] | by intros [-> ->]]. Qed.

(** A loop whose body always appends: the result is the concatenation of
    what each round appends. *)
Lemma for_each_append {A B} (l : list A) (body : A → list B → result (list B))
    (h : A → list B) (acc : list B) :
  (∀ x acc', x ∈ l → body x acc' = Ok (acc' ++ h x)) →
  for_each l body acc = Ok (acc ++ (l ≫= h)).
Proof.
  revert acc. induction l as [|x l IH]; intros acc Hbody; simpl.
  - by rewrite app_nil_r.
  - rewrite Hbody by left. simpl. rewrite IH.
    + by rewrite app_assoc.
    + intros y acc' Hy. apply Hbody. by right.
Qed.

(** ** Dicts *)

Lemma dict_get_key {V} (d : list (string * V)) (k : string) :
  k ∈ dict_keys d → ∃ v, dict_get d k = Ok v ∧ (k, v) ∈ d.
Proof.
  unfold dict_keys. induction d as [|[k' v] d IH]; simpl; intros Hk.
  - by apply elem_of_nil in Hk.
  - destruct (decide (k = k')) as [->|Hne].
    + exists v. split; [done | left].
    + apply elem_of_cons in Hk as [?|Hk]; [done|].
      destruct (IH Hk) as (v' & ? & ?). exists v'. split; [done | by right].
Qed.

Lemma dict_get_elem {V} (d : list (string * V)) (k : string) (v : V) :
  dict_wf d → (k, v) ∈ d → dict_get d k = Ok v.
Proof.
  unfold dict_wf, dict_keys. induction d as [|[k' v'] d IH]; simpl; intros Hwf Hin.
  - by apply elem_of_nil in Hin.
  - apply NoDup_cons in Hwf as [Hk' Hwf].
    apply elem_of_cons in Hin as [[= -> ->]|Hin].
    + by rewrite decide_True.
    + rewrite decide_False; [by apply IH|].
      intros ->. apply Hk'. apply list_elem_of_fmap. by exists (k', v).
Qed.

(** ** The file system *)

(** With no regular file in the way, [mkdir_chain] adds its directories. *)
Lemma mkdir_chain_free (ds : list string) (fs : FS) :
  (∀ d, d ∈ ds → d ∉ files fs) →
  mkdir_chain ds fs
  = (Ok (), {| dirs := list_to_set ds ∪ dirs fs; files := files fs |}).
Proof.
  revert fs. induction ds as [|d ds IH]; intros [ds0 fl0] Hfree; simpl in *.
  - unfold mret, st_ret. do 2 f_equal. set_solver.
  - rewrite decide_False by (apply Hfree; left).
    rewrite IH by (intros d' ?; apply Hfree; by right).
    simpl. do 2 f_equal. set_solver.
Qed.

(** Whatever [mkdir_chain] does, it leaves the regular files alone and
    removes no directory. *)
Lemma mkdir_chain_mono (ds : list string) (fs fs' : FS) (r : result ()) :
  mkdir_chain ds fs = (r, fs') → files fs' = files fs ∧ dirs fs ⊆ dirs fs'.
Proof.
  revert fs. induction ds as [|d ds IH]; intros fs Hrun; simpl in Hrun.
  - by injection Hrun as <- <-.
  - case_decide.
    + by injection Hrun as <- <-.
    + apply IH in Hrun as [Hf Hd]. simpl in *. split; [done | set_solver].
Qed.

(** Running [mkdir_chain] again on the file system that it left gives the
    same outcome and changes nothing. *)
Lemma mkdir_chain_idem (ds : list string) (fs fs' : FS) (r : result ()) :
  mkdir_chain ds fs = (r, fs') → mkdir_chain ds fs' = (r, fs').
Proof.
  revert fs. induction ds as [|d ds IH]; intros fs Hrun; simpl in *.
  - by injection Hrun as <- <-.
  - destruct (decide (d ∈ files fs)) as [Hin|Hnin].
    + injection Hrun as <- <-. by rewrite decide_True.
    + pose proof (mkdir_chain_mono _ _ _ _ Hrun) as [Hf Hd]. simpl in *.
      rewrite decide_False by (by rewrite Hf).
      assert ({| dirs := {[ d ]} ∪ dirs fs'; files := files fs' |} = fs') as ->.
      { destruct fs' as [ds' fl']. simpl in *. f_equal. set_solver. }
      by eapply IH.
Qed.

(** ** [BBmeta.__init__] *)

Lemma _get_map_list_total (ms : list (string * MapSet)) (sets : list string) :
  sets ⊆ dict_keys ms → ∃ l, _get_map_list ms sets = Ok l.
Proof.
  induction sets as [|s sets IH]; intros Hsub; simpl; [by eexists|].
  destruct (dict_get_key ms s) as (v & Hv & _); [apply Hsub; left|].
  unfold n_splits_from_map_set. rewrite Hv. simpl.
  destruct IH as [l Hl]; [intros y ?; apply Hsub; by right|].
  rewrite Hl. simpl. by eexists.
Qed.

Lemma getattr_tf (s : list (string * string)) (a : gmap string string)
    (name : string) :
  is_Some (a !! name) → is_Some (_init_tf_estimation_params s a !! name).
Proof.
  revert a. induction s as [|[k v] s IH]; intros a Ha; simpl; [done|].
  apply IH. rewrite lookup_insert. case_decide; [by eexists | done].
Qed.

Lemma set_directory_loop_free (d : list (string * string)) (root_attr root : string)
    (items : list (string * string)) (a : gmap string string) (fs : FS) :
  dict_get d "root" = Ok root → files fs = ∅ →
  ∃ a' fs', set_directory_loop d root_attr items a fs = (Ok a', fs')
    ∧ files fs' = ∅
    ∧ (∀ k, is_Some (a !! k) → is_Some (a' !! k))
    ∧ (∀ label path, (label, path) ∈ items → label ≠ "root" →
         is_Some (a' !! label)).
Proof.
  intros Hroot. revert a fs.
  induction items as [|[label path] items IH]; intros a fs Hfiles; simpl.
  - exists a, fs. split_and!; [done..|]. intros ?? Hin. by apply elem_of_nil in Hin.
  - destruct (decide (label = "root")) as [->|Hne].
    + unfold mbind, st_bind, lift. rewrite Hroot.
      destruct (IH (<[root_attr := root]> a) fs Hfiles)
        as (a' & fs' & Hrun & Hf & Hkeep & Hnew).
      exists a', fs'. split_and!; [done..| |].
      * intros k Hk. apply Hkeep. rewrite lookup_insert.
        case_decide; [by eexists | done].
      * intros l p' Hin Hl. apply elem_of_cons in Hin as [[= -> ->]|Hin];
          [done | by eapply Hnew].
    + unfold mbind, st_bind, lift. rewrite Hroot.
      unfold makedirs. rewrite mkdir_chain_free
        by (intros ??; rewrite Hfiles; apply not_elem_of_empty).
      set (a1 := <[label +:+ "_relative" := path]> _).
      set (fs1 := {| dirs := _; files := _ |}).
      destruct (IH a1 fs1 Hfiles) as (a' & fs' & Hrun & Hf & Hkeep & Hnew).
      exists a', fs'. split_and!; [done..| |].
      * intros k Hk. apply Hkeep. subst a1. rewrite !lookup_insert.
        repeat case_decide; by eauto.
      * intros l p' Hin Hl. apply elem_of_cons in Hin as [[= -> ->]|Hin];
          [|by eapply Hnew].
        apply Hkeep. subst a1. rewrite !lookup_insert.
        repeat case_decide; by eauto.
Qed.

(** With no regular file around, a configuration that names its two roots,
    the pre-processing and the mask directory and one map set is valid. *)
Lemma valid_content_free (c : Config) (fs : FS) (r1 r2 p1 p2 : string) :
  files fs = ∅ →
  dict_get (data_dirs c) "root" = Ok r1 →
  dict_get (output_dirs c) "root" = Ok r2 →
  ("pre_process_directory", p1) ∈ data_dirs c ++ output_dirs c →
  ("mask_directory", p2) ∈ data_dirs c ++ output_dirs c →
  map_sets c ≠ [] →
  valid_content c fs.
Proof.
  intros Hfiles Hr1 Hr2 Hpre Hmask Hne.
  destruct (set_directory_loop_free (data_dirs c) "data_dir" r1 (data_dirs c)
              ∅ fs Hr1 Hfiles) as (a1 & fs1 & Hrun1 & Hf1 & _ & Hnew1).
  destruct (set_directory_loop_free (output_dirs c) "output_dir" r2
              (output_dirs c) a1 fs1 Hr2 Hf1)
    as (a2 & fs2 & Hrun2 & Hf2 & Hkeep2 & Hnew2).
  exists a2, fs2. split_and!; [|..|done].
  - unfold _set_directory_attributes, mbind, st_bind. by rewrite Hrun1.
  - apply elem_of_app in Hpre as [?|?];
      [eapply Hkeep2, Hnew1 | eapply Hnew2]; done.
  - apply elem_of_app in Hmask as [?|?];
      [eapply Hkeep2, Hnew1 | eapply Hnew2]; done.
Qed.

Lemma init_below (c : Config) (fs : FS) :
  valid_content c fs →
  (gp_lmax (general_pars c) ≤ 3 * gp_nside (general_pars c) - 1)%Z →
  ∃ m, fst (init c fs) = Ok m.
Proof.
  intros (a & fs' & Hdirs & [pre Hpre] & [md Hmd] & Hne) Hle.
  unfold init, mbind, st_bind. rewrite Hdirs.
  unfold lift, sanity_check. rewrite decide_False by lia.
  unfold getattr at 1. rewrite Hpre.
  destruct (map_sets c) as [|[k v] ms] eqn:Hms; [done|]. cbn [first_key].
  destruct (_get_map_list_total ((k, v) :: ms) (_get_map_sets_list ((k, v) :: ms)))
    as [l Hl]; [done|]. rewrite Hl.
  unfold _get_mask_name, _get_galactic_mask_name, getattr. rewrite Hmd. simpl.
  destruct (getattr_tf (tf_settings c) a "pre_process_directory") as [p Hp];
    [by eexists|].
  rewrite Hp. simpl. by eexists.
Qed.

Lemma init_above (c : Config) (fs : FS) (a : gmap string string) (fs' : FS) :
  _set_directory_attributes c ∅ fs = (Ok a, fs') →
  (gp_lmax (general_pars c) > 3 * gp_nside (general_pars c) - 1)%Z →
  init c fs = (Raise (ValueError (lmax_message (gp_nside (general_pars c)))), fs').
Proof.
  intros Hdirs Hgt. unfold init, mbind, st_bind. rewrite Hdirs.
  unfold lift, sanity_check. by rewrite decide_True.
Qed.

(** What a successful construction has computed. *)
Lemma init_Ok (c : Config) (fs fs' : FS) (m : BBmeta) :
  init c fs = (Ok m, fs') →
  config m = c
  ∧ map_sets_list m = dict_keys (map_sets c)
  ∧ _get_map_list (map_sets c) (dict_keys (map_sets c)) = Ok (maps_list m)
  ∧ (gp_lmax (general_pars c) ≤ 3 * gp_nside (general_pars c) - 1)%Z.
Proof.
  unfold init. intros Hinit.
  repeat (apply st_bind_Ok in Hinit as (? & ? & ? & Hinit)).
  repeat match goal with
         | Hl : lift _ _ = (Ok _, _) |- _ => apply st_lift_Ok in Hl as [? ->]
         end.
  injection Hinit as <- <-. simpl.
  unfold sanity_check in *. case_decide; [done|].
  repeat split; [done | lia].
Qed.

(** C6: with otherwise valid content, [lmax = 3*nside] raises the
    configuration error at load time and [lmax = 3*nside - 1] does not;
    construction fails exactly when [lmax > 3*nside - 1]. *)
Theorem init_lmax_bound (c : Config) (fs : FS) :
  valid_content c fs →
  let n := gp_nside (general_pars c) in
  let l := gp_lmax (general_pars c) in
  (l = 3 * n → fst (init c fs) = Raise (ValueError (lmax_message n)))%Z
  ∧ (l = 3 * n - 1 → ∃ m, fst (init c fs) = Ok m)%Z
  ∧ ((∃ e, fst (init c fs) = Raise e) ↔ (l > 3 * n - 1)%Z).
Proof.
  intros Hvalid n l. split_and!.
  - intros Hl. destruct Hvalid as (a & fs' & Hdirs & _).
    rewrite (init_above c fs a fs' Hdirs); [done | lia].
  - intros Hl. apply init_below; [done | lia].
  - split.
    + intros [e He]. destruct (decide (l > 3 * n - 1)%Z) as [|Hle]; [done|].
      destruct (init_below c fs Hvalid) as [m Hm]; [lia | congruence].
    + intros Hgt. destruct Hvalid as (a & fs' & Hdirs & _).
      rewrite (init_above c fs a fs' Hdirs Hgt). by eexists.
Qed.

Lemma valid_content_example (nside lmax : Z) (ms : list (string * MapSet)) :
  ms ≠ [] → valid_content (Examples.config_of nside lmax ms) Examples.fs0.
Proof.
  intros Hms.
  apply (valid_content_free _ _ "/data" "/out" "pre" "masks");
    [done | done | done | set_solver | set_solver | done].
Defined.

Lemma init_lmax_bound_example :
  ∃ m, fst (init Examples.config_AB Examples.fs0) = Ok m.
Proof.
  apply init_below; [by apply valid_content_example | done].
Defined.

Lemma init_lmax_bound_witness :
  valid_content Examples.config_AB Examples.fs0
  ∧ ∃ m, fst (init Examples.config_AB Examples.fs0) = Ok m.
Proof.
  assert (valid_content Examples.config_AB Examples.fs0) as Hvalid
    by (by apply valid_content_example).
  split; [done|].
  by apply (init_lmax_bound Examples.config_AB Examples.fs0 Hvalid).
Defined.

(** ** The map lists *)

Lemma map_name_neq (A B : string) (i j : Z) :
  String.length (pretty i) = String.length (pretty j) →
  A ≠ B ∨ i ≠ j → map_name A i ≠ map_name B j.
Proof.
  intros Hlen Hne Heq. unfold map_name in Heq.
  apply str_app_inj_len in Heq as [-> Heq].
  - apply (inj (String.app "__")) in Heq. apply (inj pretty) in Heq.
    destruct Hne; done.
  - by rewrite !str_length_app, Hlen.
Qed.

(** C7: for map sets [A] with two splits and [B] with three, in that
    order, [maps_list] has the five identifiers [A__0, A__1, B__0, B__1,
    B__2] in this order, all distinct, and [map_sets_list] is [A, B]. *)
Theorem maps_list_two_sets (c : Config) (fs : FS) (m : BBmeta)
    (A B : string) (a b : MapSet) :
  map_sets c = [(A, a); (B, b)] → A ≠ B →
  n_splits a = 2%Z → n_splits b = 3%Z →
  fst (init c fs) = Ok m →
  maps_list m = [A +:+ "__0"; A +:+ "__1"; B +:+ "__0"; B +:+ "__1"; B +:+ "__2"]
  ∧ length (maps_list m) = 5
  ∧ NoDup (maps_list m)
  ∧ map_sets_list m = [A; B].
Proof.
  intros Hms HAB Ha Hb Hinit.
  destruct (init c fs) as [r fs'] eqn:Hrun. simpl in Hinit. subst r.
  apply init_Ok in Hrun as (_ & Hsets & Hmaps & _).
  rewrite Hms in Hsets, Hmaps. simpl in Hmaps.
  unfold n_splits_from_map_set in Hmaps. simpl in Hmaps.
  destruct (decide (A = A)) as [_|?]; [|done].
  destruct (decide (B = A)) as [?|_]; [by subst|].
  destruct (decide (B = B)) as [_|?]; [|done]. simpl in Hmaps.
  rewrite Ha, Hb in Hmaps. injection Hmaps as Hmaps.
  assert (maps_list m = [map_name A 0; map_name A 1; map_name B 0;
                         map_name B 1; map_name B 2]) as Hlist by done.
  split_and!; [by rewrite Hlist | by rewrite Hlist | | done].
  rewrite Hlist. repeat (apply NoDup_cons; split); [..|apply NoDup_nil_2].
  all: rewrite ?elem_of_cons, elem_of_nil.
  all: intros Hin; repeat destruct Hin as [Hin|Hin]; try done.
  all: revert Hin; apply map_name_neq; [done | auto].
Qed.

Lemma maps_list_two_sets_witness :
  ∃ m, fst (init Examples.config_AB Examples.fs0) = Ok m
       ∧ maps_list m = ["A__0"; "A__1"; "B__0"; "B__1"; "B__2"]
       ∧ NoDup (maps_list m).
Proof.
  destruct init_lmax_bound_example as [m Hm]. exists m. split; [done|].
  destruct (maps_list_two_sets Examples.config_AB Examples.fs0 m "A" "B"
              Examples.set_A Examples.set_B) as (H1 & _ & H3 & _); done.
Defined.

(** ** [get_ps_names_list] *)

(** When the body of the double loop raises nothing, the function returns
    the pairs that the body keeps, in loop order. *)
Lemma get_ps_names_list_pure (m : BBmeta) (type : string) (coadd : bool)
    (keep : nat → string → nat → string → bool) :
  let L := if coadd then map_sets_list m else maps_list m in
  (∀ i a j b, (i, a) ∈ enumerate L → (j, b) ∈ enumerate L →
     ps_keep m type coadd i a j b = Ok (keep i a j b)) →
  get_ps_names_list m type coadd
  = Ok ('(i, a) ← enumerate L; '(j, b) ← enumerate L;
        if keep i a j b then [(a, b)] else []).
Proof.
  intros L Hkeep. unfold get_ps_names_list. fold L.
  rewrite (for_each_append _ _
    (λ '(i, a), '(j, b) ← enumerate L; if keep i a j b then [(a, b)] else [])).
  { done. }
  intros [i a] acc Hi.
  apply (for_each_append _ _ (λ '(j, b), if keep i a j b then [(a, b)] else [])).
  intros [j b] acc' Hj. rewrite (Hkeep i a j b Hi Hj). simpl.
  destruct (keep i a j b); [done | by rewrite app_nil_r].
Qed.

Lemma enumerate_lookup {A} (l : list A) (i : nat) (a : A) :
  (i, a) ∈ enumerate l ↔ l !! i = Some a.
Proof.
  unfold enumerate. rewrite elem_of_lookup_imap. split.
  - by intros (i' & a' & [= -> ->] & ?).
  - intros ?. by exists i, a.
Qed.

Lemma ps_keep_all_coadd (m : BBmeta) (i j : nat) (a b : string) :
  ps_keep m "all" true i a j b = Ok (bool_decide (i ≤ j)).
Proof.
  unfold ps_keep.
  rewrite (bool_decide_eq_false_2 ("all" = "cross")) by done.
  rewrite (bool_decide_eq_false_2 ("all" = "auto")) by done. simpl.
  destruct (bool_decide_reflect (j < i)).
  - by rewrite bool_decide_eq_false_2 by lia.
  - by rewrite bool_decide_eq_true_2 by lia.
Qed.

(** One row of the upper triangle: the entries from position [i] on. *)
Lemma upper_row {A} (a : A) (i k : nat) (l : list A) :
  ('(j, b) ← imap (λ j, pair (k + j)) l;
   if bool_decide (i ≤ j) then [(a, b)] else [])
  = pair a <$> drop (i - k) l.
Proof.
  revert k. induction l as [|x l IH]; intros k.
  - by rewrite drop_nil.
  - rewrite imap_cons. cbn [mbind list_bind].
    rewrite (imap_ext _ (λ j, pair (S k + j)))
      by (intros; unfold compose; f_equal; lia).
    rewrite IH. rewrite Nat.add_0_r.
    destruct (bool_decide_reflect (i ≤ k)).
    + replace (i - k) with 0 by lia. replace (i - S k) with 0 by lia. done.
    + replace (i - k) with (S (i - S k)) by lia. done.
Qed.

Lemma upper_rows {A} (pre l : list A) :
  ('(i, a) ← imap (λ i, pair (length pre + i)) l; pair a <$> drop i (pre ++ l))
  = Ref.upper_pairs l.
Proof.
  revert pre. induction l as [|x l IH]; intros pre; [done|].
  rewrite imap_cons. cbn [mbind list_bind Ref.upper_pairs].
  rewrite Nat.add_0_r, drop_app_length. f_equal.
  rewrite <- (IH (pre ++ [x])).
  rewrite (imap_ext _ (λ i, pair (length (pre ++ [x]) + i)))
    by (intros; unfold compose; rewrite length_app; simpl; f_equal; lia).
  by rewrite <- app_assoc.
Qed.

Lemma upper_pairs_length {A} (l : list A) :
  2 * length (Ref.upper_pairs l) = length l * (length l + 1).
Proof.
  induction l as [|a l IH]; [done|].
  cbn [Ref.upper_pairs]. rewrite length_app, !length_fmap. simpl. lia.
Qed.

Lemma upper_pairs_elem {A} (l : list A) (a b : A) :
  (a, b) ∈ Ref.upper_pairs l
  ↔ ∃ i j, i ≤ j ∧ l !! i = Some a ∧ l !! j = Some b.
Proof.
  induction l as [|x l IH].
  - split; [by intros ?%elem_of_nil | by intros (? & ? & ? & ? & ?)].
  - cbn [Ref.upper_pairs]. rewrite elem_of_app, list_elem_of_fmap, IH. split.
    + intros [(y & [= -> ->] & Hy)|(i & j & Hij & Hi & Hj)].
      * apply list_elem_of_lookup in Hy as [j Hj]. exists 0, j.
        split_and!; [lia | done | done].
      * exists (S i), (S j). split_and!; [lia | done | done].
    + intros ([|i] & j & Hij & Hi & Hj).
      * left. injection Hi as ->. exists b. split; [done|].
        by eapply list_elem_of_lookup_2.
      * right. destruct j as [|j]; [lia|]. exists i, j.
        split_and!; [lia | done | done].
Qed.

Lemma upper_pairs_fst_elem {A} (l : list A) (a b : A) :
  (a, b) ∈ Ref.upper_pairs l → a ∈ l.
Proof.
  rewrite upper_pairs_elem. intros (i & j & _ & Hi & _).
  by eapply list_elem_of_lookup_2.
Qed.

Lemma upper_pairs_NoDup {A} (l : list A) :
  NoDup l → NoDup (Ref.upper_pairs l).
Proof.
  induction 1 as [|a l Hnotin Hnodup IH]; [constructor|].
  cbn [Ref.upper_pairs]. apply NoDup_app. split_and!.
  - apply NoDup_fmap_2; [by intros ?? [= ->] | by constructor].
  - intros [a' b] (y & [= -> ->] & _)%list_elem_of_fmap Hin.
    by apply upper_pairs_fst_elem in Hin.
  - done.
Qed.

(** C4: with [type="all"] and [coadd=True] the function returns the upper
    triangle of the list of map sets: [n(n+1)/2] pairs, exactly the pairs
    [(entities[i], entities[j])] with [i <= j], in input order, and without
    a duplicate (the identifiers being the keys of a dict, hence distinct). *)
Theorem ps_names_all_coadd (m : BBmeta) :
  let L := map_sets_list m in
  ∃ l, get_ps_names_list m "all" true = Ok l
    ∧ l = Ref.upper_pairs L
    ∧ length l = length L * (length L + 1) / 2
    ∧ (∀ a b, (a, b) ∈ l ↔ ∃ i j, i ≤ j ∧ L !! i = Some a ∧ L !! j = Some b)
    ∧ (NoDup L → NoDup l).
Proof.
  intros L. exists (Ref.upper_pairs L).
  split_and!; [|done| |apply upper_pairs_elem|apply upper_pairs_NoDup].
  - rewrite (get_ps_names_list_pure m "all" true (λ i _ j _, bool_decide (i ≤ j)))
      by (intros; apply ps_keep_all_coadd).
    cbn [map_sets_list]. fold L. f_equal.
    rewrite <- (upper_rows [] L). unfold enumerate. simpl.
    apply list_bind_ext; [|done]. intros [i a].
    pose proof (upper_row a i 0 L) as Hrow. by rewrite Nat.sub_0_r in Hrow.
  - rewrite <- upper_pairs_length. by rewrite Nat.mul_comm, Nat.div_mul.
Qed.

Lemma init_fields (c : Config) (fs : FS) (m : BBmeta) :
  fst (init c fs) = Ok m →
  config m = c
  ∧ map_sets_list m = dict_keys (map_sets c)
  ∧ _get_map_list (map_sets c) (dict_keys (map_sets c)) = Ok (maps_list m).
Proof.
  destruct (init c fs) as [r fs'] eqn:Hrun. simpl. intros ->.
  apply init_Ok in Hrun as (? & ? & ? & _). done.
Qed.

Lemma init_example (ms : list (string * MapSet)) :
  ms ≠ [] → ∃ m, fst (init (Examples.config_of 256 767 ms) Examples.fs0) = Ok m.
Proof.
  intros Hms. apply init_below; [by apply valid_content_example | done].
Defined.

(** C1, on the code: for one map set with two splits and [coadd=False] the
    pair [(A__0, A__1)] is returned both for ["auto"] and for ["cross"]. *)
Theorem ps_names_auto_cross_overlap (fs : FS) (m : BBmeta) :
  fst (init Examples.config_A fs) = Ok m →
  get_ps_names_list m "auto" false
  = Ok [("A__0", "A__0"); ("A__0", "A__1"); ("A__1", "A__1")]
  ∧ get_ps_names_list m "cross" false = Ok [("A__0", "A__1")].
Proof.
  intros (Hc & _ & Hmaps)%init_fields.
  assert (_get_map_list (map_sets Examples.config_A)
            (dict_keys (map_sets Examples.config_A)) = Ok ["A__0"; "A__1"])
    as Heval by (by vm_compute).
  rewrite Heval in Hmaps. injection Hmaps as Hmaps.
  unfold get_ps_names_list, ps_keep. rewrite Hc, <- Hmaps. by vm_compute.
Qed.

Lemma ps_names_auto_cross_overlap_witness :
  ∃ m, fst (init Examples.config_A Examples.fs0) = Ok m
    ∧ get_ps_names_list m "cross" false = Ok [("A__0", "A__1")].
Proof.
  destruct (init_example [("A", Examples.set_A)]) as [m Hm]; [done|].
  exists m. split; [done|].
  by destruct (ps_names_auto_cross_overlap Examples.fs0 m Hm).
Defined.

(** ** Map identifiers and [split("__")] *)

Lemma pretty_N_char_plain (x : N) : pretty_N_char x ≠ "_"%char.
Proof. unfold pretty_N_char. by repeat case_match. Qed.

Lemma pretty_N_go_plain (x : N) (s : string) :
  has_underscore s = false → has_underscore (pretty_N_go x s) = false.
Proof.
  revert s. induction (N.lt_wf_0 x) as [x _ IH]; intros s Hs.
  destruct (decide (x = 0)%N) as [->|Hx]; [by rewrite pretty_N_go_0|].
  rewrite pretty_N_go_step by lia. apply IH; [apply N.div_lt; lia|].
  simpl. rewrite Hs. by rewrite bool_decide_eq_false_2 by apply pretty_N_char_plain.
Qed.

Lemma pretty_N_plain (x : N) : has_underscore (pretty x) = false.
Proof.
  unfold pretty, pretty_N. case_decide; [done | by apply pretty_N_go_plain].
Qed.

(** The decimal form of an integer has no underscore. *)
Lemma pretty_Z_plain (z : Z) : has_underscore (pretty z) = false.
Proof.
  destruct z as [|p|p]; [done | apply (pretty_N_plain (Npos p)) |].
  change (has_underscore (String "-" (pretty (Npos p))) = false).
  simpl. by rewrite (pretty_N_plain (Npos p)).
Qed.

Lemma split_dunder_go_plain (cur d : string) :
  has_underscore d = false → split_dunder_go cur d = [cur +:+ d].
Proof.
  revert cur. induction d as [|c d IH]; intros cur Hd.
  - by rewrite str_app_nil_r.
  - simpl in Hd. apply orb_false_elim in Hd as [Hc Hd].
    apply bool_decide_eq_false in Hc.
    cbn [split_dunder_go]. destruct d as [|c2 d2]; [done|].
    rewrite decide_False by (by intros [? _]).
    rewrite IH by done. by rewrite str_app_assoc.
Qed.

(** A plain name, two underscores and digits split into the name and the
    digits. *)
Lemma split_dunder_go_name (cur s d : string) :
  plain_name s = true → has_underscore d = false →
  split_dunder_go cur (s +:+ "__" +:+ d) = [cur +:+ s; d].
Proof.
  intros Hs Hd. revert cur Hs. induction s as [|c s IH]; intros cur Hs.
  - change ("" +:+ "__" +:+ d) with (String "_" (String "_" d)).
    cbn [split_dunder_go]. rewrite decide_True by done.
    by rewrite split_dunder_go_plain, str_app_nil_r.
  - cbn [plain_name] in Hs. apply andb_prop in Hs as [Hc Hs].
    rewrite str_app_cons. cbn [split_dunder_go].
    destruct s as [|c2 s2].
    + change ("" +:+ "__" +:+ d) with (String "_" (String "_" d)) in *.
      destruct (bool_decide_reflect (c = "_"%char)); [done|].
      rewrite decide_False by (by intros [? _]).
      rewrite (IH _ Hs). by rewrite str_app_assoc.
    + rewrite str_app_cons.
      rewrite decide_False.
      * rewrite <- str_app_cons, (IH _ Hs). by rewrite str_app_assoc.
      * intros [-> ->]. by rewrite bool_decide_eq_true_2 in Hc by done.
Qed.

Lemma split_map_name (s : string) (k : Z) :
  plain_name s = true →
  unpack2 (split_dunder (map_name s k)) = Ok (s, pretty k).
Proof.
  intros Hs. unfold split_dunder, map_name.
  by rewrite split_dunder_go_name by (done || apply pretty_Z_plain).
Qed.

(** ** [maps_list], split by split *)

Lemma _get_map_list_spec (ms sub : list (string * MapSet)) :
  dict_wf ms → sub ⊆ ms →
  _get_map_list ms (dict_keys sub)
  = Ok (uncurry map_name <$> Ref.split_index sub).
Proof.
  intros Hwf. unfold Ref.split_index.
  induction sub as [|[s a] sub IH]; intros Hsub; [done|].
  cbn [dict_keys fmap list_fmap fst _get_map_list].
  unfold n_splits_from_map_set.
  rewrite (dict_get_elem ms s a Hwf) by (apply Hsub; left).
  cbn [fmap result_fmap mbind result_bind].
  unfold dict_keys in IH. rewrite IH by (intros ??; apply Hsub; by right).
  cbn [mbind result_bind list_bind]. rewrite fmap_app. do 2 f_equal.
  rewrite <- list_fmap_compose. done.
Qed.

Lemma init_maps_list (c : Config) (fs : FS) (m : BBmeta) :
  dict_wf (map_sets c) → fst (init c fs) = Ok m →
  config m = c
  ∧ maps_list m = uncurry map_name <$> Ref.split_index (map_sets c).
Proof.
  intros Hwf (Hc & _ & Hmaps)%init_fields. split; [done|].
  rewrite _get_map_list_spec in Hmaps by done. by injection Hmaps.
Qed.

Lemma split_index_key (ms : list (string * MapSet)) (s : string) (k : Z) :
  (s, k) ∈ Ref.split_index ms → s ∈ dict_keys ms.
Proof.
  unfold Ref.split_index. rewrite list_elem_of_bind.
  intros ([s' a] & Hin & Hms).
  apply list_elem_of_fmap in Hin as (? & [= <- <-] & _).
  unfold dict_keys. apply list_elem_of_fmap. by exists (s, a).
Qed.

(** ** The double loop on individual maps *)

Lemma bind_ext_in {A B} (f g : A → list B) (l : list A) :
  (∀ x, x ∈ l → f x = g x) → l ≫= f = l ≫= g.
Proof.
  induction l as [|x l IH]; intros Hfg; [done|].
  cbn [mbind list_bind]. rewrite (Hfg x) by left.
  f_equal. apply IH. intros y ?. apply Hfg. by right.
Qed.

Lemma bind_imap_pair {A B} (f : A → list B) (k : nat) (l : list A) :
  imap (λ i, pair (k + i)) l ≫= (λ '(_, a), f a) = l ≫= f.
Proof.
  revert k. induction l as [|x l IH]; intros k; [done|].
  rewrite imap_cons. cbn [mbind list_bind]. f_equal.
  rewrite (imap_ext _ (λ i, pair (S k + i)))
    by (intros; unfold compose; f_equal; lia).
  apply IH.
Qed.

Lemma bind_enumerate {A B} (f : A → list B) (l : list A) :
  enumerate l ≫= (λ '(_, a), f a) = l ≫= f.
Proof. apply (bind_imap_pair f 0 l). Qed.

Lemma bind_fmap {A B C} (g : A → B) (f : B → list C) (l : list A) :
  (g <$> l) ≫= f = l ≫= (λ x, f (g x)).
Proof.
  induction l as [|x l IH]; [done|]. cbn [fmap list_fmap mbind list_bind].
  by f_equal.
Qed.


Lemma exp_tag_key (ms : list (string * MapSet)) (s : string) :
  s ∈ dict_keys ms → ∃ t, exp_tag_from_map_set ms s = Ok t.
Proof.
  intros (a & Ha & _)%dict_get_key. unfold exp_tag_from_map_set.
  rewrite Ha. by eexists.
Qed.

Lemma ps_keep_all_names (m : BBmeta) (i j : nat) (s1 s2 : string) (k1 k2 : Z) :
  plain_name s1 = true → plain_name s2 = true →
  s1 ∈ dict_keys (map_sets (config m)) → s2 ∈ dict_keys (map_sets (config m)) →
  ps_keep m "all" false i (map_name s1 k1) j (map_name s2 k2)
  = Ok (negb (bool_decide (s1 = s2) && str_gt (pretty k1) (pretty k2))).
Proof.
  intros Hp1 Hp2 [t1 Ht1]%exp_tag_key [t2 Ht2]%exp_tag_key. unfold ps_keep.
  rewrite !split_map_name by done. cbn [mbind result_bind].
  destruct (bool_decide (s1 = s2) && str_gt (pretty k1) (pretty k2)); [done|].
  rewrite Ht1, Ht2. cbn [mbind result_bind].
  rewrite (bool_decide_eq_false_2 ("all" = "cross")) by done.
  by rewrite (bool_decide_eq_false_2 ("all" = "auto")) by done.
Qed.

(** For a registry of plain names, the list returned with [type="all"] and
    [coadd=False]. *)
Lemma ps_names_all_maps (c : Config) (fs : FS) (m : BBmeta) :
  dict_wf (map_sets c) →
  Forall (λ s, plain_name s = true) (dict_keys (map_sets c)) →
  fst (init c fs) = Ok m →
  get_ps_names_list m "all" false = Ok (Ref.all_pairs_kept (map_sets c)).
Proof.
  intros Hwf Hplain Hinit.
  destruct (init_maps_list c fs m Hwf Hinit) as [Hc Hmaps].
  set (idx := Ref.split_index (map_sets c)) in *.
  assert (∀ s k, (s, k) ∈ idx →
            plain_name s = true ∧ s ∈ dict_keys (map_sets (config m))) as Hidx.
  { intros s k Hin%split_index_key. rewrite Hc. split; [|done].
    by eapply Forall_forall in Hplain. }
  rewrite (get_ps_names_list_pure m "all" false (λ _ a _ b,
    match unpack2 (split_dunder a), unpack2 (split_dunder b) with
    | Ok (s1, k1), Ok (s2, k2) => negb (bool_decide (s1 = s2) && str_gt k1 k2)
    | _, _ => true
    end)).
  - f_equal. cbn [maps_list]. rewrite Hmaps.
    rewrite (bind_enumerate (λ a, '(j, b) ← enumerate _; _)).
    rewrite bind_fmap. unfold Ref.all_pairs_kept. fold idx.
    apply bind_ext_in. intros [s1 k1] H1.
    rewrite (bind_enumerate (λ b, if _ : bool then _ else _)).
    rewrite bind_fmap. apply bind_ext_in. intros [s2 k2] H2.
    destruct (Hidx _ _ H1) as [Hp1 _], (Hidx _ _ H2) as [Hp2 _].
    cbn [uncurry fst snd]. rewrite !split_map_name by done.
    by destruct (bool_decide (s1 = s2) && str_gt (pretty k1) (pretty k2)).
  - intros i a j b Hi%enumerate_lookup%list_elem_of_lookup_2
      Hj%enumerate_lookup%list_elem_of_lookup_2.
    rewrite Hmaps in Hi, Hj.
    apply list_elem_of_fmap in Hi as ([s1 k1] & -> & H1).
    apply list_elem_of_fmap in Hj as ([s2 k2] & -> & H2).
    destruct (Hidx _ _ H1) as [Hp1 Hk1], (Hidx _ _ H2) as [Hp2 Hk2].
    cbn [uncurry]. rewrite ps_keep_all_names by done.
    by rewrite !split_map_name by done.
Qed.






(** ** ["auto"] against ["cross"] on map sets *)

Lemma elem_of_kept_pairs (L : list string)
    (keep : nat → string → nat → string → bool) (a b : string) :
  (a, b) ∈ ('(i, x) ← enumerate L; '(j, y) ← enumerate L;
            if keep i x j y then [(x, y)] else [])
  ↔ ∃ i j, L !! i = Some a ∧ L !! j = Some b ∧ keep i a j b = true.
Proof.
  rewrite list_elem_of_bind. split.
  - intros ([i x] & Hin & Hi%enumerate_lookup).
    apply list_elem_of_bind in Hin as ([j y] & Hin & Hj%enumerate_lookup).
    destruct (keep i x j y) eqn:Hk; [|by apply elem_of_nil in Hin].
    apply list_elem_of_singleton in Hin as [= -> ->]. by exists i, j.
  - intros (i & j & Hi & Hj & Hk). exists (i, a).
    split; [|by apply enumerate_lookup].
    apply list_elem_of_bind. exists (j, b).
    split; [|by apply enumerate_lookup]. rewrite Hk. by left.
Qed.

Lemma ps_keep_auto_coadd (m : BBmeta) (i j : nat) (a b : string) :
  ps_keep m "auto" true i a j b = Ok (bool_decide (i = j)).
Proof.
  unfold ps_keep.
  rewrite (bool_decide_eq_false_2 ("auto" = "cross")) by done.
  rewrite (bool_decide_eq_true_2 ("auto" = "auto")) by done. cbn [andb].
  destruct (bool_decide_reflect (j < i)).
  - by rewrite bool_decide_eq_false_2 by lia.
  - destruct (bool_decide_reflect (i = j)) as [->|Hne].
    + by rewrite bool_decide_eq_false_2 by (by intros ?).
    + by rewrite bool_decide_eq_true_2.
Qed.

Lemma ps_keep_cross_coadd (m : BBmeta) (i j : nat) (a b : string) :
  ps_keep m "cross" true i a j b = Ok (bool_decide (i < j)).
Proof.
  unfold ps_keep.
  rewrite (bool_decide_eq_true_2 ("cross" = "cross")) by done.
  rewrite (bool_decide_eq_false_2 ("cross" = "auto")) by done. cbn [andb].
  destruct (bool_decide_reflect (j < i)).
  - by rewrite bool_decide_eq_false_2 by lia.
  - destruct (bool_decide_reflect (i = j)) as [->|Hne].
    + by rewrite bool_decide_eq_false_2 by lia.
    + by rewrite bool_decide_eq_true_2 by lia.
Qed.

(** On map sets ([coadd=True]) the two modes do return disjoint lists: the
    one keeps the diagonal, the other what is strictly above it. *)
Lemma ps_names_coadd_disjoint (m : BBmeta) :
  NoDup (map_sets_list m) →
  ∃ la lc, get_ps_names_list m "auto" true = Ok la
    ∧ get_ps_names_list m "cross" true = Ok lc
    ∧ ∀ p, p ∈ la → p ∉ lc.
Proof.
  intros Hnodup. eexists _, _. split_and!.
  - apply (get_ps_names_list_pure m "auto" true (λ i _ j _, bool_decide (i = j))).
    intros. apply ps_keep_auto_coadd.
  - apply (get_ps_names_list_pure m "cross" true (λ i _ j _, bool_decide (i < j))).
    intros. apply ps_keep_cross_coadd.
  - intros [a b] (i & j & Hi & Hj & Hij%bool_decide_eq_true)%elem_of_kept_pairs
      (i' & j' & Hi' & Hj' & Hij'%bool_decide_eq_true)%elem_of_kept_pairs.
    subst j. assert (a = b) as -> by congruence.
    pose proof (NoDup_lookup _ _ _ _ Hnodup Hi' Hj'). lia.
Qed.

(** ** [get_map_filename] *)

Lemma init_attrs (c : Config) (fs : FS) (m : BBmeta) :
  fst (init c fs) = Ok m →
  ∃ a fs1, _set_directory_attributes c ∅ fs = (Ok a, fs1)
    ∧ attrs m = _init_tf_estimation_params (tf_settings c) a.
Proof.
  destruct (init c fs) as [r fs'] eqn:Hinit. simpl. intros ->.
  unfold init in Hinit.
  apply st_bind_Ok in Hinit as (a & fs1 & Hdirs & Hinit).
  exists a, fs1. split; [done|].
  repeat (apply st_bind_Ok in Hinit as (? & ? & ? & Hinit)).
  by injection Hinit as <- _.
Qed.

Lemma endswith_sep_app (a b : string) :
  b ≠ "" → endswith_sep (a +:+ b) = endswith_sep b.
Proof.
  intros Hb. induction a as [|c a IH]; [done|].
  rewrite str_app_cons. cbn [endswith_sep]. rewrite IH.
  destruct (a +:+ b) eqn:Hab; [|done].
  destruct a, b; done.
Qed.

Lemma startswith_sep_app (a b : string) :
  a ≠ "" → startswith_sep (a +:+ b) = startswith_sep a.
Proof. by destruct a. Qed.

(** [os.path.join] on a directory that is not empty and does not end with
    a separator, and a name that does not start with one. *)
Lemma path_join_plain (a b : string) :
  a ≠ "" → endswith_sep a = false → startswith_sep b = false →
  path_join a b = a +:+ "/" +:+ b.
Proof.
  intros Ha Hend Hstart. unfold path_join. rewrite Hstart, Hend.
  by rewrite bool_decide_eq_false_2.
Qed.

Lemma mkdir_chain_created (ds : list string) (fs fs' : FS) :
  mkdir_chain ds fs = (Ok (), fs') → ∀ d, d ∈ ds → d ∈ dirs fs'.
Proof.
  revert fs. induction ds as [|d0 ds IH]; intros fs Hrun d Hd.
  - by apply elem_of_nil in Hd.
  - cbn [mkdir_chain] in Hrun. case_decide; [done|].
    apply elem_of_cons in Hd as [->|Hd]; [|by eapply IH].
    apply mkdir_chain_mono in Hrun as [_ Hsub]. simpl in Hsub. set_solver.
Qed.

(** What [get_map_filename] does for a simulation, in terms of
    [os.path.join] and [os.makedirs]. *)
Lemma get_map_filename_sim_unfold (m : BBmeta) (map_set : string) (ms : MapSet)
    (id_split n : Z) (sims : string) (fs : FS) :
  dict_get (map_sets (config m)) map_set = Ok ms →
  attrs m !! "sims_directory" = Some sims →
  get_map_filename m map_set id_split (Some n) fs
  = let p := path_join sims (format_04d n) in
    match makedirs p fs with
    | (Ok _, fs') =>
        (Ok (path_join p (file_root ms +:+ "_split_" +:+ pretty id_split
                          +:+ ".fits")), fs')
    | (Raise e, fs') => (Raise e, fs')
    end.
Proof.
  intros Hms Hsims. unfold get_map_filename, file_root_from_map_set, getattr.
  rewrite Hms, Hsims. unfold mbind, st_bind, lift. cbn [fmap result_fmap].
  by destruct (makedirs _ fs) as [[[]|e] fs'].
Qed.

(** A second call with the same arguments gives the same outcome and leaves
    the file system as the first call left it. *)
Lemma get_map_filename_idem (m : BBmeta) (map_set : string) (id_split : Z)
    (id_sim : option Z) (fs fs' : FS) (r : result string) :
  get_map_filename m map_set id_split id_sim fs = (r, fs') →
  get_map_filename m map_set id_split id_sim fs' = (r, fs').
Proof.
  unfold get_map_filename, mbind, st_bind, lift.
  destruct (file_root_from_map_set _ map_set) as [root|e];
    [|by intros [= <- <-]].
  destruct id_sim as [n|].
  - destruct (getattr (attrs m) "sims_directory") as [sims|e];
      [|by intros [= <- <-]].
    destruct (makedirs _ fs) as [[[]|e] fs1] eqn:Hmk.
    + intros [= <- <-]. unfold makedirs in *.
      by rewrite (mkdir_chain_idem _ _ _ _ Hmk).
    + intros [= <- <-]. unfold makedirs in *.
      by rewrite (mkdir_chain_idem _ _ _ _ Hmk).
  - destruct (getattr (attrs m) "map_directory") as [d|e]; by intros [= <- <-].
Qed.

Lemma get_map_filename_sim7_plain (m : BBmeta) (map_set : string) (ms : MapSet)
    (id_split : Z) (sims : string) (fs : FS) :
  dict_get (map_sets (config m)) map_set = Ok ms →
  attrs m !! "sims_directory" = Some sims →
  sims ≠ "" → endswith_sep sims = false →
  startswith_sep (file_root ms) = false →
  (∀ d, d ∈ ancestors (sims +:+ "/0007") ++ [sims +:+ "/0007"] → d ∉ files fs) →
  let path := sims +:+ "/0007/" +:+ file_root ms +:+ "_split_"
              +:+ pretty id_split +:+ ".fits" in
  ∃ fs', get_map_filename m map_set id_split (Some 7%Z) fs = (Ok path, fs')
    ∧ sims +:+ "/0007" ∈ dirs fs'
    ∧ dirs fs ⊆ dirs fs' ∧ files fs' = files fs
    ∧ get_map_filename m map_set id_split (Some 7%Z) fs' = (Ok path, fs').
Proof.
  intros Hms Hsims Hne Hend Hroot Hfree path.
  pose proof (get_map_filename_sim_unfold m map_set ms id_split 7 sims fs
                Hms Hsims) as Hrun.
  change (format_04d 7) with "0007" in Hrun. cbn zeta in Hrun.
  rewrite (path_join_plain sims "0007") in Hrun by done.
  change (sims +:+ "/" +:+ "0007") with (sims +:+ "/0007") in Hrun.
  unfold makedirs in Hrun.
  pose proof (mkdir_chain_free _ fs Hfree) as Hmk. rewrite Hmk in Hrun.
  rewrite path_join_plain in Hrun.
  - assert ((sims +:+ "/0007") +:+ "/" +:+ file_root ms +:+ "_split_"
            +:+ pretty id_split +:+ ".fits" = path) as Hpath
      by (by rewrite str_app_assoc).
    rewrite Hpath in Hrun. eexists. split_and!; [exact Hrun|..].
    + eapply mkdir_chain_created; [exact Hmk|]. apply elem_of_app. right. by left.
    + simpl. set_solver.
    + done.
    + by apply (get_map_filename_idem _ _ _ _ fs).
  - by destruct sims.
  - by rewrite endswith_sep_app.
  - destruct (file_root ms) as [|c r] eqn:Hr; [done|].
    by rewrite startswith_sep_app.
Qed.

(** C9, as the code has it: for simulation index 7 the function, when
    it returns, returns [os.path.join(sims_directory, "0007", name)] with
    [name] the file name [{file_root}_split_{id_split}.fits], the directory
    [os.path.join(sims_directory, "0007")] exists afterwards, and a second
    call with the same arguments has the same outcome and changes nothing.
    When [sims_directory] is not empty and does not end with a separator,
    the file root does not start with one, and no regular file is in the
    way, the function returns, and the path is
    [{sims_directory}/0007/{file_root}_split_{id_split}.fits]. *)
Theorem get_map_filename_sim7 (m : BBmeta) (map_set : string) (ms : MapSet)
    (id_split : Z) (sims : string) (fs : FS) :
  dict_get (map_sets (config m)) map_set = Ok ms →
  attrs m !! "sims_directory" = Some sims →
  let dir := path_join sims "0007" in
  let name := file_root ms +:+ "_split_" +:+ pretty id_split +:+ ".fits" in
  (∀ r fs', get_map_filename m map_set id_split (Some 7%Z) fs = (r, fs') →
     get_map_filename m map_set id_split (Some 7%Z) fs' = (r, fs')
     ∧ ∀ p, r = Ok p → p = path_join dir name ∧ dir ∈ dirs fs')
  ∧ (sims ≠ "" → endswith_sep sims = false →
     startswith_sep (file_root ms) = false →
     (∀ d, d ∈ ancestors (sims +:+ "/0007") ++ [sims +:+ "/0007"] →
        d ∉ files fs) →
     ∃ fs', get_map_filename m map_set id_split (Some 7%Z) fs
            = (Ok (sims +:+ "/0007/" +:+ name), fs')
       ∧ sims +:+ "/0007" ∈ dirs fs'
       ∧ dirs fs ⊆ dirs fs' ∧ files fs' = files fs
       ∧ get_map_filename m map_set id_split (Some 7%Z) fs'
         = (Ok (sims +:+ "/0007/" +:+ name), fs')).
Proof.
  intros Hms Hsims dir name. split.
  - intros r fs' Hrun. split; [by apply (get_map_filename_idem _ _ _ _ fs)|].
    intros p ->.
    rewrite (get_map_filename_sim_unfold m map_set ms id_split 7 sims fs
               Hms Hsims) in Hrun.
    change (format_04d 7) with "0007" in Hrun. cbn zeta in Hrun. fold dir in Hrun.
    destruct (makedirs dir fs) as [[[]|e] fs1] eqn:Hmk; [|done].
    injection Hrun as <- <-. split; [done|].
    eapply mkdir_chain_created; [exact Hmk|]. apply elem_of_app. right. by left.
  - intros Hne Hend Hroot Hfree.
    by apply (get_map_filename_sim7_plain m map_set ms id_split sims fs).
Qed.

Lemma init_example_attrs (ms : list (string * MapSet)) (m : BBmeta) :
  fst (init (Examples.config_of 256 767 ms) Examples.fs0) = Ok m →
  map_sets (config m) = ms
  ∧ attrs m !! "sims_directory" = Some "/out/sims"
  ∧ attrs m !! "map_directory" = Some "/data/maps".
Proof.
  intros Hinit. destruct (init_fields _ _ _ Hinit) as (-> & _).
  destruct (init_attrs _ _ _ Hinit) as (a & fs1 & Hdirs & ->).
  split; [done|]. cbn [tf_settings Examples.config_of _init_tf_estimation_params].
  assert (match fst (_set_directory_attributes
                       (Examples.config_of 256 767 ms) ∅ Examples.fs0) with
          | Ok a => (a !! "sims_directory", a !! "map_directory")
          | Raise _ => (None, None)
          end = (Some "/out/sims", Some "/data/maps")) as Heval
    by (by vm_compute).
  rewrite Hdirs in Heval. by injection Heval as -> ->.
Defined.

Lemma get_map_filename_sim7_witness :
  ∃ m fs', fst (init Examples.config_AB Examples.fs0) = Ok m
    ∧ get_map_filename m "A" 1 (Some 7%Z) Examples.fs0
      = (Ok "/out/sims/0007/a_split_1.fits", fs')
    ∧ "/out/sims/0007" ∈ dirs fs'.
Proof.
  destruct (init_example [("A", Examples.set_A); ("B", Examples.set_B)])
    as [m Hm]; [done|].
  destruct (init_example_attrs _ m Hm) as (Hms & Hsims & _).
  destruct (get_map_filename_sim7 m "A" Examples.set_A 1 "/out/sims" Examples.fs0)
    as [_ Hplain]; [by rewrite Hms | done |].
  destruct Hplain as (fs' & Hrun & Hdir & _); [done | done | done | |].
  - intros d _. apply not_elem_of_empty.
  - by exists m, fs'.
Defined.

(** C9, as stated, fails for a map set whose file root is an absolute path:
    [os.path.join] then drops the simulation directory, and the path that
    is returned has no [0007] component. *)
Lemma get_map_filename_absolute_root :
  ∃ m, fst (init Examples.config_abs Examples.fs0) = Ok m
    ∧ attrs m !! "sims_directory" = Some "/out/sims"
    ∧ file_root_from_map_set (map_sets (config m)) "A" = Ok "/x"
    ∧ fst (get_map_filename m "A" 0 (Some 7%Z) Examples.fs0)
      = Ok "/x_split_0.fits"
    ∧ fst (get_map_filename m "A" 0 (Some 7%Z) Examples.fs0)
      ≠ Ok ("/out/sims" +:+ "/0007/" +:+ "/x" +:+ "_split_" +:+ pretty 0%Z
            +:+ ".fits").
Proof.
  destruct (init_example [("A", Examples.set_abs)]) as [m Hm]; [done|].
  destruct (init_example_attrs _ m Hm) as (Hms & Hsims & _).
  assert (fst (get_map_filename m "A" 0 (Some 7%Z) Examples.fs0)
          = Ok "/x_split_0.fits") as Hrun.
  { rewrite (get_map_filename_sim_unfold m "A" Examples.set_abs 0 7 "/out/sims")
      by (by rewrite ?Hms).
    cbn zeta. unfold makedirs.
    rewrite mkdir_chain_free by (intros d _; apply not_elem_of_empty).
    by vm_compute. }
  exists m. split_and!; [done | done | by rewrite Hms | done |].
  rewrite Hrun. by vm_compute.
Qed.

(** ** [cl_pair_iter] *)

Lemma cl_pair_row_spec (i : nat) (js : list nat) (icl : nat) :
  cl_pair_row i js icl
  = (imap (λ k j, (icl + k, i, j)) js, icl + length js).
Proof.
  revert icl. induction js as [|j js IH]; intros icl.
  - simpl. f_equal. lia.
  - cbn [cl_pair_row]. rewrite IH. rewrite imap_cons. simpl. f_equal.
    + f_equal; [f_equal; f_equal; lia|].
      apply imap_ext. intros. unfold compose. do 2 f_equal. lia.
    + lia.
Qed.

Lemma cl_pair_rows_spec (range_i : list nat) (nmaps icl : nat) :
  cl_pair_rows range_i nmaps icl
  = imap (λ k p, (icl + k, p.1, p.2))
         (i ← range_i; pair i <$> seq i (nmaps - i)).
Proof.
  revert icl. induction range_i as [|i range_i IH]; intros icl; [done|].
  cbn [cl_pair_rows mbind list_bind]. rewrite cl_pair_row_spec, IH.
  rewrite imap_app, imap_fmap, length_fmap. f_equal.
  apply imap_ext. intros. f_equal. f_equal. lia.
Qed.

(** The generator numbers the row-major index pairs from zero. *)
Lemma cl_pair_iter_enum (n : nat) :
  cl_pair_iter n = imap (λ k p, (k, p.1, p.2)) (Ref.index_pairs n).
Proof. unfold cl_pair_iter. by rewrite cl_pair_rows_spec. Qed.

Lemma index_rows_length (n i0 m : nat) :
  i0 + m = n →
  2 * length (i ← seq i0 m; pair i <$> seq i (n - i)) = m * (m + 1).
Proof.
  revert i0. induction m as [|m IH]; intros i0 Hn; [done|].
  cbn [seq mbind list_bind]. rewrite length_app, length_fmap, length_seq.
  specialize (IH (S i0)). lia.
Qed.

Lemma index_pairs_length (n : nat) :
  length (Ref.index_pairs n) = n * (n + 1) / 2.
Proof.
  pose proof (index_rows_length n 0 n eq_refl) as Hlen.
  unfold Ref.index_pairs. rewrite <- Hlen. by rewrite Nat.mul_comm, Nat.div_mul.
Qed.

Lemma index_pairs_elem (n i j : nat) :
  (i, j) ∈ Ref.index_pairs n ↔ i ≤ j < n.
Proof.
  unfold Ref.index_pairs. rewrite list_elem_of_bind. split.
  - intros (i' & Hin & Hi'%elem_of_seq).
    apply list_elem_of_fmap in Hin as (j' & [= -> ->] & Hj'%elem_of_seq). lia.
  - intros Hij. exists i. split; [|apply elem_of_seq; lia].
    apply list_elem_of_fmap. exists j. split; [done | apply elem_of_seq; lia].
Qed.

Lemma cl_pair_iter_lookup (n icl i j : nat) :
  (icl, i, j) ∈ cl_pair_iter n ↔ cl_pair_iter n !! icl = Some (icl, i, j).
Proof.
  rewrite cl_pair_iter_enum. split.
  - intros (k & [i' j'] & [= -> -> ->] & Hk)%elem_of_lookup_imap.
    by rewrite list_lookup_imap, Hk.
  - apply list_elem_of_lookup_2.
Qed.

(** ** Loops that collect *)

Lemma for_each_collect {A B} (f : A → result B)
    (body : A → list B → result (list B)) (l : list A) (acc res : list B) :
  (∀ x acc', body x acc' = (y ← f x; Ok (acc' ++ [y]))) →
  for_each l body acc = Ok res →
  ∃ ys, res = acc ++ ys ∧ Forall2 (λ x y, f x = Ok y) l ys.
Proof.
  intros Hbody. revert acc. induction l as [|x l IH]; intros acc Hrun.
  - injection Hrun as <-. exists []. by rewrite app_nil_r.
  - cbn [for_each] in Hrun. rewrite Hbody in Hrun.
    destruct (f x) as [y|e] eqn:Hfx; [|done]. cbn [mbind result_bind] in Hrun.
    apply IH in Hrun as (ys & -> & Hys). exists (y :: ys).
    split; [by rewrite <- app_assoc | by constructor].
Qed.

Lemma for_each_collect_total {A B} (f : A → result B)
    (body : A → list B → result (list B)) (l : list A) (acc : list B) :
  (∀ x acc', body x acc' = (y ← f x; Ok (acc' ++ [y]))) →
  (∀ x, x ∈ l → ∃ y, f x = Ok y) →
  ∃ res, for_each l body acc = Ok res.
Proof.
  intros Hbody. revert acc. induction l as [|x l IH]; intros acc Hf.
  - by eexists.
  - cbn [for_each]. rewrite Hbody. destruct (Hf x) as [y Hy]; [left|].
    rewrite Hy. cbn [mbind result_bind]. apply IH. intros ??. apply Hf. by right.
Qed.

(** A loop whose rounds each append a block to a part [g] of the state. *)
Lemma for_each_blocks {A S B} (g : S → list B) (P : A → list B → Prop)
    (body : A → S → result S) (l : list A) (s s' : S) :
  (∀ x s0 s1, x ∈ l → body x s0 = Ok s1 → ∃ blk, g s1 = g s0 ++ blk ∧ P x blk) →
  for_each l body s = Ok s' →
  ∃ blocks, g s' = g s ++ concat blocks ∧ Forall2 P l blocks.
Proof.
  revert s. induction l as [|x l IH]; intros s Hbody Hrun.
  - injection Hrun as <-. exists []. by rewrite app_nil_r.
  - cbn [for_each] in Hrun. destruct (body x s) as [s1|e] eqn:Hx; [|done].
    cbn [mbind result_bind] in Hrun.
    destruct (Hbody x s s1) as (blk & Hg & HP); [left | done |].
    apply IH in Hrun as (blocks & Hg' & Hblocks);
      [|intros; eapply Hbody; [by right | done]].
    exists (blk :: blocks). split; [|by constructor].
    rewrite Hg', Hg. simpl. by rewrite <- app_assoc.
Qed.

Lemma for_each_inv {A S} (I : S → Prop) (body : A → S → result S)
    (l : list A) (s s' : S) :
  (∀ x s0 s1, body x s0 = Ok s1 → I s0 → I s1) →
  I s → for_each l body s = Ok s' → I s'.
Proof.
  intros Hbody. revert s. induction l as [|x l IH]; intros s Hs Hrun.
  - by injection Hrun as <-.
  - cbn [for_each] in Hrun. destruct (body x s) as [s1|e] eqn:Hx; [|done].
    eapply IH; [|exact Hrun]. by eapply Hbody.
Qed.

(** ** [get_pcls] *)

Lemma list_get_Ok {A} (l : list A) (i : nat) (a : A) :
  list_get l i = Ok a ↔ l !! i = Some a.
Proof.
  unfold list_get. destruct (l !! i); split; intros [=]; by subst.
Qed.

Lemma pair_types_be (i j : nat) : "cl_be" ∈ Ref.pair_types i j ↔ i ≠ j.
Proof.
  unfold Ref.pair_types. case_decide; split; try done.
  - intros Hin. apply list_elem_of_In in Hin. simpl in Hin.
    by repeat destruct Hin as [?|Hin].
  - intros _. set_solver.
Qed.

Section PclFacts.
Context {R : Type} `{Arith R} `{Collab R}.

Lemma read_fields_Ok (fnames : list string) (msk : mask) (acc fields : list field)
    (tr tr' : list (event R)) :
  read_fields fnames msk acc tr = (Ok fields, tr') →
  length fields = length acc + length fnames
  ∧ tr' = tr ++ Ref.read_events fnames.
Proof.
  unfold Ref.read_events.
  revert acc tr. induction fnames as [|f fnames IH]; intros acc tr Hrun.
  - injection Hrun as <- <-. simpl. split; [lia | by rewrite app_nil_r].
  - cbn [read_fields] in Hrun. unfold mbind, st_bind, emit, lift in Hrun.
    destruct (hp_read_map f) as [[mpQ mpU]|e]; [|done].
    apply IH in Hrun as [-> ->]. rewrite length_app. simpl. split; [lia|].
    by rewrite <- !app_assoc.
Qed.

Lemma tracers_foldl (names : list string) (s : Sacc R) :
  tracers (foldl (λ s n, add_tracer s "Misc" n) s names)
  = tracers s ++ (pair "Misc" <$> names)
  ∧ ell_cls (foldl (λ s n, add_tracer s "Misc" n) s names) = ell_cls s.
Proof.
  revert s. induction names as [|n names IH]; intros s; simpl.
  - by rewrite app_nil_r.
  - destruct (IH (add_tracer s "Misc" n)) as [-> ->]. simpl.
    by rewrite <- app_assoc.
Qed.

(** One round of the "Save to sacc" loop. *)
Lemma save_pair_Ok (names : list string) (leff : ndarray R)
    (cls : list (ndarray R)) (icl i j : nat) (s s' : Sacc R) :
  save_pair names leff cls icl i j s = Ok s' →
  tracers s' = tracers s
  ∧ ∃ pcl blk, cls !! icl = Some pcl
      ∧ ell_cls s' = ell_cls s ++ blk
      ∧ Ref.pair_block names leff pcl i j blk.
Proof.
  unfold save_pair. intros Hrun.
  apply result_bind_Ok in Hrun as (ni & Hni%list_get_Ok & Hrun).
  apply result_bind_Ok in Hrun as (nj & Hnj%list_get_Ok & Hrun).
  apply result_bind_Ok in Hrun as (c & Hc%list_get_Ok & Hrun).
  apply result_bind_Ok in Hrun as (ee & Hee & Hrun).
  apply result_bind_Ok in Hrun as (eb & Heb & Hrun).
  apply result_bind_Ok in Hrun as (s1 & Hs1 & Hrun).
  apply result_bind_Ok in Hrun as (bb & Hbb & Hrun).
  injection Hrun as <-. unfold Ref.pair_block, Ref.pair_types.
  destruct (decide (i ≠ j)) as [Hne|Heq].
  - apply result_bind_Ok in Hs1 as (be & Hbe & Hs1). injection Hs1 as <-.
    split; [done|]. exists c. eexists. split; [done|]. simpl.
    split; [by rewrite <- !app_assoc|].
    rewrite decide_False by done. split; [done|].
    repeat constructor; done.
  - injection Hs1 as <-. split; [done|]. exists c. eexists. split; [done|].
    simpl. split; [by rewrite <- !app_assoc|].
    rewrite decide_True by (by destruct (decide (i = j))). split; [done|].
    repeat constructor; done.
Qed.

(** The spectra that the "Compute" loop collects, by position. *)
Lemma compute_cls_Ok (binning : NmtBin R) (winv : option (ndarray R))
    (fields : list field) (cls : list (ndarray R)) :
  compute_cls binning winv fields = Ok cls →
  Forall2 (λ t pcl, spectrum binning winv fields t.1.2 t.2 = Ok pcl)
          (cl_pair_iter (length fields)) cls.
Proof.
  unfold compute_cls. intros Hrun.
  apply (for_each_collect (λ t, spectrum binning winv fields t.1.2 t.2)) in Hrun
    as (ys & -> & Hys); [done|]. by intros [[icl i] j] acc.
Qed.

Lemma compute_cls_lookup (binning : NmtBin R) (winv : option (ndarray R))
    (fields : list field) (cls : list (ndarray R)) (icl i j : nat) :
  compute_cls binning winv fields = Ok cls →
  (icl, i, j) ∈ cl_pair_iter (length fields) →
  ∃ pcl, spectrum binning winv fields i j = Ok pcl ∧ cls !! icl = Some pcl.
Proof.
  intros Hcls%compute_cls_Ok Hin%cl_pair_iter_lookup.
  destruct (Forall2_lookup_l _ _ _ _ _ Hcls Hin) as (pcl & Hpcl & Hspec).
  by exists pcl.
Qed.

(** The steps of a call that returns. *)
Lemma get_pcls_Ok (fnames names : list string) (fname_out : string)
    (msk : mask) (binning : NmtBin R) (winv : option (ndarray R))
    (tr tr' : list (event R)) :
  get_pcls fnames names fname_out msk binning winv tr = (Ok (), tr') →
  ∃ w2 fields cls s,
    check_winv binning winv = Ok w2
    ∧ length fields = length fnames
    ∧ compute_cls binning w2 fields = Ok cls
    ∧ save_cls names (get_effective_ells binning) cls (length fields) = Ok s
    ∧ tr' = tr ++ Ref.read_events fnames ++ [EvSaveFits fname_out s].
Proof.
  unfold get_pcls. intros Hrun.
  apply st_bind_Ok in Hrun as (w2 & tr0 & [Hw ->]%st_lift_Ok & Hrun).
  apply st_bind_Ok in Hrun as (fields & tr1 & [Hlen ->]%read_fields_Ok & Hrun).
  apply st_bind_Ok in Hrun as (cls & tr2 & [Hcls ->]%st_lift_Ok & Hrun).
  apply st_bind_Ok in Hrun as (s & tr3 & [Hs ->]%st_lift_Ok & Hrun).
  unfold emit in Hrun. injection Hrun as <-.
  exists w2, fields, cls, s. split_and!; [done | done | done | done |].
  by rewrite <- app_assoc.
Qed.

(** C3: a non-None [winv] whose shape is not [(4, nbands, 4, nbands)] makes
    [get_pcls] raise the shape error at once: no map is read, no field
    built, nothing saved. The shape [(4, nbands-1, 4, nbands-1)] is one
    such. *)
Theorem get_pcls_shape_error (fnames names : list string) (fname_out : string)
    (msk : mask) (binning : NmtBin R) (w : ndarray R) (tr : list (event R)) :
  let nb := get_n_bands binning in
  let err := ValueError "Incompatible binning scheme and binned MCM." in
  (shape w ≠ [4; nb; 4; nb] →
     get_pcls fnames names fname_out msk binning (Some w) tr = (Raise err, tr))
  ∧ (0 < nb → shape w = [4; nb - 1; 4; nb - 1] →
     get_pcls fnames names fname_out msk binning (Some w) tr = (Raise err, tr)).
Proof.
  intros nb err.
  assert (shape w ≠ [4; nb; 4; nb] →
          get_pcls fnames names fname_out msk binning (Some w) tr
          = (Raise err, tr)) as Hgen.
  { intros Hshape. unfold get_pcls, mbind, st_bind, lift, check_winv.
    fold nb. by rewrite decide_True. }
  split; [done|]. intros Hnb Hshape. apply Hgen. rewrite Hshape.
  intros [= Heq]. lia.
Qed.

(** C8: when [get_pcls] returns, the last thing it did is to save, to
    [fname_out], a sacc object with one tracer per name and, for each
    triple [(icl, i, j)] of [cl_pair_iter] in order, one block of records:
    [cl_ee], [cl_eb], [cl_bb], and [cl_be] between the last two if and
    only if [i ≠ j] (three records on the diagonal, four off it), each
    with the effective multipoles of the binning, the names [names[i]] and
    [names[j]], and the matching row of the spectrum at position [icl]. *)
Theorem get_pcls_records (fnames names : list string) (fname_out : string)
    (msk : mask) (binning : NmtBin R) (winv : option (ndarray R))
    (tr tr' : list (event R)) :
  get_pcls fnames names fname_out msk binning winv tr = (Ok (), tr') →
  ∃ (s : Sacc R) (blocks : list (list (EllCl R))) (cls : list (ndarray R)),
    tr' = tr ++ Ref.read_events fnames ++ [EvSaveFits fname_out s]
    ∧ tracers s = pair "Misc" <$> names
    ∧ ell_cls s = concat blocks
    ∧ Forall2 (λ t blk,
         (∃ pcl, cls !! t.1.1 = Some pcl
            ∧ Ref.pair_block names (get_effective_ells binning) pcl t.1.2 t.2 blk)
         ∧ length blk = (if decide (t.1.2 = t.2) then 3 else 4)
         ∧ ("cl_be" ∈ data_type <$> blk ↔ t.1.2 ≠ t.2))
       (cl_pair_iter (length fnames)) blocks.
Proof.
  intros (w2 & fields & cls & s & _ & Hlen & _ & Hsave & ->)%get_pcls_Ok.
  unfold save_cls in Hsave.
  destruct (tracers_foldl names {| tracers := []; ell_cls := [] |}) as [Ht He].
  set (s0 := foldl _ _ names) in *. simpl in Ht, He.
  assert (tracers s = tracers s0) as Htr.
  { eapply (for_each_inv (λ s, tracers s = tracers s0)); [|done|exact Hsave].
    intros [[icl i] j] s1 s2 [Hs2 _]%save_pair_Ok Hs1. congruence. }
  apply (for_each_blocks ell_cls (λ t blk,
           (∃ pcl, cls !! t.1.1 = Some pcl
              ∧ Ref.pair_block names (get_effective_ells binning) pcl t.1.2 t.2 blk)
           ∧ length blk = (if decide (t.1.2 = t.2) then 3 else 4)
           ∧ ("cl_be" ∈ data_type <$> blk ↔ t.1.2 ≠ t.2))) in Hsave
    as (blocks & Hblocks & Hall).
  - exists s, blocks, cls. rewrite He in Hblocks. rewrite <- Hlen.
    split_and!; [done | congruence | done | done].
  - intros [[icl i] j] s1 s2 _ (_ & pcl & blk & Hpcl & Hell & Hblk)%save_pair_Ok.
    exists blk. split; [done|]. cbn [fst snd]. split_and!.
    + by exists pcl.
    + destruct Hblk as [Htypes _]. apply (f_equal length) in Htypes.
      rewrite length_fmap in Htypes. rewrite Htypes. unfold Ref.pair_types.
      by case_decide.
    + destruct Hblk as [-> _]. apply pair_types_be.
Qed.

Lemma index_pairs_NoDup (n : nat) : NoDup (Ref.index_pairs n).
Proof.
  unfold Ref.index_pairs. apply NoDup_bind; [| |apply NoDup_seq].
  - intros i1 i2 [i j] _ _ (? & [= -> ->] & _)%list_elem_of_fmap
      (? & [= -> ->] & _)%list_elem_of_fmap. done.
  - intros i _. apply NoDup_fmap_2; [by intros ?? [= ->] | apply NoDup_seq].
Qed.

(** The fields of the "Read maps" loop, file by file. *)
Lemma read_fields_built (fnames : list string) (msk : mask)
    (acc fields : list field) (tr tr' : list (event R)) :
  read_fields fnames msk acc tr = (Ok fields, tr') →
  ∃ new, fields = acc ++ new
    ∧ Forall2 (λ f fld, ∃ mpQ mpU, hp_read_map f = Ok (mpQ, mpU)
                                   ∧ fld = NmtField msk mpQ mpU) fnames new.
Proof.
  revert acc tr. induction fnames as [|f fnames IH]; intros acc tr Hrun.
  - injection Hrun as <- <-. exists []. by rewrite app_nil_r.
  - cbn [read_fields] in Hrun. unfold mbind, st_bind, emit, lift in Hrun.
    destruct (hp_read_map f) as [[mpQ mpU]|e] eqn:Hf; [|done].
    apply IH in Hrun as (new & -> & Hnew).
    exists (NmtField msk mpQ mpU :: new). split; [by rewrite <- app_assoc|].
    constructor; [by exists mpQ, mpU | done].
Qed.

(** The steps of a call that returns, with the fields as they are built. *)
Lemma get_pcls_steps (fnames names : list string) (fname_out : string)
    (msk : mask) (binning : NmtBin R) (winv : option (ndarray R))
    (tr tr' : list (event R)) :
  get_pcls fnames names fname_out msk binning winv tr = (Ok (), tr') →
  ∃ w2 fields cls s,
    check_winv binning winv = Ok w2
    ∧ Forall2 (λ f fld, ∃ mpQ mpU, hp_read_map f = Ok (mpQ, mpU)
                                   ∧ fld = NmtField msk mpQ mpU) fnames fields
    ∧ compute_cls binning w2 fields = Ok cls
    ∧ save_cls names (get_effective_ells binning) cls (length fields) = Ok s
    ∧ tr' = tr ++ Ref.read_events fnames ++ [EvSaveFits fname_out s].
Proof.
  unfold get_pcls. intros Hrun.
  apply st_bind_Ok in Hrun as (w2 & tr0 & [Hw ->]%st_lift_Ok & Hrun).
  apply st_bind_Ok in Hrun as (fields & tr1 & Hread & Hrun).
  destruct (read_fields_built _ _ _ _ _ _ Hread) as (new & -> & Hbuilt).
  apply read_fields_Ok in Hread as [_ ->].
  apply st_bind_Ok in Hrun as (cls & tr2 & [Hcls ->]%st_lift_Ok & Hrun).
  apply st_bind_Ok in Hrun as (s & tr3 & [Hs ->]%st_lift_Ok & Hrun).
  unfold emit in Hrun. injection Hrun as <-.
  exists w2, new, cls, s. split_and!; [done | done | done | done |].
  by rewrite <- app_assoc.
Qed.

(** C10: [cl_pair_iter(n)] yields [n(n+1)/2] triples; their [icl] are
    [0, 1, 2, ...]; their [(i, j)] are the pairs with [i <= j < n], each
    once, row by row. Hence in a call of [get_pcls] on [n] files that
    returns, the archive saved holds one block of records for each triple,
    in order, and the block of the pair [(i, j)] stores, under the names
    [names[i]] and [names[j]], the rows of the spectrum that the compute
    loop made from the fields of the files [fnames[i]] and [fnames[j]]. *)
Theorem cl_pair_iter_spec (n : nat) :
  length (cl_pair_iter n) = n * (n + 1) / 2
  ∧ (λ t, t.1.1) <$> cl_pair_iter n = seq 0 (n * (n + 1) / 2)
  ∧ (λ t, (t.1.2, t.2)) <$> cl_pair_iter n = Ref.index_pairs n
  ∧ (∀ i j, (i, j) ∈ Ref.index_pairs n ↔ i ≤ j < n)
  ∧ NoDup (Ref.index_pairs n)
  ∧ (∀ (binning : NmtBin R) (winv : option (ndarray R)) (fields : list field)
       (cls : list (ndarray R)) (icl i j : nat),
       length fields = n →
       compute_cls binning winv fields = Ok cls →
       (icl, i, j) ∈ cl_pair_iter n →
       ∃ pcl, spectrum binning winv fields i j = Ok pcl
         ∧ cls !! icl = Some pcl)
  ∧ (∀ (fnames names : list string) (fname_out : string) (msk : mask)
       (binning : NmtBin R) (winv : option (ndarray R))
       (tr tr' : list (event R)),
       length fnames = n →
       get_pcls fnames names fname_out msk binning winv tr = (Ok (), tr') →
       ∃ (w2 : option (ndarray R)) (fields : list field) (s : Sacc R)
         (blocks : list (list (EllCl R))),
         check_winv binning winv = Ok w2
         ∧ Forall2 (λ f fld, ∃ mpQ mpU, hp_read_map f = Ok (mpQ, mpU)
                                        ∧ fld = NmtField msk mpQ mpU)
                   fnames fields
         ∧ last tr' = Some (EvSaveFits fname_out s)
         ∧ ell_cls s = concat blocks
         ∧ Forall2 (λ t blk,
              ∃ pcl, spectrum binning w2 fields t.1.2 t.2 = Ok pcl
                ∧ Ref.pair_block names (get_effective_ells binning) pcl
                    t.1.2 t.2 blk)
             (cl_pair_iter n) blocks).
Proof.
  split_and!.
  - by rewrite cl_pair_iter_enum, length_imap, index_pairs_length.
  - rewrite cl_pair_iter_enum, fmap_imap.
    rewrite (imap_ext _ (λ k _, id k)) by done.
    by rewrite imap_seq_0, list_fmap_id, index_pairs_length.
  - rewrite cl_pair_iter_enum, fmap_imap.
    rewrite (imap_ext _ (const id)) by (by intros ? []).
    by rewrite imap_const, list_fmap_id.
  - apply index_pairs_elem.
  - apply index_pairs_NoDup.
  - intros binning winv fields cls icl i j <- Hcls Hin.
    destruct (compute_cls_lookup _ _ _ _ _ _ _ Hcls Hin) as (pcl & Hspec & Hpcl).
    by exists pcl.
  - intros fnames names fname_out msk binning winv tr tr' <-
      (w2 & fields & cls & s & Hw2 & Hbuilt & Hcls & Hsave & ->)%get_pcls_steps.
    pose proof (Forall2_length _ _ _ Hbuilt) as Hlen.
    unfold save_cls in Hsave.
    destruct (tracers_foldl names {| tracers := []; ell_cls := [] |}) as [_ He].
    set (s0 := foldl _ _ names) in *. simpl in He.
    apply (for_each_blocks ell_cls (λ t blk,
             ∃ pcl, spectrum binning w2 fields t.1.2 t.2 = Ok pcl
               ∧ Ref.pair_block names (get_effective_ells binning) pcl
                   t.1.2 t.2 blk)) in Hsave as (blocks & Hblocks & Hall).
    + exists w2, fields, s, blocks. rewrite He in Hblocks. rewrite Hlen.
      split_and!; [done | done | by rewrite !app_assoc, last_snoc | done | done].
    + intros [[icl i] j] s1 s2 Hin (_ & pcl & blk & Hpcl & Hell & Hblk)%save_pair_Ok.
      exists blk. split; [done|]. cbn [fst snd].
      destruct (compute_cls_lookup _ _ _ _ _ _ _ Hcls Hin) as (pcl' & Hspec & Hpcl').
      exists pcl. split; [congruence | done].
Qed.

(** ** The identity operator *)





Section Identity.
Context `{!Classify R} `{!FloatLaws R}.







End Identity.

(** ** When [get_pcls] returns *)

Lemma for_each_total {A S} (body : A → S → result S) (l : list A) (s : S) :
  (∀ x s0, x ∈ l → ∃ s1, body x s0 = Ok s1) →
  ∃ s', for_each l body s = Ok s'.
Proof.
  revert s. induction l as [|x l IH]; intros s Hbody; [by eexists|].
  cbn [for_each]. destruct (Hbody x s) as [s1 ->]; [left|].
  cbn [mbind result_bind]. apply IH. intros ???. apply Hbody. by right.
Qed.

Lemma read_fields_total (fnames : list string) (msk : mask) (acc : list field)
    (tr : list (event R)) :
  (∀ f, f ∈ fnames → ∃ maps, hp_read_map f = Ok maps) →
  ∃ fields, read_fields fnames msk acc tr
            = (Ok fields, tr ++ Ref.read_events fnames).
Proof.
  unfold Ref.read_events.
  revert acc tr. induction fnames as [|f fnames IH]; intros acc tr Hread.
  - exists acc. simpl. by rewrite app_nil_r.
  - cbn [read_fields]. unfold mbind, st_bind, emit, lift.
    destruct (Hread f) as [[mpQ mpU] ->]; [left|].
    destruct (IH (acc ++ [NmtField msk mpQ mpU]) ((tr ++ [EvReadMap f])
                ++ [EvNmtField f])) as [fields ->].
    { intros ??. apply Hread. by right. }
    exists fields. f_equal. cbn [mbind list_bind]. by rewrite <- !app_assoc.
Qed.

Lemma length_rows {A} (m n : nat) (l : list A) : length (rows m n l) = n.
Proof. revert l. induction n as [|n IH]; intros l; simpl; [done | by rewrite IH]. Qed.

(** The operator that passed the check turns a 4 x nbands spectrum into a
    4 x nbands array. *)
Lemma deconvolve_shape (w pcl : ndarray R) (nb : nat) :
  shape w = [4 * nb; 4 * nb] → shape pcl = [4; nb] → wf pcl →
  ∃ out, deconvolve w nb pcl = Ok out ∧ shape out = [4; nb].
Proof.
  intros Hw Hsh Hwf. unfold wf in Hwf. rewrite Hsh in Hwf.
  assert (length (data pcl) = 4 * nb) as Hlen
    by (unfold size_of in Hwf; simpl in Hwf; lia).
  unfold deconvolve, dot, flatten. rewrite Hw. cbn [shape data].
  rewrite decide_True by done. cbn [mbind result_bind]. unfold reshape.
  cbn [data]. rewrite length_fmap, length_rows.
  rewrite decide_True by (unfold size_of; simpl; lia). by eexists.
Qed.

Lemma getitem_row (a : ndarray R) (n : nat) (sh : list nat) (k : nat) :
  shape a = n :: sh → k < n → ∃ row, getitem a k = Ok row.
Proof.
  intros Hsh Hk. unfold getitem. rewrite Hsh. rewrite decide_True by done.
  by eexists.
Qed.

End PclFacts.

(** ** The statements on integer collaborators *)

Lemma get_pcls_shape_error_witness :
  @get_pcls Z Examples.Z_arith Examples.Z_collab
    ["a.fits"; "bb.fits"] ["n1"; "n2"] "out.fits" () Examples.bins2
    (Some {| shape := [4; 1; 4; 1]; data := @eye_data Z Examples.Z_arith 4 |}) []
  = (Raise (ValueError "Incompatible binning scheme and binned MCM."), []).
Proof.
  apply (proj2 (@get_pcls_shape_error Z Examples.Z_arith Examples.Z_collab
                  ["a.fits"; "bb.fits"] ["n1"; "n2"] "out.fits" ()
                  Examples.bins2 _ [])).
  - simpl. lia.
  - reflexivity.
Defined.

Lemma get_pcls_records_witness :
  ∃ tr' s blocks,
    @get_pcls Z Examples.Z_arith Examples.Z_collab
      ["a.fits"; "bb.fits"] ["n1"; "n2"] "out.fits" () Examples.bins2 None []
    = (Ok (), tr')
    ∧ last tr' = Some (EvSaveFits "out.fits" s)
    ∧ ell_cls s = concat blocks
    ∧ length <$> blocks = [3; 4; 3].
Proof.
  destruct (@get_pcls Z Examples.Z_arith Examples.Z_collab
      ["a.fits"; "bb.fits"] ["n1"; "n2"] "out.fits" () Examples.bins2 None [])
    as [r tr'] eqn:Hrun.
  assert (r = Ok ()) as -> by (by apply (f_equal fst) in Hrun; vm_compute in Hrun).
  destruct (@get_pcls_records Z Examples.Z_arith Examples.Z_collab _ _ _ _ _ _ _ _
              Hrun) as (s & blocks & cls & -> & _ & Hell & Hall).
  eexists _, s, blocks. split_and!; [done | | done |].
  - by rewrite app_assoc, last_snoc.
  - change (cl_pair_iter _) with [(0, 0, 0); (1, 0, 1); (2, 1, 1)] in Hall.
    repeat match goal with
           | Hf : Forall2 _ (_ :: _) _ |- _ =>
               apply Forall2_cons_inv_l in Hf as (? & ? & (_ & ? & _) & Hf & ->)
           | Hf : Forall2 _ [] _ |- _ => apply Forall2_nil_inv_l in Hf as ->
           end.
    simpl in *. congruence.
Defined.

Lemma cl_pair_iter_spec_witness :
  ∃ tr' s blocks,
    @get_pcls Z Examples.Z_arith Examples.Z_collab
      ["a.fits"; "bb.fits"] ["n1"; "n2"] "out.fits" () Examples.bins2 None []
    = (Ok (), tr')
    ∧ last tr' = Some (EvSaveFits "out.fits" s)
    ∧ ell_cls s = concat blocks
    ∧ Forall2 (λ t blk,
         ∃ pcl, @spectrum Z Examples.Z_arith Examples.Z_collab Examples.bins2 None
                  [6%Z; 7%Z] t.1.2 t.2 = Ok pcl
           ∧ Ref.pair_block ["n1"; "n2"] (get_effective_ells Examples.bins2) pcl
               t.1.2 t.2 blk)
        [(0, 0, 0); (1, 0, 1); (2, 1, 1)] blocks.
Proof.
  destruct (@get_pcls Z Examples.Z_arith Examples.Z_collab
      ["a.fits"; "bb.fits"] ["n1"; "n2"] "out.fits" () Examples.bins2 None [])
    as [r tr'] eqn:Hrun.
  assert (r = Ok ()) as -> by (by apply (f_equal fst) in Hrun; vm_compute in Hrun).
  destruct (@cl_pair_iter_spec Z Examples.Z_arith Examples.Z_collab 2)
    as (_ & _ & _ & _ & _ & _ & Hrunspec).
  destruct (Hrunspec ["a.fits"; "bb.fits"] _ _ _ _ _ _ _ eq_refl Hrun)
    as (w2 & fields & s & blocks & Hw2 & Hbuilt & Hlast & Hell & Hall).
  injection Hw2 as <-.
  assert (fields = [6%Z; 7%Z]) as ->.
  { repeat match goal with
           | Hf : Forall2 _ (_ :: _) _ |- _ =>
               apply Forall2_cons_inv_l in Hf as (? & ? & (? & ? & [= <- <-] & ->) & Hf & ->)
           | Hf : Forall2 _ [] _ |- _ => apply Forall2_nil_inv_l in Hf as ->
           end.
    reflexivity. }
  exists tr', s, blocks. split; [reflexivity|].
  split; [exact Hlast|]. split; [exact Hell | exact Hall].
Defined.




(** * Further properties of the code *)

(** ** Map identifiers are unique *)

Lemma has_underscore_app (a b : string) :
  has_underscore (a +:+ b) = has_underscore a || has_underscore b.
Proof.
  induction a as [|c a IH]; [done|].
  rewrite str_app_cons. simpl. by rewrite IH, orb_assoc.
Qed.

(** Two strings that end with two underscores and an underscore-free tail
    agree only if their heads and their tails do. *)
Lemma dunder_tail_inj (a a' d d' : string) :
  has_underscore d = false → has_underscore d' = false →
  a +:+ "__" +:+ d = a' +:+ "__" +:+ d' → a = a' ∧ d = d'.
Proof.
  intros Hd Hd'. revert a'. induction a as [|c a IH]; intros [|c' a'] Heq.
  - change (String "_" (String "_" d) = String "_" (String "_" d')) in Heq.
    by injection Heq as ->.
  - change ("" +:+ "__" +:+ d) with (String "_" (String "_" d)) in Heq.
    rewrite str_app_cons in Heq. injection Heq as <- Heq.
    destruct a' as [|c2 a'].
    + change (String "_" d = String "_" (String "_" d')) in Heq.
      injection Heq as ->. by vm_compute in Hd.
    + rewrite str_app_cons in Heq. injection Heq as <- ->.
      rewrite has_underscore_app in Hd. simpl in Hd.
      by rewrite orb_true_r in Hd.
  - change ("" +:+ "__" +:+ d') with (String "_" (String "_" d')) in Heq.
    rewrite str_app_cons in Heq. injection Heq as -> Heq.
    destruct a as [|c2 a].
    + change (String "_" (String "_" d) = String "_" d') in Heq.
      injection Heq as <-. by vm_compute in Hd'.
    + rewrite str_app_cons in Heq. injection Heq as -> <-.
      rewrite has_underscore_app in Hd'. simpl in Hd'.
      by rewrite orb_true_r in Hd'.
  - rewrite !str_app_cons in Heq. injection Heq as -> Heq.
    by destruct (IH _ Heq) as [-> ->].
Qed.

Lemma map_name_inj (s s' : string) (k k' : Z) :
  map_name s k = map_name s' k' → s = s' ∧ k = k'.
Proof.
  intros [-> Hk]%dunder_tail_inj; [|apply pretty_Z_plain..].
  by apply (inj pretty) in Hk.
Qed.

Lemma range_NoDup (n : Z) : NoDup (range n).
Proof.
  apply NoDup_fmap_2; [intros ???; by apply Nat2Z.inj | apply NoDup_seq].
Qed.

Lemma range_elem (n k : Z) : k ∈ range n ↔ (0 ≤ k < n)%Z.
Proof.
  unfold range. rewrite list_elem_of_fmap. split.
  - intros (i & -> & Hi%elem_of_seq). lia.
  - intros Hk. exists (Z.to_nat k). split; [lia | apply elem_of_seq; lia].
Qed.

Lemma split_index_elem (ms : list (string * MapSet)) (s : string) (k : Z) :
  (s, k) ∈ Ref.split_index ms
  ↔ ∃ a, (s, a) ∈ ms ∧ (0 ≤ k < n_splits a)%Z.
Proof.
  unfold Ref.split_index. rewrite list_elem_of_bind. split.
  - intros ([s' a] & (k' & [= <- <-] & Hk%range_elem)%list_elem_of_fmap & Hin).
    by exists a.
  - intros (a & Hin & Hk). exists (s, a). split; [|done].
    apply list_elem_of_fmap. exists k. by rewrite range_elem.
Qed.

Lemma split_index_NoDup (ms : list (string * MapSet)) :
  dict_wf ms → NoDup (Ref.split_index ms).
Proof.
  intros Hwf. unfold Ref.split_index. apply NoDup_bind.
  - intros [s1 a1] [s2 a2] [s k] H1 H2
      (? & [= <- <-] & _)%list_elem_of_fmap (? & [= <- _] & _)%list_elem_of_fmap.
    pose proof (dict_get_elem ms s a1 Hwf H1) as Hg1.
    pose proof (dict_get_elem ms s a2 Hwf H2) as Hg2. congruence.
  - intros [s a] _. apply NoDup_fmap_2; [by intros ?? [= ->] | apply range_NoDup].
  - by eapply NoDup_fmap_1.
Qed.

Lemma maps_list_elem (c : Config) (fs : FS) (m : BBmeta) (a : string) :
  dict_wf (map_sets c) → fst (init c fs) = Ok m →
  a ∈ maps_list m
  ↔ ∃ s ms k, (s, ms) ∈ map_sets c ∧ (0 ≤ k < n_splits ms)%Z
              ∧ a = map_name s k.
Proof.
  intros Hwf Hinit. destruct (init_maps_list c fs m Hwf Hinit) as [_ ->].
  rewrite list_elem_of_fmap. split.
  - intros ([s k] & -> & (ms & Hin & Hk)%split_index_elem). by exists s, ms, k.
  - intros (s & ms & k & Hin & Hk & ->). exists (s, k). split; [done|].
    apply split_index_elem. by exists ms.
Qed.

(** X1. The identifiers of [maps_list] are pairwise distinct, and they are
    exactly the [{map_set}__{split}] with [map_set] a key of [map_sets] and
    [0 <= split < n_splits]. *)
Theorem maps_list_unique (c : Config) (fs : FS) (m : BBmeta) :
  dict_wf (map_sets c) → fst (init c fs) = Ok m →
  NoDup (maps_list m)
  ∧ ∀ a, a ∈ maps_list m
         ↔ ∃ s ms k, (s, ms) ∈ map_sets c ∧ (0 ≤ k < n_splits ms)%Z
                     ∧ a = map_name s k.
Proof.
  intros Hwf Hinit. split; [|intros a; by apply (maps_list_elem c fs m a)].
  destruct (init_maps_list c fs m Hwf Hinit) as [_ ->].
  apply NoDup_fmap_2_strong; [|by apply split_index_NoDup].
  intros [s k] [s' k'] _ _ Heq. cbn [uncurry] in Heq.
  by destruct (map_name_inj _ _ _ _ Heq) as [-> ->].
Qed.

Lemma dict_wf_AB : dict_wf (map_sets Examples.config_AB).
Proof.
  unfold dict_wf. simpl. apply NoDup_cons. split; [|apply NoDup_singleton].
  by intros [=]%list_elem_of_singleton.
Qed.

Lemma maps_list_unique_witness :
  ∃ m, fst (init Examples.config_AB Examples.fs0) = Ok m ∧ NoDup (maps_list m).
Proof.
  destruct (init_example [("A", Examples.set_A); ("B", Examples.set_B)])
    as [m Hm]; [done|].
  exists m. split; [done|].
  by destruct (maps_list_unique Examples.config_AB Examples.fs0 m dict_wf_AB Hm).
Defined.

Lemma length_range (n : Z) : length (range n) = Z.to_nat n.
Proof. unfold range. by rewrite length_fmap, length_seq. Qed.

Lemma split_index_length (ms : list (string * MapSet)) :
  length (Ref.split_index ms)
  = sum_list ((λ p, Z.to_nat (n_splits p.2)) <$> ms).
Proof.
  unfold Ref.split_index. induction ms as [|[s a] l IH]; [done|].
  cbn [mbind list_bind fmap list_fmap sum_list sum_list_with].
  rewrite length_app, length_fmap, length_range.
  cbn [fmap list_fmap] in IH. by rewrite IH.
Qed.

(** X2. [maps_list] has as many entries as the map sets have splits; a map
    set whose [n_splits] is zero or negative has no map at all. *)
Theorem maps_list_length (c : Config) (fs : FS) (m : BBmeta) :
  dict_wf (map_sets c) → fst (init c fs) = Ok m →
  length (maps_list m)
  = sum_list ((λ p, Z.to_nat (n_splits p.2)) <$> map_sets c)
  ∧ ∀ s ms k, (s, ms) ∈ map_sets c → (n_splits ms ≤ 0)%Z →
              map_name s k ∉ maps_list m.
Proof.
  intros Hwf Hinit. split.
  - destruct (init_maps_list c fs m Hwf Hinit) as [_ ->].
    rewrite length_fmap. apply split_index_length.
  - intros s ms k Hin Hn Hk.
    apply (maps_list_elem c fs m _ Hwf Hinit) in Hk
      as (s' & ms' & k' & Hin' & Hk' & [-> ->]%map_name_inj).
    pose proof (dict_get_elem _ _ _ Hwf Hin) as Hg.
    pose proof (dict_get_elem _ _ _ Hwf Hin') as Hg'.
    assert (ms = ms') as -> by congruence. lia.
Qed.

Lemma maps_list_length_witness :
  ∃ m, fst (init Examples.config_AB Examples.fs0) = Ok m
    ∧ length (maps_list m) = 5.
Proof.
  destruct (init_example [("A", Examples.set_A); ("B", Examples.set_B)])
    as [m Hm]; [done|].
  exists m. split; [done|].
  by destruct (maps_list_length Examples.config_AB Examples.fs0 m dict_wf_AB Hm)
    as [-> _].
Defined.

(** ** The directories of the configuration *)

Lemma set_directory_loop_mono (d : list (string * string)) (root_attr : string)
    (items : list (string * string)) (a : gmap string string)
    (fs fs' : FS) (r : result (gmap string string)) :
  set_directory_loop d root_attr items a fs = (r, fs') →
  files fs' = files fs ∧ dirs fs ⊆ dirs fs'.
Proof.
  revert a fs. induction items as [|[label path] items IH]; intros a fs Hrun.
  - by injection Hrun as <- <-.
  - cbn [set_directory_loop] in Hrun. unfold mbind, st_bind, lift in Hrun.
    destruct (dict_get d "root") as [root|e];
      [|case_decide; by injection Hrun as <- <-].
    case_decide; [by eapply IH|].
    destruct (makedirs _ fs) as [[[]|e] fs1] eqn:Hmk.
    + apply mkdir_chain_mono in Hmk as [Hf Hd].
      apply IH in Hrun as [Hf' Hd']. split; [congruence | set_solver].
    + injection Hrun as <- <-. by apply mkdir_chain_mono in Hmk.
Qed.

Lemma set_directory_loop_created (d : list (string * string))
    (root_attr root : string) (items : list (string * string))
    (a a' : gmap string string) (fs fs' : FS) :
  dict_get d "root" = Ok root →
  set_directory_loop d root_attr items a fs = (Ok a', fs') →
  ∀ label path, (label, path) ∈ items → label ≠ "root" →
    root +:+ "/" +:+ path ∈ dirs fs'.
Proof.
  intros Hroot. revert a fs.
  induction items as [|[label path] items IH]; intros a fs Hrun l p Hin Hl.
  - by apply elem_of_nil in Hin.
  - cbn [set_directory_loop] in Hrun. unfold mbind, st_bind, lift in Hrun.
    rewrite Hroot in Hrun. case_decide as Hlabel.
    + apply elem_of_cons in Hin as [[= -> ->]|Hin]; [done | by eapply IH].
    + destruct (makedirs _ fs) as [[[]|e] fs1] eqn:Hmk; [|done].
      apply elem_of_cons in Hin as [[= -> ->]|Hin]; [|by eapply IH].
      apply set_directory_loop_mono in Hrun as [_ Hsub]. apply Hsub.
      eapply mkdir_chain_created; [exact Hmk|]. apply elem_of_app. right. by left.
Qed.

(** [__init__] touches the file system in its first step only. *)
Lemma init_dirs_step (c : Config) (fs fs' : FS) (r : result BBmeta) :
  init c fs = (r, fs') →
  ∃ ra, _set_directory_attributes c ∅ fs = (ra, fs')
    ∧ (∀ e, ra = Raise e → r = Raise e).
Proof.
  unfold init, mbind, st_bind, lift. intros Hrun.
  destruct (_set_directory_attributes c ∅ fs) as [[a|e] fs1] eqn:Hd.
  - exists (Ok a). split; [|done]. f_equal.
    repeat case_match; unfold mret, st_ret in *; by simplify_eq.
  - injection Hrun as <- <-. exists (Raise e).
    split; [done | by intros ? [= ->]].
Qed.

Lemma _set_directory_attributes_created (c : Config) (fs fs' : FS)
    (a : gmap string string) :
  _set_directory_attributes c ∅ fs = (Ok a, fs') →
  files fs' = files fs ∧ dirs fs ⊆ dirs fs'
  ∧ ∀ d label path root,
      d = data_dirs c ∨ d = output_dirs c →
      (label, path) ∈ d → label ≠ "root" → dict_get d "root" = Ok root →
      root +:+ "/" +:+ path ∈ dirs fs'.
Proof.
  unfold _set_directory_attributes. intros Hrun.
  apply st_bind_Ok in Hrun as (a1 & fs1 & Hdata & Hout).
  pose proof (set_directory_loop_mono _ _ _ _ _ _ _ Hdata) as [Hf1 Hd1].
  pose proof (set_directory_loop_mono _ _ _ _ _ _ _ Hout) as [Hf2 Hd2].
  split_and!; [congruence | set_solver |].
  intros d label path root [->| ->] Hin Hl Hroot.
  - apply Hd2. by eapply set_directory_loop_created.
  - by eapply set_directory_loop_created.
Qed.

(** X3. A construction that succeeds has created every directory of
    [data_dirs] and [output_dirs] (each [{root}/{path}]); it removes no
    directory and leaves the regular files alone. *)
Theorem init_creates_directories (c : Config) (fs fs' : FS) (m : BBmeta) :
  init c fs = (Ok m, fs') →
  files fs' = files fs ∧ dirs fs ⊆ dirs fs'
  ∧ ∀ d label path,
      d = data_dirs c ∨ d = output_dirs c →
      (label, path) ∈ d → label ≠ "root" →
      ∃ root, dict_get d "root" = Ok root ∧ root +:+ "/" +:+ path ∈ dirs fs'.
Proof.
  intros (ra & Hdirs & Hra)%init_dirs_step.
  destruct ra as [a|e]; [|by specialize (Hra e eq_refl)].
  destruct (_set_directory_attributes_created c fs fs' a Hdirs)
    as (Hf & Hd & Hcreated).
  split_and!; [done | done |]. intros d label path Hd' Hin Hl.
  destruct (dict_get d "root") as [root|e] eqn:Hroot.
  - exists root. split; [done|]. by eapply Hcreated.
  - exfalso. unfold _set_directory_attributes in Hdirs.
    apply st_bind_Ok in Hdirs as (a1 & fs1 & Hdata & Hout).
    assert (∀ ra items a0 fs0 a2 fs2,
              (label, path) ∈ items →
              set_directory_loop d ra items a0 fs0 = (Ok a2, fs2) → False)
      as Hno.
    { intros ra items. induction items as [|[l p] items IH];
        intros a0 fs0 a2 fs2 Hin' Hrun.
      - by apply elem_of_nil in Hin'.
      - cbn [set_directory_loop] in Hrun. unfold mbind, st_bind, lift in Hrun.
        rewrite Hroot in Hrun. by case_decide. }
    destruct Hd' as [-> | ->]; by eapply Hno.
Qed.

Lemma init_creates_directories_witness :
  ∃ m fs', init Examples.config_AB Examples.fs0 = (Ok m, fs')
    ∧ "/data/maps" ∈ dirs fs' ∧ "/out/sims" ∈ dirs fs'.
Proof.
  destruct (init Examples.config_AB Examples.fs0) as [r fs'] eqn:Hrun.
  destruct (init_example [("A", Examples.set_A); ("B", Examples.set_B)])
    as [m Hm]; [done|].
  change (Examples.config_of 256 767 _) with Examples.config_AB in Hm.
  rewrite Hrun in Hm. simpl in Hm. subst r.
  destruct (init_creates_directories _ _ _ _ Hrun) as (_ & _ & Hcreated).
  exists m, fs'. split_and!; [done | |].
  - destruct (Hcreated (data_dirs Examples.config_AB) "map_directory" "maps")
      as (root & Hroot & Hin); [by left | by right; left | discriminate |].
    vm_compute in Hroot. injection Hroot as <-. exact Hin.
  - destruct (Hcreated (output_dirs Examples.config_AB) "sims_directory" "sims")
      as (root & Hroot & Hin);
      [by right | by right; right; left | discriminate |].
    vm_compute in Hroot. injection Hroot as <-. exact Hin.
Defined.

(** X4. A configuration that is rejected for its [lmax] has had its
    directories created all the same: the check comes after
    [_set_directory_attributes]. *)
Theorem init_rejects_after_mkdir (c : Config) (fs fs' : FS)
    (a : gmap string string) :
  _set_directory_attributes c ∅ fs = (Ok a, fs') →
  (gp_lmax (general_pars c) > 3 * gp_nside (general_pars c) - 1)%Z →
  init c fs
  = (Raise (ValueError (lmax_message (gp_nside (general_pars c)))), fs')
  ∧ ∀ d label path root,
      d = data_dirs c ∨ d = output_dirs c →
      (label, path) ∈ d → label ≠ "root" → dict_get d "root" = Ok root →
      root +:+ "/" +:+ path ∈ dirs fs'.
Proof.
  intros Hdirs Hgt. split; [by apply (init_above c fs a)|].
  by destruct (_set_directory_attributes_created c fs fs' a Hdirs) as (_ & _ & ?).
Qed.

Lemma init_rejects_after_mkdir_witness :
  ∃ fs', init (Examples.config_of 256 768 []) Examples.fs0
         = (Raise (ValueError (lmax_message 256)), fs')
    ∧ "/out/sims" ∈ dirs fs'.
Proof.
  destruct (valid_content_example 256 768 [("A", Examples.set_A)])
    as (a & fs' & Hdirs & _); [done|].
  change (_set_directory_attributes (Examples.config_of 256 768 []) ∅
            Examples.fs0 = (Ok a, fs')) in Hdirs.
  destruct (init_rejects_after_mkdir _ _ _ _ Hdirs) as [Hrun Hcreated]; [done|].
  exists fs'. split; [done|].
  apply (Hcreated (output_dirs (Examples.config_of 256 768 []))
           "sims_directory" "sims" "/out");
    [by right | by right; right; left | discriminate | reflexivity].
Defined.

(** ** How [__init__] fails *)

Lemma dict_get_missing {V} (d : list (string * V)) (k : string) :
  k ∉ dict_keys d → dict_get d k = Raise (KeyError k).
Proof.
  unfold dict_keys. induction d as [|[k' v] d IH]; intros Hk; [done|].
  simpl in *. apply not_elem_of_cons in Hk as [Hne Hk].
  rewrite decide_False by done. by apply IH.
Qed.

Lemma set_directory_loop_no_root (d : list (string * string)) (root_attr : string)
    (items : list (string * string)) (a : gmap string string) (fs : FS) :
  "root" ∉ dict_keys d → "root" ∉ dict_keys items → items ≠ [] →
  set_directory_loop d root_attr items a fs = (Raise (KeyError "root"), fs).
Proof.
  intros Hd Hitems Hne. destruct items as [|[label path] items]; [done|].
  cbn [set_directory_loop]. unfold dict_keys in Hitems. simpl in Hitems.
  apply not_elem_of_cons in Hitems as [Hlabel _].
  rewrite decide_False by done. unfold mbind, st_bind, lift.
  by rewrite dict_get_missing.
Qed.

(** X5. A directory dict that has entries but no [root] makes the
    construction raise [KeyError('root')]: for [data_dirs] before anything
    is created, for [output_dirs] after the data directories have been
    created. *)
Theorem init_missing_root (c : Config) (fs : FS) :
  (data_dirs c ≠ [] → "root" ∉ dict_keys (data_dirs c) →
     init c fs = (Raise (KeyError "root"), fs))
  ∧ (∀ a1 fs1,
       set_directory_loop (data_dirs c) "data_dir" (data_dirs c) ∅ fs
       = (Ok a1, fs1) →
       output_dirs c ≠ [] → "root" ∉ dict_keys (output_dirs c) →
       init c fs = (Raise (KeyError "root"), fs1)).
Proof.
  split.
  - intros Hne Hroot. unfold init, _set_directory_attributes, mbind, st_bind.
    by rewrite set_directory_loop_no_root.
  - intros a1 fs1 Hdata Hne Hroot.
    unfold init, _set_directory_attributes, mbind, st_bind. rewrite Hdata.
    by rewrite set_directory_loop_no_root.
Qed.

(** X6. After the directories and the [lmax] check the construction fails,
    in this order, with [AttributeError] if no directory is labelled
    [pre_process_directory], with [StopIteration] if [map_sets] is empty,
    and with [AttributeError] if no directory is labelled
    [mask_directory]. *)
Theorem init_failure_order (c : Config) (fs fs' : FS) (a : gmap string string) :
  _set_directory_attributes c ∅ fs = (Ok a, fs') →
  (gp_lmax (general_pars c) ≤ 3 * gp_nside (general_pars c) - 1)%Z →
  (a !! "pre_process_directory" = None →
     init c fs = (Raise (AttributeError "pre_process_directory"), fs'))
  ∧ (is_Some (a !! "pre_process_directory") → map_sets c = [] →
     init c fs = (Raise StopIteration, fs'))
  ∧ (is_Some (a !! "pre_process_directory") → map_sets c ≠ [] →
     a !! "mask_directory" = None →
     init c fs = (Raise (AttributeError "mask_directory"), fs')).
Proof.
  intros Hdirs Hle.
  assert (sanity_check (gp_lmax (general_pars c)) (gp_nside (general_pars c))
          = Ok ()) as Hcheck
    by (unfold sanity_check; by rewrite decide_False by lia).
  split_and!.
  - intros Hpre. unfold init, mbind, st_bind, lift. rewrite Hdirs, Hcheck.
    unfold getattr. by rewrite Hpre.
  - intros [pre Hpre] Hms. unfold init, mbind, st_bind, lift.
    rewrite Hdirs, Hcheck. unfold getattr at 1. by rewrite Hpre, Hms.
  - intros [pre Hpre] Hms Hmask. unfold init, mbind, st_bind, lift.
    rewrite Hdirs, Hcheck. unfold getattr at 1. rewrite Hpre.
    destruct (map_sets c) as [|[k v] ms] eqn:Hc; [done|]. cbn [first_key].
    destruct (_get_map_list_total ((k, v) :: ms)
                (_get_map_sets_list ((k, v) :: ms))) as [l ->]; [done|].
    unfold _get_mask_name, getattr. by rewrite Hmask.
Qed.

Lemma init_failure_order_witness :
  ∃ fs', init (Examples.config_of 256 767 []) Examples.fs0
         = (Raise StopIteration, fs').
Proof.
  destruct (valid_content_example 256 767 [("A", Examples.set_A)])
    as (a & fs' & Hdirs & Hpre & _); [done|].
  change (_set_directory_attributes (Examples.config_of 256 767 []) ∅
            Examples.fs0 = (Ok a, fs')) in Hdirs.
  exists fs'.
  by apply (init_failure_order _ _ _ _ Hdirs).
Defined.

Lemma init_missing_root_witness :
  init Examples.config_no_root Examples.fs0
  = (Raise (KeyError "root"), Examples.fs0).
Proof.
  apply (proj1 (init_missing_root Examples.config_no_root Examples.fs0)).
  - done.
  - simpl. by intros [=]%list_elem_of_singleton.
Defined.

(** ** Decimal strings *)

Lemma str_forall_app (P : ascii → bool) (a b : string) :
  str_forall P (a +:+ b) = str_forall P a && str_forall P b.
Proof.
  induction a as [|c a IH]; [done|].
  rewrite str_app_cons. simpl. by rewrite IH, andb_assoc.
Qed.

Lemma pretty_N_char_digit (x : N) : is_digit (pretty_N_char x) = true.
Proof. unfold pretty_N_char. by repeat case_match. Qed.

(** The digits that [pretty_N_go] puts in front of its accumulator: none
    for zero, else digits of which the first is not ["0"]. *)
Lemma pretty_N_go_digits (x : N) (s : string) :
  ∃ r, pretty_N_go x s = r +:+ s
    ∧ str_forall is_digit r = true
    ∧ (x = 0%N → r = "")
    ∧ ((0 < x)%N → ∃ c r', r = String c r' ∧ c ≠ "0"%char).
Proof.
  revert s. induction (N.lt_wf_0 x) as [x _ IH]; intros s.
  destruct (decide (x = 0)%N) as [->|Hx].
  - exists "". rewrite pretty_N_go_0. split_and!; [done..|lia].
  - rewrite pretty_N_go_step by lia.
    destruct (IH (x `div` 10)%N) with (s := String (pretty_N_char (x `mod` 10)) s)
      as (r1 & Hgo & Hdig & Hzero & Hpos); [apply N.div_lt; lia|].
    exists (r1 +:+ String (pretty_N_char (x `mod` 10)) "").
    split_and!.
    + by rewrite Hgo, str_app_assoc.
    + rewrite str_forall_app, Hdig. simpl. by rewrite pretty_N_char_digit.
    + lia.
    + intros _. destruct (decide (x `div` 10 = 0)%N) as [Hsmall|Hbig].
      * rewrite (Hzero Hsmall). eexists _, _. split; [done|].
        intros Hc. change "0"%char with (pretty_N_char 0) in Hc.
        apply pretty_N_char_inj in Hc; [|by apply N.mod_lt|done].
        assert (x < 10)%N by (apply N.div_small_iff in Hsmall; lia).
        rewrite N.mod_small in Hc by done. lia.
      * destruct Hpos as (c & r' & -> & Hc); [by apply N.neq_0_lt_0|].
        exists c, (r' +:+ String (pretty_N_char (x `mod` 10)) ""). done.
Qed.

(** The decimal form of a natural number: digits, at least one, and a
    leading ["0"] only for zero. *)
Lemma pretty_N_shape (x : N) :
  str_forall is_digit (pretty x) = true
  ∧ pretty x ≠ ""
  ∧ ∀ r, pretty x = String "0" r → r = "".
Proof.
  unfold pretty, pretty_N. case_decide as Hx.
  - split_and!; [done | done | by intros r [= <-]].
  - destruct (pretty_N_go_digits x "") as (r & Hgo & Hdig & _ & Hpos).
    rewrite str_app_nil_r in Hgo. rewrite Hgo.
    destruct Hpos as (c & r' & -> & Hc); [lia|].
    split_and!; [done | done | by intros ? [= ? _]].
Qed.

Lemma pretty_Z_nonneg (z : Z) : (0 ≤ z)%Z → pretty z = pretty (Z.to_N z).
Proof. by destruct z. Qed.

Lemma zeros_app (a b : nat) : zeros (a + b) = zeros a +:+ zeros b.
Proof. induction a as [|a IH]; [done|]. simpl. by rewrite IH. Qed.

(** Zero padding keeps decimal forms apart. *)
Lemma zfill_pretty_inj (w : nat) (x y : N) :
  zfill w (pretty x) = zfill w (pretty y) → x = y.
Proof.
  assert (∀ (x y : N) (a b : nat), b < a →
            zeros a +:+ pretty x = zeros b +:+ pretty y → False) as Hlt.
  { intros x' y' a b Hab Heq.
    replace a with (b + S (a - S b)) in Heq by lia.
    rewrite zeros_app, str_app_assoc in Heq.
    apply (inj (String.app _)) in Heq.
    destruct (pretty_N_shape x') as (_ & Hne & _).
    destruct (pretty_N_shape y') as (_ & _ & Hzero).
    simpl zeros in Heq. rewrite str_app_cons in Heq.
    symmetry in Heq. apply Hzero in Heq.
    destruct (zeros (a - S b)), (pretty x'); done. }
  unfold zfill. intros Heq.
  destruct (lt_eq_lt_dec (w - String.length (pretty x))
              (w - String.length (pretty y))) as [[Hc|Hc]|Hc].
  - exfalso. by eapply Hlt.
  - rewrite Hc in Heq. apply (inj (String.app _)) in Heq.
    by apply (inj pretty) in Heq.
  - exfalso. eapply Hlt; [exact Hc|done].
Qed.

Lemma format_04d_nonneg (z : Z) :
  (0 ≤ z)%Z → format_04d z = zfill 4 (pretty (Z.to_N z)).
Proof. by destruct z. Qed.

Lemma format_04d_neg (p : positive) :
  format_04d (Zneg p) = String "-" (zfill 3 (pretty (Npos p))).
Proof. done. Qed.

Lemma zfill_first_char (w : nat) (x : N) :
  ∃ c r, zfill w (pretty x) = String c r ∧ is_digit c = true.
Proof.
  unfold zfill. destruct (w - String.length (pretty x)) as [|k].
  - destruct (pretty_N_shape x) as (Hdig & Hne & _).
    destruct (pretty x) as [|c r]; [done|]. exists c, r. split; [done|].
    simpl in Hdig. by apply andb_prop in Hdig as [? _].
  - by eexists _, _.
Qed.

Lemma format_04d_eq_inv (i j : Z) : format_04d i = format_04d j → i = j.
Proof.
  intros Heq. destruct (Z.neg_nonneg_cases i) as [Hi|Hi],
    (Z.neg_nonneg_cases j) as [Hj|Hj].
  - destruct i as [| |p]; try lia. destruct j as [| |q]; try lia.
    rewrite !format_04d_neg in Heq. injection Heq as Heq.
    by apply zfill_pretty_inj in Heq as [= ->].
  - destruct i as [| |p]; try lia. rewrite format_04d_neg in Heq.
    rewrite (format_04d_nonneg j Hj) in Heq.
    destruct (zfill_first_char 4 (Z.to_N j)) as (c & r & Hz & Hc).
    rewrite Hz in Heq. injection Heq as <- _. done.
  - destruct j as [| |q]; try lia. rewrite format_04d_neg in Heq.
    rewrite (format_04d_nonneg i Hi) in Heq.
    destruct (zfill_first_char 4 (Z.to_N i)) as (c & r & Hz & Hc).
    rewrite Hz in Heq. injection Heq as -> _. done.
  - rewrite (format_04d_nonneg i Hi), (format_04d_nonneg j Hj) in Heq.
    apply zfill_pretty_inj in Heq. lia.
Qed.

(** X8. [f"{id_sim:04d}"] never gives the same string for two different
    indices, whatever their sign and their number of digits. *)
Theorem format_04d_inj (i j : Z) : i ≠ j → format_04d i ≠ format_04d j.
Proof. intros Hne Heq. by apply Hne, format_04d_eq_inv. Qed.

Lemma format_04d_inj_witness :
  format_04d 12345 ≠ format_04d (-12345) ∧ format_04d 7 ≠ format_04d 70.
Proof.
  split.
  - apply (format_04d_inj 12345 (-12345)). lia.
  - apply (format_04d_inj 7 70). lia.
Defined.

(** ** More on [get_map_filename] *)

(** X7. [get_map_filename] changes the file system only when it makes the
    directory of a simulation: for a data map ([id_sim = None]) it returns
    [os.path.join(map_directory, name)] and changes nothing, and for a map
    set that is not in [map_sets] it raises [KeyError] before any
    directory is made. *)
Theorem get_map_filename_no_effect (m : BBmeta) (map_set : string)
    (id_split : Z) (id_sim : option Z) (fs fs' : FS) (r : result string) :
  get_map_filename m map_set id_split id_sim fs = (r, fs') →
  (id_sim = None →
     fs' = fs
     ∧ ∀ ms d, dict_get (map_sets (config m)) map_set = Ok ms →
               attrs m !! "map_directory" = Some d →
               r = Ok (path_join d (file_root ms +:+ "_split_"
                                    +:+ pretty id_split +:+ ".fits")))
  ∧ (map_set ∉ dict_keys (map_sets (config m)) →
     r = Raise (KeyError map_set) ∧ fs' = fs).
Proof.
  unfold get_map_filename, mbind, st_bind, lift, file_root_from_map_set.
  intros Hrun. split.
  - intros ->. destruct (dict_get _ map_set) as [ms|e]; cbn [fmap result_fmap] in Hrun.
    + unfold getattr in Hrun. destruct (attrs m !! "map_directory") as [d|].
      * injection Hrun as <- <-. split; [done|]. by intros ?? [= <-] [= <-].
      * injection Hrun as <- <-. split; [done|]. by intros ?? _ [=].
    + injection Hrun as <- <-. split; [done|]. by intros ?? [=].
  - intros Hmiss. rewrite (dict_get_missing _ _ Hmiss) in Hrun.
    by injection Hrun as <- <-.
Qed.

Lemma get_map_filename_no_effect_witness :
  ∃ m, fst (init Examples.config_AB Examples.fs0) = Ok m
    ∧ get_map_filename m "A" 1 None Examples.fs0
      = (Ok "/data/maps/a_split_1.fits", Examples.fs0)
    ∧ get_map_filename m "C" 1 (Some 3%Z) Examples.fs0
      = (Raise (KeyError "C"), Examples.fs0).
Proof.
  destruct (init_example [("A", Examples.set_A); ("B", Examples.set_B)])
    as [m Hm]; [done|].
  destruct (init_example_attrs _ m Hm) as (Hms & _ & Hmap).
  exists m. split; [done|]. split.
  - destruct (get_map_filename m "A" 1 None Examples.fs0) as [r fs'] eqn:Hrun.
    destruct (get_map_filename_no_effect _ _ _ _ _ _ _ Hrun) as [Hnone _].
    destruct (Hnone eq_refl) as [-> Hr].
    by rewrite (Hr Examples.set_A "/data/maps") by (by rewrite ?Hms).
  - destruct (get_map_filename m "C" 1 (Some 3%Z) Examples.fs0)
      as [r fs'] eqn:Hrun.
    destruct (get_map_filename_no_effect _ _ _ _ _ _ _ Hrun) as [_ Hmiss].
    destruct Hmiss as [-> ->]; [|done]. rewrite Hms. simpl.
    rewrite !elem_of_cons, elem_of_nil. by intros [[=]|[[=]|[]]].
Defined.

Lemma str_forall_impl (P Q : ascii → bool) (s : string) :
  (∀ c, P c = true → Q c = true) →
  str_forall P s = true → str_forall Q s = true.
Proof.
  intros HPQ. induction s as [|c s IH]; [done|]. simpl.
  intros [Hc Hs]%andb_prop. by rewrite (HPQ c Hc), IH.
Qed.

(** [f"{n:04d}"] is made of digits and at most a minus sign, and is not
    empty. *)
Lemma format_04d_shape (n : Z) :
  str_forall is_digit_or_minus (format_04d n) = true ∧ format_04d n ≠ "".
Proof.
  assert (∀ w x, str_forall is_digit_or_minus (zfill w (pretty x)) = true
                 ∧ zfill w (pretty (x : N)) ≠ "") as Hz.
  { intros w x. split.
    - unfold zfill. rewrite str_forall_app.
      destruct (pretty_N_shape x) as (Hdig & _).
      assert (str_forall is_digit_or_minus (pretty x) = true) as ->.
      { apply (str_forall_impl is_digit); [|done].
        intros c Hc. unfold is_digit_or_minus. by rewrite Hc. }
      rewrite andb_true_r. by induction (w - _) as [|k IH].
    - by destruct (zfill_first_char w x) as (c & r & -> & _). }
  destruct (Z.neg_nonneg_cases n) as [Hn|Hn].
  - destruct n as [| |p]; try lia. rewrite format_04d_neg. simpl.
    by destruct (Hz 3 (Npos p)) as [-> _].
  - rewrite (format_04d_nonneg n Hn). apply Hz.
Qed.

Lemma no_sep_ends (s : string) :
  str_forall is_digit_or_minus s = true →
  startswith_sep s = false ∧ endswith_sep s = false.
Proof.
  intros Hs. split.
  - destruct s as [|c s]; [done|]. simpl in *.
    apply andb_prop in Hs as [Hc _]. apply bool_decide_eq_false. by intros ->.
  - induction s as [|c s IH]; [done|]. simpl in Hs.
    apply andb_prop in Hs as [Hc Hs]. cbn [endswith_sep].
    destruct s; [|by apply IH].
    apply bool_decide_eq_false. by intros ->.
Qed.

(** [os.path.join(sims, f"{n:04d}")] puts the number after a prefix that
    depends on [sims] only, and gives a directory name that is not empty
    and does not end with a separator. *)
Lemma sim_dir_shape (sims : string) (n : Z) :
  ∃ pre, (∀ k, path_join sims (format_04d k) = pre +:+ format_04d k)
    ∧ path_join sims (format_04d n) ≠ ""
    ∧ endswith_sep (path_join sims (format_04d n)) = false.
Proof.
  exists (if bool_decide (sims = "") || endswith_sep sims
          then sims else sims +:+ "/").
  assert (∀ k, path_join sims (format_04d k)
               = (if bool_decide (sims = "") || endswith_sep sims
                  then sims else sims +:+ "/") +:+ format_04d k) as Hjoin.
  { intros k. unfold path_join.
    destruct (format_04d_shape k) as [[-> _]%no_sep_ends _].
    destruct (bool_decide (sims = "") || endswith_sep sims); [done|].
    by rewrite str_app_assoc. }
  split; [done|]. rewrite Hjoin.
  destruct (format_04d_shape n) as [[_ Hend]%no_sep_ends Hne]. split.
  - intros Heq. apply (f_equal String.length) in Heq.
    rewrite str_length_app in Heq. destruct (format_04d n); [done|].
    simpl in Heq. lia.
  - by rewrite endswith_sep_app.
Qed.

(** X9. When the file root of the map set does not start with a separator,
    two simulation indices never give the same path; when it does, the path
    does not depend on the index at all. *)
Theorem get_map_filename_sims_distinct (m : BBmeta) (map_set : string)
    (ms : MapSet) (id_split i j : Z) (sims : string) :
  dict_get (map_sets (config m)) map_set = Ok ms →
  attrs m !! "sims_directory" = Some sims →
  let name := file_root ms +:+ "_split_" +:+ pretty id_split +:+ ".fits" in
  (startswith_sep (file_root ms) = false →
     ∀ fs1 fs2 fs1' fs2' p,
       get_map_filename m map_set id_split (Some i) fs1 = (Ok p, fs1') →
       get_map_filename m map_set id_split (Some j) fs2 = (Ok p, fs2') →
       i = j)
  ∧ (startswith_sep (file_root ms) = true →
     ∀ fs fs' p,
       get_map_filename m map_set id_split (Some i) fs = (Ok p, fs') →
       p = name).
Proof.
  intros Hms Hsims name.
  assert (∀ k fs fs' p,
            get_map_filename m map_set id_split (Some k) fs = (Ok p, fs') →
            p = path_join (path_join sims (format_04d k)) name) as Hpath.
  { intros k fs fs' p Hrun.
    rewrite (get_map_filename_sim_unfold m map_set ms id_split k sims fs
               Hms Hsims) in Hrun. cbn zeta in Hrun.
    destruct (makedirs _ fs) as [[[]|e] fs1]; [|done]. by injection Hrun as <- _. }
  split.
  - intros Hroot fs1 fs2 fs1' fs2' p Hi%Hpath Hj%Hpath.
    assert (startswith_sep name = false) as Hname.
    { unfold name. destruct (file_root ms) as [|c r] eqn:Hr; [done|].
      by rewrite startswith_sep_app. }
    destruct (sim_dir_shape sims i) as (pre & Hpre & Hne_i & Hend_i).
    destruct (sim_dir_shape sims j) as (_ & _ & Hne_j & Hend_j).
    rewrite path_join_plain in Hi by done.
    rewrite path_join_plain in Hj by done.
    rewrite Hi in Hj. apply str_app_inj_len in Hj as [Hj _]; [|done].
    rewrite !Hpre in Hj. apply (inj (String.app _)) in Hj.
    by apply format_04d_eq_inv.
  - intros Hroot fs fs' p ->%Hpath. unfold path_join.
    replace (startswith_sep name) with true; [done|].
    unfold name. destruct (file_root ms) as [|c r] eqn:Hr; [done|].
    by rewrite startswith_sep_app.
Qed.

Lemma get_map_filename_sims_distinct_witness :
  ∃ m p q fs1 fs2,
    fst (init Examples.config_AB Examples.fs0) = Ok m
    ∧ get_map_filename m "A" 1 (Some 7%Z) Examples.fs0 = (Ok p, fs1)
    ∧ get_map_filename m "A" 1 (Some 8%Z) Examples.fs0 = (Ok q, fs2)
    ∧ p ≠ q.
Proof.
  destruct (init_example [("A", Examples.set_A); ("B", Examples.set_B)])
    as [m Hm]; [done|].
  destruct (init_example_attrs _ m Hm) as (Hms & Hsims & _).
  assert (dict_get (map_sets (config m)) "A" = Ok Examples.set_A) as Hget
    by (by rewrite Hms).
  assert (∀ k, ∃ p fs', get_map_filename m "A" 1 (Some k) Examples.fs0
                        = (Ok p, fs')) as Hrun.
  { intros k. rewrite (get_map_filename_sim_unfold m "A" Examples.set_A 1 k
                         "/out/sims" Examples.fs0 Hget Hsims).
    cbn zeta. unfold makedirs.
    rewrite mkdir_chain_free by (intros d _; apply not_elem_of_empty).
    by eexists _, _. }
  destruct (Hrun 7%Z) as (p & fs1 & Hp), (Hrun 8%Z) as (q & fs2 & Hq).
  exists m, p, q, fs1, fs2. split_and!; [done..|]. intros ->.
  destruct (get_map_filename_sims_distinct m "A" Examples.set_A 1 7 8
              "/out/sims" Hget Hsims) as [Hdistinct _].
  by specialize (Hdistinct eq_refl _ _ _ _ _ Hp Hq).
Defined.

(** ** More on [get_ps_names_list] *)

Lemma for_each_ext {A S} (body1 body2 : A → S → result S) (l : list A) (s : S) :
  (∀ x s0, body1 x s0 = body2 x s0) →
  for_each l body1 s = for_each l body2 s.
Proof.
  intros Hext. revert s. induction l as [|x l IH]; intros s; [done|].
  cbn [for_each]. rewrite Hext. destruct (body2 x s); [apply IH | done].
Qed.

Lemma ps_keep_unknown (m : BBmeta) (type : string) (coadd : bool)
    (i j : nat) (a b : string) :
  type ≠ "cross" → type ≠ "auto" →
  ps_keep m type coadd i a j b = ps_keep m "all" coadd i a j b.
Proof.
  intros Hc Ha. unfold ps_keep.
  rewrite (bool_decide_eq_false_2 (type = "cross")) by done.
  rewrite (bool_decide_eq_false_2 (type = "auto")) by done.
  rewrite (bool_decide_eq_false_2 ("all" = "cross")) by done.
  by rewrite (bool_decide_eq_false_2 ("all" = "auto")) by done.
Qed.

(** X10. A [type] that is neither ["cross"] nor ["auto"] is not rejected:
    whatever the string, the function returns what it returns for
    ["all"]. *)
Theorem ps_names_unknown_type (m : BBmeta) (type : string) (coadd : bool) :
  type ≠ "cross" → type ≠ "auto" →
  get_ps_names_list m type coadd = get_ps_names_list m "all" coadd.
Proof.
  intros Hc Ha. unfold get_ps_names_list. apply for_each_ext.
  intros [i a] acc. apply for_each_ext. intros [j b] acc'.
  by rewrite ps_keep_unknown.
Qed.

Lemma ps_names_unknown_type_witness :
  ∃ m, fst (init Examples.config_AB Examples.fs0) = Ok m
    ∧ get_ps_names_list m "autos" true = get_ps_names_list m "all" true.
Proof.
  destruct (init_example [("A", Examples.set_A); ("B", Examples.set_B)])
    as [m Hm]; [done|].
  exists m. split; [done|].
  apply (ps_names_unknown_type m "autos" true); discriminate.
Defined.

Lemma bind_app_perm {A B} (f g : A → list B) (l : list A) :
  l ≫= (λ x, f x ++ g x) ≡ₚ (l ≫= f) ++ (l ≫= g).
Proof.
  induction l as [|x l IH]; [done|]. cbn [mbind list_bind]. rewrite IH.
  rewrite <- !app_assoc. apply Permutation_app_head.
  rewrite !app_assoc. apply Permutation_app_tail, Permutation_app_comm.
Qed.

Lemma bind_perm_ext {A B} (f g : A → list B) (l : list A) :
  (∀ x, f x ≡ₚ g x) → l ≫= f ≡ₚ l ≫= g.
Proof.
  intros Hfg. induction l as [|x l IH]; [done|].
  cbn [mbind list_bind]. by rewrite (Hfg x), IH.
Qed.

Lemma strict_rows {A} (pre l : list A) :
  ('(i, a) ← imap (λ i, pair (length pre + i)) l;
   pair a <$> drop (S i) (pre ++ l))
  = Ref.strict_pairs l.
Proof.
  revert pre. induction l as [|x l IH]; intros pre; [done|].
  rewrite imap_cons. cbn [mbind list_bind Ref.strict_pairs].
  rewrite Nat.add_0_r.
  replace (pre ++ x :: l) with ((pre ++ [x]) ++ l) by (by rewrite <- app_assoc).
  replace (S (length pre)) with (length (pre ++ [x]))
    by (rewrite length_app; simpl; lia).
  rewrite drop_app_length. f_equal. rewrite <- (IH (pre ++ [x])).
  apply list_bind_ext; [done|].
  apply imap_ext. intros. unfold compose. rewrite length_app. simpl.
  f_equal. lia.
Qed.

Lemma strict_pairs_length {A} (l : list A) :
  2 * length (Ref.strict_pairs l) + 2 * length l = length l * (length l + 1).
Proof.
  induction l as [|a l IH]; [done|].
  cbn [Ref.strict_pairs]. rewrite length_app, length_fmap. simpl. lia.
Qed.

(** The three lists on map sets, as the loops build them. *)
Lemma coadd_all_list (L : list string) :
  ('(i, a) ← enumerate L; '(j, b) ← enumerate L;
   if bool_decide (i ≤ j) then [(a, b)] else [])
  = Ref.upper_pairs L.
Proof.
  rewrite <- (upper_rows [] L). unfold enumerate. simpl.
  apply list_bind_ext; [|done]. intros [i a].
  pose proof (upper_row a i 0 L) as Hrow. by rewrite Nat.sub_0_r in Hrow.
Qed.

Lemma coadd_cross_list (L : list string) :
  ('(i, a) ← enumerate L; '(j, b) ← enumerate L;
   if bool_decide (i < j) then [(a, b)] else [])
  = Ref.strict_pairs L.
Proof.
  rewrite <- (strict_rows [] L). unfold enumerate. simpl.
  apply list_bind_ext; [|done]. intros [i a].
  pose proof (upper_row a (S i) 0 L) as Hrow. rewrite Nat.sub_0_r in Hrow.
  rewrite <- Hrow. apply list_bind_ext; [|done]. intros [j b].
  by rewrite (bool_decide_ext (i < j) (S i ≤ j)) by lia.
Qed.

Lemma coadd_split_perm (L : list string) :
  ('(i, a) ← enumerate L; '(j, b) ← enumerate L;
   if bool_decide (i ≤ j) then [(a, b)] else [])
  ≡ₚ ('(i, a) ← enumerate L; '(j, b) ← enumerate L;
      if bool_decide (i = j) then [(a, b)] else [])
     ++ ('(i, a) ← enumerate L; '(j, b) ← enumerate L;
         if bool_decide (i < j) then [(a, b)] else []).
Proof.
  etrans; [|apply (bind_app_perm
    (λ '(i, a), '(j, b) ← enumerate L; if bool_decide (i = j) then [(a, b)] else [])
    (λ '(i, a), '(j, b) ← enumerate L; if bool_decide (i < j) then [(a, b)] else []))].
  apply bind_perm_ext. intros [i a].
  etrans; [|apply (bind_app_perm
    (λ '(j, b), if bool_decide (i = j) then [(a, b)] else [])
    (λ '(j, b), if bool_decide (i < j) then [(a, b)] else []))].
  apply bind_perm_ext. intros [j b].
  destruct (bool_decide_reflect (i ≤ j)), (bool_decide_reflect (i = j)),
    (bool_decide_reflect (i < j)); (done || lia).
Qed.

(** X11. On map sets ([coadd=True]) the list for ["all"] is the list for
    ["auto"] and the list for ["cross"] put together, up to the order:
    ["auto"] gives the [n] pairs [(a, a)], ["cross"] the [n(n-1)/2] pairs
    [(entities[i], entities[j])] with [i < j]. *)
Theorem ps_names_coadd_partition (m : BBmeta) :
  let L := map_sets_list m in
  ∃ la lc lall,
    get_ps_names_list m "auto" true = Ok la
    ∧ get_ps_names_list m "cross" true = Ok lc
    ∧ get_ps_names_list m "all" true = Ok lall
    ∧ lall ≡ₚ la ++ lc
    ∧ lc = Ref.strict_pairs L
    ∧ 2 * length lc = length L * (length L - 1)
    ∧ length la = length L
    ∧ ∀ a b, (a, b) ∈ la ↔ a = b ∧ a ∈ L.
Proof.
  intros L.
  pose proof (get_ps_names_list_pure m "auto" true
                (λ i _ j _, bool_decide (i = j))
                (λ i a j b _ _, ps_keep_auto_coadd m i j a b)) as Hauto.
  pose proof (get_ps_names_list_pure m "cross" true
                (λ i _ j _, bool_decide (i < j))
                (λ i a j b _ _, ps_keep_cross_coadd m i j a b)) as Hcross.
  pose proof (get_ps_names_list_pure m "all" true
                (λ i _ j _, bool_decide (i ≤ j))
                (λ i a j b _ _, ps_keep_all_coadd m i j a b)) as Hall.
  cbn zeta in Hauto, Hcross, Hall. fold L in Hauto, Hcross, Hall.
  pose proof (coadd_split_perm L) as Hperm.
  rewrite coadd_cross_list in Hcross, Hperm.
  rewrite coadd_all_list in Hall, Hperm.
  set (la := _ ≫= _) in Hauto, Hperm.
  pose proof (upper_pairs_length L) as Hlall.
  pose proof (strict_pairs_length L) as Hlc.
  pose proof (Permutation_length Hperm) as Hlen. rewrite length_app in Hlen.
  exists la, (Ref.strict_pairs L), (Ref.upper_pairs L).
  split_and!; [done | done | done | done | done | | lia |].
  - destruct (length L); simpl in *; nia.
  - intros a b. unfold la. rewrite elem_of_kept_pairs. split.
    + intros (i & j & Hi & Hj & ->%bool_decide_eq_true).
      split; [congruence | by eapply list_elem_of_lookup_2].
    + intros [<- [i Hi]%list_elem_of_lookup]. exists i, i.
      by rewrite bool_decide_eq_true_2.
Qed.

(** ** Individual maps ([coadd=False]) *)

(** X12. For a registry whose map-set names are distinct and plain (no two
    underscores in a row, none at the end), with [coadd=False] and
    [type="all"], two maps of different map sets are paired in both
    orders: the test on the position in the list, that the loop on map
    sets makes, is not made here. *)
Theorem ps_names_all_both_orders (c : Config) (fs : FS) (m : BBmeta) :
  dict_wf (map_sets c) →
  Forall (λ s, plain_name s = true) (dict_keys (map_sets c)) →
  fst (init c fs) = Ok m →
  ∃ l, get_ps_names_list m "all" false = Ok l
    ∧ ∀ s1 a1 k1 s2 a2 k2,
        (s1, a1) ∈ map_sets c → (s2, a2) ∈ map_sets c → s1 ≠ s2 →
        (0 ≤ k1 < n_splits a1)%Z → (0 ≤ k2 < n_splits a2)%Z →
        (map_name s1 k1, map_name s2 k2) ∈ l
        ∧ (map_name s2 k2, map_name s1 k1) ∈ l.
Proof.
  intros Hwf Hplain Hinit. eexists. split; [by eapply ps_names_all_maps|].
  intros s1 a1 k1 s2 a2 k2 H1 H2 Hne Hk1 Hk2.
  assert ((s1, k1) ∈ Ref.split_index (map_sets c)) as Hi1
    by (apply split_index_elem; by exists a1).
  assert ((s2, k2) ∈ Ref.split_index (map_sets c)) as Hi2
    by (apply split_index_elem; by exists a2).
  unfold Ref.all_pairs_kept. split.
  - apply list_elem_of_bind. exists (s1, k1). split; [|done].
    apply list_elem_of_bind. exists (s2, k2). split; [|done].
    cbn [fst snd]. rewrite bool_decide_eq_false_2 by done. by left.
  - apply list_elem_of_bind. exists (s2, k2). split; [|done].
    apply list_elem_of_bind. exists (s1, k1). split; [|done].
    cbn [fst snd]. rewrite bool_decide_eq_false_2 by done. by left.
Qed.

Lemma dict_wf_doc : dict_wf (map_sets Examples.config_doc).
Proof.
  unfold dict_wf. simpl. apply NoDup_cons. split; [|apply NoDup_singleton].
  by intros [=]%list_elem_of_singleton.
Qed.

Lemma ps_names_all_both_orders_witness :
  ∃ m l, fst (init Examples.config_doc Examples.fs0) = Ok m
    ∧ get_ps_names_list m "all" false = Ok l
    ∧ ("ms1__0", "ms2__0") ∈ l ∧ ("ms2__0", "ms1__0") ∈ l.
Proof.
  destruct (init_example (map_sets Examples.config_doc)) as [m Hm]; [done|].
  destruct (ps_names_all_both_orders Examples.config_doc Examples.fs0 m)
    as (l & Hl & Hboth); [apply dict_wf_doc | by repeat constructor | exact Hm |].
  exists m, l. split; [exact Hm|]. split; [exact Hl|].
  apply (Hboth "ms1" Examples.set_ms1 0%Z "ms2" Examples.set_ms2 0%Z);
    [by left | by right; left | discriminate | simpl; lia | simpl; lia].
Defined.

Lemma split_dunder_go_step (cur : string) (c c2 : ascii) (s2 : string) :
  split_dunder_go cur (String c (String c2 s2))
  = if decide (c = "_"%char ∧ c2 = "_"%char)
    then cur :: split_dunder_go "" s2
    else split_dunder_go (cur +:+ String c "") (String c2 s2).
Proof. reflexivity. Qed.

Lemma has_dunder_step (c c2 : ascii) (s2 : string) :
  has_dunder (String c (String c2 s2))
  = (bool_decide (c = "_"%char) && bool_decide (c2 = "_"%char))
    || has_dunder (String c2 s2).
Proof. reflexivity. Qed.

Lemma split_dunder_go_length (cur s : string) :
  1 ≤ length (split_dunder_go cur s).
Proof.
  remember (String.length s) as n eqn:Hn.
  revert s cur Hn. induction n as [n IH] using lt_wf_ind. intros s cur ->.
  destruct s as [|c [|c2 s2]]; [simpl; lia..|].
  rewrite split_dunder_go_step. case_decide; [simpl; lia|].
  eapply IH; [|reflexivity]. simpl. lia.
Qed.

Lemma has_dunder_split (cur s : string) :
  has_dunder s = true → 2 ≤ length (split_dunder_go cur s).
Proof.
  remember (String.length s) as n eqn:Hn.
  revert s cur Hn. induction n as [n IH] using lt_wf_ind. intros s cur -> Hs.
  destruct s as [|c [|c2 s2]]; [done..|].
  rewrite split_dunder_go_step. rewrite has_dunder_step in Hs.
  destruct (decide (c = "_"%char ∧ c2 = "_"%char)) as [Hcc|Hcc].
  - pose proof (split_dunder_go_length "" s2). simpl. lia.
  - assert (bool_decide (c = "_"%char) && bool_decide (c2 = "_"%char) = false)
      as Hb.
    { apply andb_false_iff.
      destruct (decide (c = "_"%char)) as [->|]; [right | left];
        apply bool_decide_eq_false_2; [|done]. intros ->. by apply Hcc. }
    rewrite Hb in Hs. eapply IH; [|reflexivity|exact Hs]. simpl. lia.
Qed.

Lemma has_dunder_tail (s d : string) :
  has_dunder (s +:+ String "_" (String "_" d)) = true.
Proof.
  induction s as [|c s IH]; [done|].
  rewrite str_app_cons. cbn [has_dunder].
  destruct (s +:+ String "_" (String "_" d)) eqn:Hs; [done|].
  rewrite IH. apply orb_true_r.
Qed.

(** An identifier whose map set has two underscores in a row splits into
    three pieces or more. *)
Lemma has_dunder_name (cur s d : string) :
  has_dunder s = true →
  3 ≤ length (split_dunder_go cur (s +:+ String "_" (String "_" d))).
Proof.
  remember (String.length s) as n eqn:Hn.
  revert s cur Hn. induction n as [n IH] using lt_wf_ind. intros s cur -> Hs.
  destruct s as [|c [|c2 s2]]; [done..|].
  rewrite !str_app_cons, split_dunder_go_step. rewrite has_dunder_step in Hs.
  destruct (decide (c = "_"%char ∧ c2 = "_"%char)) as [Hcc|Hcc].
  - pose proof (has_dunder_split "" _ (has_dunder_tail s2 d)). simpl. lia.
  - assert (bool_decide (c = "_"%char) && bool_decide (c2 = "_"%char) = false)
      as Hb.
    { apply andb_false_iff.
      destruct (decide (c = "_"%char)) as [->|]; [right | left];
        apply bool_decide_eq_false_2; [|done]. intros ->. by apply Hcc. }
    rewrite Hb in Hs. rewrite <- str_app_cons.
    eapply IH; [|reflexivity|exact Hs]. simpl. lia.
Qed.

Lemma unpack2_long (l : list string) :
  3 ≤ length l →
  unpack2 l = Raise (ValueError "too many values to unpack (expected 2)").
Proof. destruct l as [|a [|b [|c l]]]; simpl; (done || lia). Qed.

(** X13. A map set whose name has two underscores in a row breaks the loop
    on individual maps: the first identifier splits into more than two
    pieces, and [get_ps_names_list(coadd=False)] raises at its first pair,
    whatever the [type]. With [coadd=True] the same registry is served. *)
Theorem ps_names_dunder_set (c : Config) (fs : FS) (m : BBmeta)
    (s : string) (a : MapSet) (rest : list (string * MapSet)) (type : string) :
  fst (init c fs) = Ok m → map_sets c = (s, a) :: rest →
  has_dunder s = true → (0 < n_splits a)%Z →
  get_ps_names_list m type false
  = Raise (ValueError "too many values to unpack (expected 2)")
  ∧ ∃ l, get_ps_names_list m "all" true = Ok l.
Proof.
  intros (_ & _ & Hmaps)%init_fields Hms Hs Hn. split.
  - rewrite Hms in Hmaps. cbn [dict_keys fmap list_fmap fst _get_map_list] in Hmaps.
    unfold n_splits_from_map_set in Hmaps. cbn [dict_get] in Hmaps.
    rewrite decide_True in Hmaps by done.
    cbn [fmap result_fmap mbind result_bind] in Hmaps.
    destruct (_get_map_list _ _) as [tl|]; [|done].
    cbn [mbind result_bind] in Hmaps. injection Hmaps as Hmaps.
    unfold range in Hmaps. destruct (Z.to_nat (n_splits a)) as [|k] eqn:Hk; [lia|].
    cbn [seq fmap list_fmap map app] in Hmaps.
    unfold get_ps_names_list. rewrite <- Hmaps.
    unfold enumerate. cbn [imap for_each]. unfold ps_keep.
    unfold split_dunder, map_name.
    change ("__" +:+ pretty (Z.of_nat 0))
      with (String "_" (String "_" (pretty (Z.of_nat 0)))).
    by rewrite unpack2_long by (by apply has_dunder_name).
  - eexists. apply (get_ps_names_list_pure m "all" true
                      (λ i _ j _, bool_decide (i ≤ j))).
    intros. apply ps_keep_all_coadd.
Qed.

Lemma ps_names_dunder_set_witness :
  ∃ m, fst (init Examples.config_dunder Examples.fs0) = Ok m
    ∧ get_ps_names_list m "cross" false
      = Raise (ValueError "too many values to unpack (expected 2)").
Proof.
  destruct (init_example (map_sets Examples.config_dunder)) as [m Hm]; [done|].
  exists m. split; [exact Hm|].
  apply (ps_names_dunder_set Examples.config_dunder Examples.fs0 m
           "my__set" Examples.set_A [] "cross");
    [exact Hm | reflexivity | reflexivity | simpl; lia].
Defined.

Lemma tag_of_key (ms : list (string * MapSet)) (s : string) :
  s ∈ dict_keys ms → exp_tag_from_map_set ms s = Ok (Ref.tag_of ms s).
Proof.
  intros (a & Ha & _)%dict_get_key. unfold exp_tag_from_map_set, Ref.tag_of.
  by rewrite Ha.
Qed.

Lemma ps_keep_names (m : BBmeta) (type : string) (i j : nat)
    (s1 s2 : string) (k1 k2 : Z) :
  let ms := map_sets (config m) in
  plain_name s1 = true → plain_name s2 = true →
  s1 ∈ dict_keys ms → s2 ∈ dict_keys ms →
  ps_keep m type false i (map_name s1 k1) j (map_name s2 k2)
  = Ok (Ref.kept type s1 (pretty k1) (Ref.tag_of ms s1)
                      s2 (pretty k2) (Ref.tag_of ms s2)).
Proof.
  intros ms Hp1 Hp2 Ht1%tag_of_key Ht2%tag_of_key. unfold ps_keep, Ref.kept.
  rewrite !split_map_name by done. cbn [mbind result_bind].
  destruct (bool_decide (s1 = s2) && str_gt (pretty k1) (pretty k2)); [done|].
  fold ms. rewrite Ht1, Ht2. cbn [mbind result_bind negb andb].
  destruct (bool_decide (type = "cross") && bool_decide (_ = _) && bool_decide (_ = _));
    [done|].
  cbn [negb andb].
  by destruct (bool_decide (type = "auto") && bool_decide (_ ≠ _) && bool_decide (_ ≠ _)).
Qed.

(** The list on individual maps of a registry of plain names, for any
    [type]. *)
Lemma ps_names_maps_closed (c : Config) (fs : FS) (m : BBmeta) (type : string) :
  dict_wf (map_sets c) →
  Forall (λ s, plain_name s = true) (dict_keys (map_sets c)) →
  fst (init c fs) = Ok m →
  get_ps_names_list m type false = Ok (Ref.kept_pairs type (map_sets c)).
Proof.
  intros Hwf Hplain Hinit.
  destruct (init_maps_list c fs m Hwf Hinit) as [Hc Hmaps].
  set (idx := Ref.split_index (map_sets c)) in *.
  assert (∀ s k, (s, k) ∈ idx →
            plain_name s = true ∧ s ∈ dict_keys (map_sets (config m))) as Hidx.
  { intros s k Hin%split_index_key. rewrite Hc. split; [|done].
    by eapply Forall_forall in Hplain. }
  rewrite (get_ps_names_list_pure m type false (λ _ a _ b,
    match unpack2 (split_dunder a), unpack2 (split_dunder b) with
    | Ok (s1, k1), Ok (s2, k2) =>
        Ref.kept type s1 k1 (Ref.tag_of (map_sets c) s1)
                      s2 k2 (Ref.tag_of (map_sets c) s2)
    | _, _ => true
    end)).
  - f_equal. cbn [maps_list]. rewrite Hmaps.
    rewrite (bind_enumerate (λ a, '(j, b) ← enumerate _; _)).
    rewrite bind_fmap. unfold Ref.kept_pairs. fold idx.
    apply bind_ext_in. intros [s1 k1] H1.
    rewrite (bind_enumerate (λ b, if _ : bool then _ else _)).
    rewrite bind_fmap. apply bind_ext_in. intros [s2 k2] H2.
    destruct (Hidx _ _ H1) as [Hp1 _], (Hidx _ _ H2) as [Hp2 _].
    cbn [uncurry fst snd]. by rewrite !split_map_name by done.
  - intros i a j b Hi%enumerate_lookup%list_elem_of_lookup_2
      Hj%enumerate_lookup%list_elem_of_lookup_2.
    rewrite Hmaps in Hi, Hj.
    apply list_elem_of_fmap in Hi as ([s1 k1] & -> & H1).
    apply list_elem_of_fmap in Hj as ([s2 k2] & -> & H2).
    destruct (Hidx _ _ H1) as [Hp1 Hk1], (Hidx _ _ H2) as [Hp2 Hk2].
    cbn [uncurry]. rewrite ps_keep_names by done.
    rewrite !split_map_name by done. by rewrite Hc.
Qed.

(** X14. For a registry of plain names and [coadd=False], the list returned
    for any [type] is made, in loop order, of the ordered pairs of maps
    that pass three tests on their map sets, splits and tags: not (same map
    set and first split greater as a string); for ["cross"], not (same tag
    and same split); for ["auto"], not (different tags and different
    splits). *)
Theorem ps_names_maps_closed_form (c : Config) (fs : FS) (m : BBmeta)
    (type : string) :
  dict_wf (map_sets c) →
  Forall (λ s, plain_name s = true) (dict_keys (map_sets c)) →
  fst (init c fs) = Ok m →
  get_ps_names_list m type false = Ok (Ref.kept_pairs type (map_sets c)).
Proof. apply ps_names_maps_closed. Qed.

Lemma ps_names_maps_closed_form_witness :
  ∃ m, fst (init Examples.config_doc Examples.fs0) = Ok m
    ∧ get_ps_names_list m "cross" false
      = Ok [("ms1__0", "ms1__1");
            ("ms1__0", "ms2__0"); ("ms1__0", "ms2__1");
            ("ms1__1", "ms2__0"); ("ms1__1", "ms2__1");
            ("ms2__0", "ms1__0"); ("ms2__0", "ms1__1");
            ("ms2__0", "ms2__1");
            ("ms2__1", "ms1__0"); ("ms2__1", "ms1__1")].
Proof.
  destruct (init_example (map_sets Examples.config_doc)) as [m Hm]; [done|].
  exists m. split; [exact Hm|].
  rewrite (ps_names_maps_closed_form Examples.config_doc Examples.fs0 m "cross");
    [by vm_compute | apply dict_wf_doc | by repeat constructor | exact Hm].
Defined.

Lemma bind_sublist {A B} (f g : A → list B) (l : list A) :
  (∀ x, f x `sublist_of` g x) → (l ≫= f) `sublist_of` (l ≫= g).
Proof.
  intros Hfg. induction l as [|x l IH]; [done|].
  cbn [mbind list_bind]. by apply sublist_app.
Qed.

Lemma kept_all (type s1 k1 t1 s2 k2 t2 : string) :
  Ref.kept type s1 k1 t1 s2 k2 t2 = true →
  Ref.kept "all" s1 k1 t1 s2 k2 t2 = true.
Proof.
  unfold Ref.kept.
  rewrite (bool_decide_eq_false_2 ("all" = "cross")) by done.
  rewrite (bool_decide_eq_false_2 ("all" = "auto")) by done.
  cbn [andb negb]. rewrite !andb_true_r.
  by intros [[? _]%andb_prop _]%andb_prop.
Qed.

Lemma kept_cover (s1 k1 t1 s2 k2 t2 : string) :
  Ref.kept "all" s1 k1 t1 s2 k2 t2 = true →
  Ref.kept "auto" s1 k1 t1 s2 k2 t2 = true
  ∨ Ref.kept "cross" s1 k1 t1 s2 k2 t2 = true.
Proof.
  unfold Ref.kept.
  rewrite (bool_decide_eq_false_2 ("all" = "cross")) by done.
  rewrite (bool_decide_eq_false_2 ("all" = "auto")) by done.
  rewrite (bool_decide_eq_false_2 ("auto" = "cross")) by done.
  rewrite (bool_decide_eq_false_2 ("cross" = "auto")) by done.
  cbn [andb negb]. rewrite !andb_true_r. intros ->. cbn [andb].
  destruct (decide (t1 = t2)) as [Ht|Ht].
  - left. rewrite (bool_decide_eq_false_2 (t1 ≠ t2)) by (by intros ?).
    by rewrite andb_false_r.
  - right. rewrite (bool_decide_eq_false_2 (t1 = t2)) by done.
    by rewrite andb_false_r.
Qed.

(** X15. For a registry of plain names and [coadd=False], the lists for
    ["auto"] and for ["cross"] are both taken out of the list for ["all"],
    in its order, and every pair of ["all"] is in one of them at least. *)
Theorem ps_names_maps_cover (c : Config) (fs : FS) (m : BBmeta) :
  dict_wf (map_sets c) →
  Forall (λ s, plain_name s = true) (dict_keys (map_sets c)) →
  fst (init c fs) = Ok m →
  ∃ la lc lall,
    get_ps_names_list m "auto" false = Ok la
    ∧ get_ps_names_list m "cross" false = Ok lc
    ∧ get_ps_names_list m "all" false = Ok lall
    ∧ la `sublist_of` lall ∧ lc `sublist_of` lall
    ∧ ∀ p, p ∈ lall → p ∈ la ∨ p ∈ lc.
Proof.
  intros Hwf Hplain Hinit.
  exists (Ref.kept_pairs "auto" (map_sets c)),
         (Ref.kept_pairs "cross" (map_sets c)),
         (Ref.kept_pairs "all" (map_sets c)).
  split_and!; [by eapply ps_names_maps_closed.. | | |].
  - apply bind_sublist. intros p1. apply bind_sublist. intros p2.
    destruct (Ref.kept "auto" _ _ _ _ _ _) eqn:E; [|apply sublist_nil_l].
    by rewrite (kept_all _ _ _ _ _ _ _ E).
  - apply bind_sublist. intros p1. apply bind_sublist. intros p2.
    destruct (Ref.kept "cross" _ _ _ _ _ _) eqn:E; [|apply sublist_nil_l].
    by rewrite (kept_all _ _ _ _ _ _ _ E).
  - intros p Hp. unfold Ref.kept_pairs in Hp.
    apply list_elem_of_bind in Hp as (p1 & Hp & H1).
    apply list_elem_of_bind in Hp as (p2 & Hp & H2).
    destruct (Ref.kept "all" _ _ _ _ _ _) eqn:E; [|by apply elem_of_nil in Hp].
    apply list_elem_of_singleton in Hp as ->.
    destruct (kept_cover _ _ _ _ _ _ E) as [Ea|Ec]; [left | right];
      (apply list_elem_of_bind; exists p1; split; [|done];
       apply list_elem_of_bind; exists p2; split; [|done]).
    + rewrite Ea. by left.
    + rewrite Ec. by left.
Qed.

Lemma ps_names_maps_cover_witness :
  ∃ m la lc lall,
    fst (init Examples.config_doc Examples.fs0) = Ok m
    ∧ get_ps_names_list m "auto" false = Ok la
    ∧ get_ps_names_list m "cross" false = Ok lc
    ∧ get_ps_names_list m "all" false = Ok lall
    ∧ la `sublist_of` lall ∧ lc `sublist_of` lall.
Proof.
  destruct (init_example (map_sets Examples.config_doc)) as [m Hm]; [done|].
  destruct (ps_names_maps_cover Examples.config_doc Examples.fs0 m)
    as (la & lc & lall & Ha & Hc & Hall & Hsa & Hsc & _);
    [apply dict_wf_doc | by repeat constructor | exact Hm |].
  exists m, la, lc, lall.
  exact (conj Hm (conj Ha (conj Hc (conj Hall (conj Hsa Hsc))))).
Defined.

(** * More on [get_pcls] *)

Lemma bins_pad_ok (c : ndarray Z) :
  shape (bin_cell Examples.bins_pad c) = [4; 2]
  ∧ wf (bin_cell Examples.bins_pad c).
Proof.
  split; [done|]. unfold wf. cbn [bin_cell Examples.bins_pad shape data].
  rewrite length_take, length_app, length_replicate. unfold size_of.
  cbn [foldr]. lia.
Qed.

Lemma Z_collab_readable (fnames : list string) :
  "missing.fits" ∉ fnames →
  ∀ f, f ∈ fnames → ∃ maps, @hp_read_map Z Examples.Z_collab f = Ok maps.
Proof.
  intros Hnot f Hin. cbn [hp_read_map Examples.Z_collab].
  destruct (decide (f = "missing.fits")) as [->|]; [done | by eexists].
Qed.

Section PclMore.
Context {R : Type} `{Arith R} `{Collab R}.

(** What the "Read maps" loop does to the outside, whatever its outcome. *)
Lemma read_fields_trace (fnames : list string) (msk : mask) (acc : list field)
    (tr tr' : list (event R)) (r : result (list field)) :
  read_fields fnames msk acc tr = (r, tr') →
  ∃ evs, tr' = tr ++ evs
    ∧ Forall (λ ev, ∃ f, f ∈ fnames ∧ (ev = EvReadMap f ∨ ev = EvNmtField f)) evs.
Proof.
  revert acc tr. induction fnames as [|f fnames IH]; intros acc tr Hrun.
  - injection Hrun as <- <-. exists []. by rewrite app_nil_r.
  - cbn [read_fields] in Hrun. unfold mbind, st_bind, emit, lift in Hrun.
    destruct (hp_read_map f) as [[mpQ mpU]|e].
    + apply IH in Hrun as (evs & -> & Hall).
      exists (EvReadMap f :: EvNmtField f :: evs).
      split; [by rewrite <- !app_assoc|].
      constructor; [exists f; split; [left | by left]|].
      constructor; [exists f; split; [left | by right]|].
      eapply Forall_impl; [exact Hall|]. intros ev (g & Hg & Hev).
      exists g. split; [by right | done].
    + injection Hrun as <- <-. exists [EvReadMap f]. split; [done|].
      constructor; [|done]. exists f. split; [left | by left].
Qed.

(** The steps of [get_pcls], one after the other. *)
Lemma get_pcls_unfold (fnames names : list string) (fname_out : string)
    (msk : mask) (binning : NmtBin R) (winv : option (ndarray R))
    (tr : list (event R)) :
  get_pcls fnames names fname_out msk binning winv tr
  = match check_winv binning winv with
    | Raise e => (Raise e, tr)
    | Ok w2 =>
        match read_fields fnames msk [] tr with
        | (Raise e, tr1) => (Raise e, tr1)
        | (Ok fields, tr1) =>
            match compute_cls binning w2 fields with
            | Raise e => (Raise e, tr1)
            | Ok cls =>
                match save_cls names (get_effective_ells binning) cls
                        (length fields) with
                | Raise e => (Raise e, tr1)
                | Ok s => (Ok (), tr1 ++ [EvSaveFits fname_out s])
                end
            end
        end
    end.
Proof.
  unfold get_pcls, mbind, st_bind, lift, emit.
  destruct (check_winv binning winv) as [w2|e0]; [|done].
  destruct (read_fields fnames msk [] tr) as [[fields|e1] tr1]; [|done].
  destruct (compute_cls binning w2 fields) as [cls|e2]; [|done].
  by destruct (save_cls _ _ _ _).
Qed.

(** X17. An exception raised by one of the steps that come before
    [save_fits] (the shape check, the reader of a map, a spectrum, the
    building of the sacc object) ends the call with that exception, and
    [save_fits] is not called: all that has been done to the outside is to
    read maps of [fnames] and to build fields from them. *)
Theorem get_pcls_failure_no_save (fnames names : list string)
    (fname_out : string) (msk : mask) (binning : NmtBin R)
    (winv : option (ndarray R)) (tr : list (event R)) (e : exn) :
  (check_winv binning winv = Raise e →
     get_pcls fnames names fname_out msk binning winv tr = (Raise e, tr))
  ∧ (∀ w2 tr1,
       check_winv binning winv = Ok w2 →
       read_fields fnames msk [] tr = (Raise e, tr1) →
       get_pcls fnames names fname_out msk binning winv tr = (Raise e, tr1)
       ∧ ∃ evs, tr1 = tr ++ evs
           ∧ Forall (λ ev, ∃ f, f ∈ fnames
                                ∧ (ev = EvReadMap f ∨ ev = EvNmtField f)) evs)
  ∧ (∀ w2 fields tr1,
       check_winv binning winv = Ok w2 →
       read_fields fnames msk [] tr = (Ok fields, tr1) →
       compute_cls binning w2 fields = Raise e
       ∨ (∃ cls, compute_cls binning w2 fields = Ok cls
            ∧ save_cls names (get_effective_ells binning) cls (length fields)
              = Raise e) →
       get_pcls fnames names fname_out msk binning winv tr = (Raise e, tr1)
       ∧ tr1 = tr ++ Ref.read_events fnames).
Proof.
  split_and!.
  - intros Hw. by rewrite get_pcls_unfold, Hw.
  - intros w2 tr1 Hw Hread. rewrite get_pcls_unfold, Hw, Hread.
    split; [done|]. by eapply read_fields_trace.
  - intros w2 fields tr1 Hw Hread Hfail. rewrite get_pcls_unfold, Hw, Hread.
    apply read_fields_Ok in Hread as [_ ->]. split; [|done].
    destruct Hfail as [->|(cls & -> & ->)]; done.
Qed.

Lemma read_fields_app (pre rest : list string) (msk : mask) (acc : list field)
    (tr : list (event R)) :
  (∀ f, f ∈ pre → ∃ maps, hp_read_map f = Ok maps) →
  ∃ fields, read_fields (pre ++ rest) msk acc tr
            = read_fields rest msk fields (tr ++ Ref.read_events pre).
Proof.
  unfold Ref.read_events.
  revert acc tr. induction pre as [|f pre IH]; intros acc tr Hread.
  - exists acc. simpl. by rewrite app_nil_r.
  - cbn [app read_fields]. unfold mbind at 1 2 3, st_bind, emit, lift.
    destruct (Hread f) as [[mpQ mpU] ->]; [left|].
    destruct (IH (acc ++ [NmtField msk mpQ mpU]) ((tr ++ [EvReadMap f])
                ++ [EvNmtField f])) as [fields ->].
    { intros ??. apply Hread. by right. }
    exists fields. f_equal. cbn [mbind list_bind]. by rewrite <- !app_assoc.
Qed.

(** X18. The first file that cannot be read ends the call with the
    reader's exception: the files before it have been read and made into
    fields, the ones after it are not touched. *)
Theorem get_pcls_unreadable (pre post names : list string) (f fname_out : string)
    (msk : mask) (binning : NmtBin R) (winv w2 : option (ndarray R))
    (tr : list (event R)) (e : exn) :
  check_winv binning winv = Ok w2 →
  (∀ g, g ∈ pre → ∃ maps, hp_read_map g = Ok maps) →
  hp_read_map f = Raise e →
  get_pcls (pre ++ f :: post) names fname_out msk binning winv tr
  = (Raise e, tr ++ Ref.read_events pre ++ [EvReadMap f]).
Proof.
  intros Hw Hpre Hf. unfold get_pcls. unfold mbind at 1, st_bind, lift.
  rewrite Hw. unfold mbind at 1, st_bind.
  destruct (read_fields_app pre (f :: post) msk [] tr Hpre) as [fields ->].
  cbn [read_fields]. unfold mbind at 1 2, st_bind, emit, lift. rewrite Hf.
  by rewrite <- app_assoc.
Qed.

Lemma for_each_raises {A S} (body : A → S → result S) (l : list A) (s : S)
    (e : exn) :
  (∀ x s0, x ∈ l → (∃ s1, body x s0 = Ok s1) ∨ body x s0 = Raise e) →
  (∃ x, x ∈ l ∧ ∀ s0, body x s0 = Raise e) →
  for_each l body s = Raise e.
Proof.
  revert s. induction l as [|a l IH]; intros s Hall (x & Hin & Hx).
  - by apply elem_of_nil in Hin.
  - cbn [for_each]. destruct (Hall a s) as [[s1 Hs1]|Hr]; [left | |by rewrite Hr].
    rewrite Hs1. cbn [mbind result_bind].
    apply elem_of_cons in Hin as [->|Hin]; [by rewrite Hx in Hs1|].
    apply IH; [|by exists x]. intros y s0 Hy. apply Hall. by right.
Qed.

(** The first three steps of a call on readable files with a binning that
    gives 4 x nbands arrays. *)
Lemma pcl_steps (fnames : list string) (msk : mask) (binning : NmtBin R)
    (winv : option (ndarray R)) (tr : list (event R)) :
  let nb := get_n_bands binning in
  (∀ f, f ∈ fnames → ∃ maps, hp_read_map f = Ok maps) →
  (∀ c, shape (bin_cell binning c) = [4; nb] ∧ wf (bin_cell binning c)) →
  (∀ w, winv = Some w → shape w = [4; nb; 4; nb] ∧ wf w) →
  ∃ w2 fields cls,
    check_winv binning winv = Ok w2
    ∧ read_fields fnames msk [] tr = (Ok fields, tr ++ Ref.read_events fnames)
    ∧ length fields = length fnames
    ∧ compute_cls binning w2 fields = Ok cls
    ∧ ∀ icl i j, (icl, i, j) ∈ cl_pair_iter (length fields) →
        i ≤ j < length fields
        ∧ ∃ pcl, cls !! icl = Some pcl ∧ shape pcl = [4; nb].
Proof.
  intros nb Hread Hbin Hwinv.
  assert (∃ w2, check_winv binning winv = Ok w2
            ∧ ∀ w, w2 = Some w → shape w = [4 * nb; 4 * nb]) as (w2 & Hw2 & Hsh2).
  { destruct winv as [w|]; [|by exists None].
    destruct (Hwinv w eq_refl) as [Hsh Hwf]. unfold check_winv. fold nb.
    rewrite decide_False by (by intros ?). unfold reshape.
    rewrite decide_True.
    - eexists. split; [done|]. by intros ? [= <-].
    - unfold wf in Hwf. rewrite Hwf, Hsh. unfold size_of. simpl. lia. }
  destruct (read_fields_total fnames msk [] tr Hread) as [fields Hfields].
  pose proof (read_fields_Ok _ _ _ _ _ _ Hfields) as [Hlen _]. simpl in Hlen.
  assert (∀ icl i j, (icl, i, j) ∈ cl_pair_iter (length fields) →
            i ≤ j < length fields) as Hidx.
  { intros icl i j Hin. apply index_pairs_elem.
    rewrite cl_pair_iter_enum in Hin.
    apply elem_of_lookup_imap in Hin as (k & [i' j'] & [= -> -> ->] & Hk).
    by eapply list_elem_of_lookup_2. }
  assert (∀ icl i j, (icl, i, j) ∈ cl_pair_iter (length fields) →
            ∃ pcl, spectrum binning w2 fields i j = Ok pcl
                   ∧ shape pcl = [4; nb]) as Hspec.
  { intros icl i j Hin. pose proof (Hidx icl i j Hin) as Hij.
    unfold spectrum, list_get.
    destruct (lookup_lt_is_Some_2 fields i) as [f1 ->]; [lia|].
    destruct (lookup_lt_is_Some_2 fields j) as [f2 ->]; [lia|].
    cbn [mbind result_bind]. unfold binned.
    destruct (Hbin (compute_coupled_cell f1 f2)) as [Hsh Hwf].
    destruct w2 as [w|]; [|by eexists].
    fold nb. by apply deconvolve_shape; [apply Hsh2|..]. }
  destruct (for_each_collect_total
              (λ t, spectrum binning w2 fields t.1.2 t.2)
              (λ '(icl, i, j) cls, pcl ← spectrum binning w2 fields i j;
                                   Ok (cls ++ [pcl]))
              (cl_pair_iter (length fields)) []) as [cls Hcls].
  { by intros [[icl i] j] acc. }
  { intros [[icl i] j] Hin. destruct (Hspec icl i j Hin) as (pcl & ? & _).
    by exists pcl. }
  fold (compute_cls binning w2 fields) in Hcls.
  exists w2, fields, cls. split_and!; [done | done | done | done |].
  intros icl i j Hin. split; [by eapply Hidx|].
  destruct (compute_cls_lookup _ _ _ _ _ _ _ Hcls Hin) as (pcl & Hpcl & Hlook).
  destruct (Hspec icl i j Hin) as (pcl' & Hpcl' & Hsh).
  exists pcl. split; [done | congruence].
Qed.

(** X16. With readable files, a name for each of them, a binning that gives
    4 x nbands arrays, and no operator or one of the right shape, no step
    of [get_pcls] before [save_fits] raises: the check passes, each file is
    read once, in order, each spectrum is computed, the sacc object is
    built, and [save_fits] is called on it with [fname_out]. *)
Theorem get_pcls_reaches_save (fnames names : list string) (fname_out : string)
    (msk : mask) (binning : NmtBin R) (winv : option (ndarray R))
    (tr : list (event R)) :
  let nb := get_n_bands binning in
  (∀ f, f ∈ fnames → ∃ maps, hp_read_map f = Ok maps) →
  length fnames ≤ length names →
  (∀ c, shape (bin_cell binning c) = [4; nb] ∧ wf (bin_cell binning c)) →
  (∀ w, winv = Some w → shape w = [4; nb; 4; nb] ∧ wf w) →
  ∃ w2 fields cls s,
    check_winv binning winv = Ok w2
    ∧ read_fields fnames msk [] tr = (Ok fields, tr ++ Ref.read_events fnames)
    ∧ compute_cls binning w2 fields = Ok cls
    ∧ save_cls names (get_effective_ells binning) cls (length fields) = Ok s
    ∧ snd (get_pcls fnames names fname_out msk binning winv tr)
      = tr ++ Ref.read_events fnames ++ [EvSaveFits fname_out s].
Proof.
  intros nb Hread Hnames Hbin Hwinv.
  destruct (pcl_steps fnames msk binning winv tr Hread Hbin Hwinv)
    as (w2 & fields & cls & Hw2 & Hfields & Hlen & Hcls & Hcl).
  destruct (for_each_total
              (λ '(icl, i, j) s,
                 save_pair names (get_effective_ells binning) cls icl i j s)
              (cl_pair_iter (length fields))
              (foldl (λ s n, add_tracer s "Misc" n)
                     {| tracers := []; ell_cls := [] |} names)) as [s Hs].
  { intros [[icl i] j] s0 Hin.
    destruct (Hcl icl i j Hin) as (Hij & pcl & Hlook & Hsh).
    unfold save_pair, list_get. rewrite Hlook.
    destruct (lookup_lt_is_Some_2 names i) as [ni ->]; [lia|].
    destruct (lookup_lt_is_Some_2 names j) as [nj ->]; [lia|].
    cbn [mbind result_bind].
    destruct (getitem_row pcl 4 [nb] 0) as [ee ->]; [done | lia |].
    destruct (getitem_row pcl 4 [nb] 1) as [eb ->]; [done | lia |].
    destruct (getitem_row pcl 4 [nb] 2) as [be ->]; [done | lia |].
    destruct (getitem_row pcl 4 [nb] 3) as [bb ->]; [done | lia |].
    cbn [mbind result_bind]. case_decide; by eexists. }
  fold (save_cls names (get_effective_ells binning) cls (length fields)) in Hs.
  exists w2, fields, cls, s. split_and!; [done | done | done | done |].
  rewrite get_pcls_unfold, Hw2, Hfields, Hcls, Hs. cbn [snd].
  by rewrite <- app_assoc.
Qed.

(** X19. With fewer names than files, [get_pcls] raises [IndexError], and
    only in the last loop: by then every map has been read and every
    spectrum computed, and nothing is saved. *)
Theorem get_pcls_short_names (fnames names : list string) (fname_out : string)
    (msk : mask) (binning : NmtBin R) (winv : option (ndarray R))
    (tr : list (event R)) :
  let nb := get_n_bands binning in
  (∀ f, f ∈ fnames → ∃ maps, hp_read_map f = Ok maps) →
  length names < length fnames →
  (∀ c, shape (bin_cell binning c) = [4; nb] ∧ wf (bin_cell binning c)) →
  (∀ w, winv = Some w → shape w = [4; nb; 4; nb] ∧ wf w) →
  get_pcls fnames names fname_out msk binning winv tr
  = (Raise IndexError, tr ++ Ref.read_events fnames).
Proof.
  intros nb Hread Hnames Hbin Hwinv.
  destruct (pcl_steps fnames msk binning winv tr Hread Hbin Hwinv)
    as (w2 & fields & cls & Hw2 & Hfields & Hlen & Hcls & Hcl).
  unfold get_pcls, mbind, st_bind, lift. rewrite Hw2, Hfields, Hcls.
  unfold save_cls. rewrite for_each_raises with (e := IndexError); [done | |].
  - intros [[icl i] j] s0 Hin.
    destruct (Hcl icl i j Hin) as (Hij & pcl & Hlook & Hsh).
    unfold save_pair, list_get.
    destruct (names !! i) as [ni|]; [|by right].
    destruct (names !! j) as [nj|]; [|by right].
    rewrite Hlook. cbn [mbind result_bind]. left.
    destruct (getitem_row pcl 4 [nb] 0) as [ee ->]; [done | lia |].
    destruct (getitem_row pcl 4 [nb] 1) as [eb ->]; [done | lia |].
    destruct (getitem_row pcl 4 [nb] 2) as [be ->]; [done | lia |].
    destruct (getitem_row pcl 4 [nb] 3) as [bb ->]; [done | lia |].
    cbn [mbind result_bind]. case_decide; by eexists.
  - assert ((0, length names) ∈ Ref.index_pairs (length fields))
      as [k Hk]%list_elem_of_lookup by (apply index_pairs_elem; lia).
    exists (k, 0, length names). split.
    + rewrite cl_pair_iter_enum. apply elem_of_lookup_imap.
      by exists k, (0, length names).
    + intros s0. unfold save_pair, list_get.
      destruct (names !! 0) as [n0|]; [|done]. cbn [mbind result_bind].
      by rewrite (lookup_ge_None_2 names (length names)) by lia.
Qed.

Lemma concat_lengths {A B} (w : A → nat) (l : list A) (blocks : list (list B)) :
  Forall2 (λ t blk, length blk = w t) l blocks →
  length (concat blocks) = sum_list (w <$> l).
Proof.
  induction 1 as [|t blk l blocks Hblk _ IH]; [done|].
  simpl. rewrite length_app. by rewrite Hblk, IH.
Qed.

Lemma fmap_imap_proj {A B C} (w : B → C) (w' : A → C) (l : list A)
    (f : nat → A → B) :
  (∀ k p, w (f k p) = w' p) → w <$> imap f l = w' <$> l.
Proof.
  revert f. induction l as [|x l IH]; intros f Hf; [done|].
  rewrite imap_cons. cbn [fmap list_fmap]. rewrite Hf. f_equal.
  apply IH. intros. apply Hf.
Qed.

Lemma row_count (a b k : nat) :
  a < b →
  sum_list ((λ p : nat * nat, if decide (p.1 = p.2) then 3 else 4)
              <$> (pair a <$> seq b k)) = 4 * k.
Proof.
  revert b. induction k as [|k IH]; intros b Hab; [done|].
  cbn [seq fmap list_fmap sum_list sum_list_with fst snd].
  rewrite decide_False by lia.
  cbn [fmap list_fmap] in IH. rewrite IH by lia. unfold id. lia.
Qed.

Lemma rows_count (n i0 m : nat) :
  i0 + m = n →
  sum_list ((λ p : nat * nat, if decide (p.1 = p.2) then 3 else 4)
              <$> (i ← seq i0 m; pair i <$> seq i (n - i)))
  = m * (2 * m + 1).
Proof.
  revert i0. induction m as [|m IH]; intros i0 Hn; [done|].
  cbn [seq mbind list_bind]. rewrite fmap_app, sum_list_with_app.
  rewrite (IH (S i0)) by lia.
  replace (n - i0) with (S m) by lia. cbn [seq fmap list_fmap].
  cbn [sum_list sum_list_with fst snd]. rewrite decide_True by done.
  pose proof (row_count i0 (S i0) m) as Hrow. cbn [fmap list_fmap] in Hrow.
  rewrite Hrow by lia. unfold id. lia.
Qed.

(** X21. A call that returns on [n] files has saved [n(2n+1)] records,
    three for each of the [n] pairs [(i, i)] and four for each of the
    [n(n-1)/2] others, and one tracer for each name, also for the names
    beyond the [n]-th. *)
Theorem get_pcls_record_count (fnames names : list string) (fname_out : string)
    (msk : mask) (binning : NmtBin R) (winv : option (ndarray R))
    (tr tr' : list (event R)) :
  get_pcls fnames names fname_out msk binning winv tr = (Ok (), tr') →
  ∃ s : Sacc R,
    last tr' = Some (EvSaveFits fname_out s)
    ∧ length (ell_cls s) = length fnames * (2 * length fnames + 1)
    ∧ length (tracers s) = length names.
Proof.
  intros (w2 & fields & cls & s & _ & Hlen & _ & Hsave & ->)%get_pcls_Ok.
  exists s. split; [by rewrite !app_assoc, last_snoc|].
  unfold save_cls in Hsave.
  destruct (tracers_foldl names ({| tracers := []; ell_cls := [] |} : Sacc R))
    as [Ht He].
  set (s0 := foldl _ _ names) in *. simpl in Ht, He.
  assert (tracers s = tracers s0) as Htr.
  { eapply (for_each_inv (λ s, tracers s = tracers s0)); [|done|exact Hsave].
    intros [[icl i] j] s1 s2 [Hs2 _]%save_pair_Ok Hs1. congruence. }
  split; [|by rewrite Htr, Ht, length_fmap].
  apply (for_each_blocks ell_cls (λ t blk,
           length blk = (if decide (t.1.2 = t.2) then 3 else 4))) in Hsave
    as (blocks & Hblocks & Hall).
  - rewrite Hblocks, He. cbn [app].
    rewrite (concat_lengths _ _ _ Hall), Hlen, cl_pair_iter_enum.
    rewrite (fmap_imap_proj _ (λ p : nat * nat, if decide (p.1 = p.2) then 3 else 4))
      by done.
    apply (rows_count (length fnames) 0 (length fnames)). done.
  - intros [[icl i] j] s1 s2 _ (_ & pcl & blk & _ & Hell & Hblk)%save_pair_Ok.
    exists blk. split; [done|]. cbn [fst snd].
    destruct Hblk as [Htypes _]. apply (f_equal length) in Htypes.
    rewrite length_fmap in Htypes. rewrite Htypes. unfold Ref.pair_types.
    by case_decide.
Qed.

End PclMore.

Lemma get_pcls_reaches_save_witness :
  ∃ s, snd (@get_pcls Z Examples.Z_arith Examples.Z_collab
              ["a.fits"; "bb.fits"] ["n1"; "n2"; "n3"] "out.fits" ()
              Examples.bins_pad
              (Some (@Ref.identity_winv Z Examples.Z_arith 2)) [])
       = Ref.read_events ["a.fits"; "bb.fits"] ++ [EvSaveFits "out.fits" s].
Proof.
  destruct (@get_pcls_reaches_save Z Examples.Z_arith Examples.Z_collab
           ["a.fits"; "bb.fits"] ["n1"; "n2"; "n3"] "out.fits" ()
           Examples.bins_pad (Some (@Ref.identity_winv Z Examples.Z_arith 2)) [])
    as (w2 & fields & cls & s & _ & _ & _ & _ & Htrace).
  - apply Z_collab_readable.
    intros [[=]|[[=]|[]%elem_of_nil]%elem_of_cons]%elem_of_cons.
  - simpl. lia.
  - apply bins_pad_ok.
  - intros w [= <-]. split; [reflexivity | by vm_compute].
  - exists s. exact Htrace.
Defined.

Lemma get_pcls_failure_no_save_witness :
  @get_pcls Z Examples.Z_arith Examples.Z_collab
    ["a.fits"; "missing.fits"; "c.fits"] ["n1"; "n2"; "n3"] "out.fits" ()
    Examples.bins2 None []
  = (Raise (FileNotFoundError "missing.fits"),
     [EvReadMap "a.fits"; EvNmtField "a.fits"; EvReadMap "missing.fits"]).
Proof.
  destruct (@get_pcls_failure_no_save Z Examples.Z_arith
              Examples.Z_collab ["a.fits"; "missing.fits"; "c.fits"]
              ["n1"; "n2"; "n3"] "out.fits" () Examples.bins2 None []
              (FileNotFoundError "missing.fits")) as (_ & Hread & _).
  destruct (Hread None
              [EvReadMap "a.fits"; EvNmtField "a.fits"; EvReadMap "missing.fits"])
    as [Hrun _]; [reflexivity | reflexivity |].
  exact Hrun.
Defined.

Lemma get_pcls_unreadable_witness :
  @get_pcls Z Examples.Z_arith Examples.Z_collab
    ["a.fits"; "missing.fits"; "c.fits"] ["n1"; "n2"; "n3"] "out.fits" ()
    Examples.bins2 None []
  = (Raise (FileNotFoundError "missing.fits"),
     [EvReadMap "a.fits"; EvNmtField "a.fits"; EvReadMap "missing.fits"]).
Proof.
  apply (@get_pcls_unreadable Z Examples.Z_arith Examples.Z_collab
           ["a.fits"] ["c.fits"] ["n1"; "n2"; "n3"] "missing.fits" "out.fits" ()
           Examples.bins2 None None [] (FileNotFoundError "missing.fits")).
  - reflexivity.
  - apply Z_collab_readable. intros [[=]|[]%elem_of_nil]%elem_of_cons.
  - reflexivity.
Defined.

Lemma get_pcls_short_names_witness :
  @get_pcls Z Examples.Z_arith Examples.Z_collab
    ["a.fits"; "bb.fits"] ["n1"] "out.fits" () Examples.bins_pad None []
  = (Raise IndexError, Ref.read_events ["a.fits"; "bb.fits"]).
Proof.
  apply (@get_pcls_short_names Z Examples.Z_arith Examples.Z_collab
           ["a.fits"; "bb.fits"] ["n1"] "out.fits" () Examples.bins_pad None []).
  - apply Z_collab_readable.
    intros [[=]|[[=]|[]%elem_of_nil]%elem_of_cons]%elem_of_cons.
  - simpl. lia.
  - apply bins_pad_ok.
  - discriminate.
Defined.

Lemma get_pcls_record_count_witness :
  ∃ tr' s,
    @get_pcls Z Examples.Z_arith Examples.Z_collab
      ["a.fits"; "bb.fits"] ["n1"; "n2"] "out.fits" () Examples.bins2 None []
    = (Ok (), tr')
    ∧ last tr' = Some (EvSaveFits "out.fits" s)
    ∧ length (ell_cls s) = 10.
Proof.
  destruct (@get_pcls Z Examples.Z_arith Examples.Z_collab
      ["a.fits"; "bb.fits"] ["n1"; "n2"] "out.fits" () Examples.bins2 None [])
    as [r tr'] eqn:Hrun.
  assert (r = Ok ()) as -> by (by apply (f_equal fst) in Hrun; vm_compute in Hrun).
  destruct (@get_pcls_record_count Z Examples.Z_arith Examples.Z_collab
              _ _ _ _ _ _ _ _ Hrun) as (s & Hlast & Hlen & _).
  exists tr', s. split; [reflexivity|]. split; [exact Hlast | exact Hlen].
Defined.

(** * The other path functions of [BBmeta] *)

(** X22. [get_fname_mask] reads [mask_directory] before it looks at
    [map_type]: without that key the call raises [KeyError], whatever the
    type; with it, a type other than the three known ones raises
    [ValueError]; and a known type needs its own key only. *)
Theorem get_fname_mask_outcomes (masks : list (string * string))
    (map_type : string) :
  ("mask_directory" ∉ dict_keys masks →
     MetaMore.get_fname_mask masks map_type = Raise (KeyError "mask_directory"))
  ∧ ("mask_directory" ∈ dict_keys masks →
     map_type ∉ ["analysis"; "binary"; "point_source"] →
     ∃ msg, MetaMore.get_fname_mask masks map_type = Raise (ValueError msg))
  ∧ (∀ base f, dict_get masks "mask_directory" = Ok base →
       map_type ∈ ["analysis"; "binary"; "point_source"] →
       dict_get masks (map_type +:+ "_mask") = Ok f →
       MetaMore.get_fname_mask masks map_type = Ok (path_join base f)).
Proof.
  split_and!.
  - intros Hno. unfold MetaMore.get_fname_mask.
    by rewrite (dict_get_missing masks "mask_directory") by done.
  - intros (base & Hb & _)%dict_get_key Hty. unfold MetaMore.get_fname_mask.
    rewrite Hb. cbn [mbind result_bind].
    rewrite !not_elem_of_cons in Hty. destruct Hty as (? & ? & ? & _).
    rewrite !decide_False by done. by eexists.
  - intros base f Hb Hin Hf. unfold MetaMore.get_fname_mask.
    rewrite Hb. cbn [mbind result_bind].
    rewrite !elem_of_cons in Hin.
    destruct Hin as [->|[->|[->|Hin]]]; [..|by apply elem_of_nil in Hin].
    + change ("analysis" +:+ "_mask") with "analysis_mask" in Hf.
      rewrite decide_True by done. by rewrite Hf.
    + change ("binary" +:+ "_mask") with "binary_mask" in Hf.
      rewrite decide_False by done. rewrite decide_True by done. by rewrite Hf.
    + change ("point_source" +:+ "_mask") with "point_source_mask" in Hf.
      rewrite !decide_False by done. rewrite decide_True by done. by rewrite Hf.
Qed.

Lemma get_fname_mask_outcomes_witness :
  MetaMore.get_fname_mask [("mask_directory", "/m"); ("binary_mask", "b.fits")]
    "binary" = Ok "/m/b.fits"
  ∧ MetaMore.get_fname_mask [("binary_mask", "b.fits")] "nonsense"
    = Raise (KeyError "mask_directory").
Proof.
  split.
  - apply (proj2 (proj2 (get_fname_mask_outcomes
             [("mask_directory", "/m"); ("binary_mask", "b.fits")] "binary"))
             "/m" "b.fits");
      [reflexivity | by right; left | reflexivity].
  - apply (proj1 (get_fname_mask_outcomes [("binary_mask", "b.fits")] "nonsense")).
    intros [[=]|[]%elem_of_nil]%elem_of_cons.
Defined.

Lemma str_app_inv_head (a x y : string) : a +:+ x = a +:+ y → x = y.
Proof.
  induction a as [|c a IH]; [done|]. rewrite !str_app_cons. intros [= Heq].
  by apply IH.
Qed.

Lemma digits_prefix_inj (a b t : string) :
  str_forall is_digit_or_minus a = true →
  str_forall is_digit_or_minus b = true →
  a +:+ String "." t = b +:+ String "." t → a = b.
Proof.
  revert b. induction a as [|c a IH]; intros [|d b] Ha Hb Heq.
  - done.
  - rewrite str_app_cons in Heq. change ("" +:+ String "." t) with (String "." t) in Heq.
    injection Heq as <- _. by vm_compute in Hb.
  - rewrite str_app_cons in Heq. change ("" +:+ String "." t) with (String "." t) in Heq.
    injection Heq as -> _. by vm_compute in Ha.
  - rewrite !str_app_cons in Heq. injection Heq as -> Heq.
    simpl in Ha, Hb. apply andb_prop in Ha as [_ Ha]. apply andb_prop in Hb as [_ Hb].
    by rewrite (IH b Ha Hb Heq).
Qed.

(** X23. The file names of [get_map_filename_transfer2]: [pure_type=None]
    and [pure_type=""] name the same file; two simulation indices never
    share a file; and a [cl_type] without its [{cl_type}_sims_dir]
    attribute raises [AttributeError]. *)
Theorem get_map_filename_transfer2_names (m : BBmeta) (cl_type : string)
    (pure_type : option string) :
  (∀ id_sim, MetaMore.get_map_filename_transfer2 m id_sim cl_type None
             = MetaMore.get_map_filename_transfer2 m id_sim cl_type (Some ""))
  ∧ (∀ i j p,
       MetaMore.get_map_filename_transfer2 m i cl_type pure_type = Ok p →
       MetaMore.get_map_filename_transfer2 m j cl_type pure_type = Ok p →
       i = j)
  ∧ (cl_type ∉ ["tf_est"; "tf_val"; "cosmo"] →
     attrs m !! (cl_type +:+ "_sims_dir") = None →
     ∀ id_sim, MetaMore.get_map_filename_transfer2 m id_sim cl_type pure_type
               = Raise (AttributeError (cl_type +:+ "_sims_dir"))).
Proof.
  split_and!.
  - done.
  - intros i j p. unfold MetaMore.get_map_filename_transfer2.
    destruct (MetaMore.sims_dir_attr m cl_type) as [d|e]; [|done].
    cbn [mbind result_bind]. intros [= <-] [= Heq].
    repeat apply str_app_inv_head in Heq.
    apply format_04d_eq_inv. symmetry.
    apply (digits_prefix_inj _ _ "fits"); [apply format_04d_shape.. | exact Heq].
  - intros Hty Hno id_sim. unfold MetaMore.get_map_filename_transfer2,
      MetaMore.sims_dir_attr, getattr.
    rewrite !not_elem_of_cons in Hty. destruct Hty as (? & ? & ? & _).
    rewrite !decide_False by done. by rewrite Hno.
Qed.

Lemma get_map_filename_transfer2_names_witness :
  ∃ m, fst (init Examples.config_A Examples.fs0) = Ok m
    ∧ ∀ id_sim, MetaMore.get_map_filename_transfer2 m id_sim "tf" (Some "E")
                = Raise (AttributeError "tf_sims_dir").
Proof.
  destruct (init_example [("A", Examples.set_A)]) as [m Hm]; [done|].
  exists m. split; [exact Hm|].
  apply (proj2 (proj2 (get_map_filename_transfer2_names m "tf" (Some "E")))).
  - intros [[=]|[[=]|[[=]|[]%elem_of_nil]%elem_of_cons]%elem_of_cons]%elem_of_cons.
  - destruct (init_attrs _ _ _ Hm) as (a & fs1 & Hdirs & ->).
    cbn [tf_settings Examples.config_of _init_tf_estimation_params].
    assert (match fst (_set_directory_attributes
                         (Examples.config_of 256 767 [("A", Examples.set_A)])
                         ∅ Examples.fs0) with
            | Ok a => a !! "tf_sims_dir"
            | Raise _ => Some ""
            end = None) as Heval by (by vm_compute).
    by rewrite Hdirs in Heval.
Defined.

(** * The file names of [PipelineManager] *)

Import Pipeline.

(** X24. What [get_filename] does with its [product]: a string that is
    none of the twelve known ones leaves [fname] unassigned, and the
    [return] raises [UnboundLocalError]; the three products that do not
    name a simulation ignore [simname]; the nine others raise [TypeError]
    without a [simname] and return with one. *)
Theorem get_filename_outcomes (pm : PipelineManager) (product out : string) :
  let fixed := ["mcm"; "mcm_plots"; "transfer_function"] in
  let per_sim := ["pl_sim_input"; "pl_sim_filtered"; "pcl_pl_sim_input";
                  "pcl_pl_sim_filtered"; "val_sim_input"; "val_sim_filtered";
                  "pcl_val_sim_input"; "pcl_val_sim_filtered"; "cl_val_sim"] in
  (product ∉ fixed ++ per_sim →
     ∀ simname, get_filename pm product out simname
                = Throw (UnboundLocalError "fname"))
  ∧ (product ∈ fixed →
     ∃ f, ∀ simname, get_filename pm product out simname = Ret f)
  ∧ (product ∈ per_sim →
     get_filename pm product out None = Throw TypeError
     ∧ ∀ n, ∃ f, get_filename pm product out (Some n) = Ret f).
Proof.
  intros fixed per_sim. split_and!.
  - intros Hno simname. unfold fixed, per_sim in Hno. cbn [app] in Hno.
    rewrite !not_elem_of_cons in Hno. destruct_and!.
    unfold get_filename, assign_if. repeat (case_decide; [done|]). done.
  - intros Hin. unfold fixed in Hin. rewrite !elem_of_cons in Hin.
    destruct Hin as [->|[->|[->|Hin]]]; [..|by apply elem_of_nil in Hin];
      eexists; intros [n|]; reflexivity.
  - intros Hin. unfold per_sim in Hin. rewrite !elem_of_cons in Hin.
    destruct_or!; [subst..|by apply elem_of_nil in Hin];
      (split; [reflexivity | intros n; eexists; reflexivity]).
Qed.

Lemma get_filename_outcomes_witness :
  get_filename Examples.pm0 "cl_val" "/out/run" (Some "v0")
  = Throw (UnboundLocalError "fname")
  ∧ get_filename Examples.pm0 "cl_val_sim" "/out/run" None = Throw TypeError.
Proof.
  split.
  - apply (proj1 (get_filename_outcomes Examples.pm0 "cl_val" "/out/run")).
    cbn [app]. rewrite !not_elem_of_cons. split_and!; try discriminate.
    apply not_elem_of_nil.
  - apply (proj2 (proj2 (get_filename_outcomes Examples.pm0 "cl_val_sim"
                           "/out/run"))).
    do 8 right. left.
Defined.

Lemma startswith_sep_plain (n sfx : string) :
  startswith_sep n = false → startswith_sep sfx = false →
  startswith_sep (n +:+ sfx) = false.
Proof. by destruct n. Qed.

Lemma startswith_sep_abs (n sfx : string) :
  startswith_sep n = true → startswith_sep (n +:+ sfx) = true.
Proof. by destruct n. Qed.

Lemma path_join_abs (a b : string) : startswith_sep b = true → path_join a b = b.
Proof. intros Hb. unfold path_join. by rewrite Hb. Qed.

(** [os.path.join(out, '..', dir, f)] for plain arguments. *)
Lemma join_up (out dir f : string) :
  out ≠ "" → endswith_sep out = false →
  dir ≠ "" → startswith_sep dir = false → endswith_sep dir = false →
  startswith_sep f = false →
  join_all out [".."; dir; f] = out +:+ "/../" +:+ dir +:+ "/" +:+ f.
Proof.
  intros Hout Hend Hdir Hdir1 Hdir2 Hf. unfold join_all. cbn [foldl].
  rewrite (path_join_plain out "..") by done.
  rewrite (path_join_plain _ dir); [| |by rewrite endswith_sep_app|done].
  - rewrite (path_join_plain _ f); [| | |done].
    + rewrite !str_app_assoc. reflexivity.
    + by destruct out.
    + rewrite endswith_sep_app by done.
      by rewrite (endswith_sep_app "/" dir).
  - by destruct out.
Qed.

(** X25. Where the products go: for an output directory that is not empty
    and does not end with a separator, and a simulation name that does not
    start with one, each product is in its own directory beside the output
    directory. *)
Theorem get_filename_layout (pm : PipelineManager) (out n : string) :
  out ≠ "" → endswith_sep out = false → startswith_sep n = false →
  get_filename pm "mcm" out None = Ret (out +:+ "/../mcm/mcm.npz")
  ∧ get_filename pm "mcm_plots" out None = Ret (out +:+ "/../mcm")
  ∧ get_filename pm "transfer_function" out None
    = Ret (out +:+ "/../transfer/transfer.npz")
  ∧ get_filename pm "pl_sim_filtered" out (Some n)
    = Ret (out +:+ "/../filter_PL/" +:+ n +:+ ".fits")
  ∧ get_filename pm "pcl_pl_sim_input" out (Some n)
    = Ret (out +:+ "/../pcl_PL_in/" +:+ n +:+ "_pcl_in.fits")
  ∧ get_filename pm "pcl_pl_sim_filtered" out (Some n)
    = Ret (out +:+ "/../pcl_PL_filt/" +:+ n +:+ "_pcl_filt.fits")
  ∧ get_filename pm "val_sim_filtered" out (Some n)
    = Ret (out +:+ "/../filter_val/" +:+ n +:+ ".fits")
  ∧ get_filename pm "pcl_val_sim_input" out (Some n)
    = Ret (out +:+ "/../pcl_val_in/" +:+ n +:+ "_pcl_in.fits")
  ∧ get_filename pm "pcl_val_sim_filtered" out (Some n)
    = Ret (out +:+ "/../pcl_val_filt/" +:+ n +:+ "_pcl_filt.fits")
  ∧ get_filename pm "cl_val_sim" out (Some n)
    = Ret (out +:+ "/../cl_val/" +:+ n +:+ "_cl.fits").
Proof.
  intros Hout Hend Hn.
  assert (∀ dir f, dir ≠ "" → startswith_sep dir = false →
            endswith_sep dir = false → startswith_sep f = false →
            Ret (join_all out [".."; dir; f])
            = @Ret string (out +:+ "/../" +:+ dir +:+ "/" +:+ f)) as Hup.
  { intros. by rewrite join_up. }
  split_and!.
  - change (get_filename pm "mcm" out None)
      with (Ret (join_all out [".."; "mcm"; "mcm.npz"])).
    by rewrite Hup.
  - change (get_filename pm "mcm_plots" out None)
      with (Ret (join_all out [".."; "mcm"])).
    unfold join_all. cbn [foldl]. rewrite (path_join_plain out "..") by done.
    rewrite path_join_plain; [| |by rewrite endswith_sep_app|done].
    + by rewrite !str_app_assoc.
    + by destruct out.
  - change (get_filename pm "transfer_function" out None)
      with (Ret (join_all out [".."; "transfer"; "transfer.npz"])).
    by rewrite Hup.
  - change (get_filename pm "pl_sim_filtered" out (Some n))
      with (Ret (join_all out [".."; "filter_PL"; n +:+ ".fits"])).
    by rewrite Hup by (done || by apply startswith_sep_plain).
  - change (get_filename pm "pcl_pl_sim_input" out (Some n))
      with (Ret (join_all out [".."; "pcl_PL_in"; n +:+ "_pcl_in.fits"])).
    by rewrite Hup by (done || by apply startswith_sep_plain).
  - change (get_filename pm "pcl_pl_sim_filtered" out (Some n))
      with (Ret (join_all out [".."; "pcl_PL_filt"; n +:+ "_pcl_filt.fits"])).
    by rewrite Hup by (done || by apply startswith_sep_plain).
  - change (get_filename pm "val_sim_filtered" out (Some n))
      with (Ret (join_all out [".."; "filter_val"; n +:+ ".fits"])).
    by rewrite Hup by (done || by apply startswith_sep_plain).
  - change (get_filename pm "pcl_val_sim_input" out (Some n))
      with (Ret (join_all out [".."; "pcl_val_in"; n +:+ "_pcl_in.fits"])).
    by rewrite Hup by (done || by apply startswith_sep_plain).
  - change (get_filename pm "pcl_val_sim_filtered" out (Some n))
      with (Ret (join_all out [".."; "pcl_val_filt"; n +:+ "_pcl_filt.fits"])).
    by rewrite Hup by (done || by apply startswith_sep_plain).
  - change (get_filename pm "cl_val_sim" out (Some n))
      with (Ret (join_all out [".."; "cl_val"; n +:+ "_cl.fits"])).
    by rewrite Hup by (done || by apply startswith_sep_plain).
Qed.

Lemma get_filename_layout_witness :
  get_filename Examples.pm0 "cl_val_sim" "/out/run" (Some "v0")
  = Ret "/out/run/../cl_val/v0_cl.fits".
Proof.
  destruct (get_filename_layout Examples.pm0 "/out/run" "v0")
    as (_ & _ & _ & _ & _ & _ & _ & _ & _ & Hcl);
    [discriminate | reflexivity | reflexivity |].
  exact Hcl.
Defined.

(** X26. A simulation name that starts with a separator escapes every
    directory: the file name is the simulation name and the suffix of the
    product, whatever the output directory and the input directories. *)
Theorem get_filename_absolute_simname (product n : string) :
  startswith_sep n = true →
  product ∈ ["pl_sim_input"; "pl_sim_filtered"; "pcl_pl_sim_input";
             "pcl_pl_sim_filtered"; "val_sim_input"; "val_sim_filtered";
             "pcl_val_sim_input"; "pcl_val_sim_filtered"; "cl_val_sim"] →
  ∃ sfx, ∀ pm out, get_filename pm product out (Some n) = Ret (n +:+ sfx).
Proof.
  intros Hn Hin. rewrite !elem_of_cons in Hin.
  assert (∀ out dir sfx, join_all out [".."; dir; n +:+ sfx] = n +:+ sfx) as Hup.
  { intros. unfold join_all. cbn [foldl].
    by rewrite (path_join_abs _ (n +:+ sfx)) by (by apply startswith_sep_abs). }
  assert (∀ d sfx, path_join d (n +:+ sfx) = n +:+ sfx) as Hin_dir.
  { intros. by rewrite path_join_abs by (by apply startswith_sep_abs). }
  destruct_or!; [subst..|by apply elem_of_nil in Hin].
  - exists ".fits". intros pm out.
    change (get_filename pm "pl_sim_input" out (Some n))
      with (Ret (path_join (pl_input_dir pm) (n +:+ ".fits"))).
    by rewrite Hin_dir.
  - exists ".fits". intros pm out.
    change (get_filename pm "pl_sim_filtered" out (Some n))
      with (Ret (join_all out [".."; "filter_PL"; n +:+ ".fits"])).
    by rewrite Hup.
  - exists "_pcl_in.fits". intros pm out.
    change (get_filename pm "pcl_pl_sim_input" out (Some n))
      with (Ret (join_all out [".."; "pcl_PL_in"; n +:+ "_pcl_in.fits"])).
    by rewrite Hup.
  - exists "_pcl_filt.fits". intros pm out.
    change (get_filename pm "pcl_pl_sim_filtered" out (Some n))
      with (Ret (join_all out [".."; "pcl_PL_filt"; n +:+ "_pcl_filt.fits"])).
    by rewrite Hup.
  - exists ".fits". intros pm out.
    change (get_filename pm "val_sim_input" out (Some n))
      with (Ret (path_join (val_input_dir pm) (n +:+ ".fits"))).
    by rewrite Hin_dir.
  - exists ".fits". intros pm out.
    change (get_filename pm "val_sim_filtered" out (Some n))
      with (Ret (join_all out [".."; "filter_val"; n +:+ ".fits"])).
    by rewrite Hup.
  - exists "_pcl_in.fits". intros pm out.
    change (get_filename pm "pcl_val_sim_input" out (Some n))
      with (Ret (join_all out [".."; "pcl_val_in"; n +:+ "_pcl_in.fits"])).
    by rewrite Hup.
  - exists "_pcl_filt.fits". intros pm out.
    change (get_filename pm "pcl_val_sim_filtered" out (Some n))
      with (Ret (join_all out [".."; "pcl_val_filt"; n +:+ "_pcl_filt.fits"])).
    by rewrite Hup.
  - exists "_cl.fits". intros pm out.
    change (get_filename pm "cl_val_sim" out (Some n))
      with (Ret (join_all out [".."; "cl_val"; n +:+ "_cl.fits"])).
    by rewrite Hup.
Qed.

Lemma get_filename_absolute_simname_witness :
  ∃ sfx, ∀ pm out,
    get_filename pm "val_sim_filtered" out (Some "/tmp/v0") = Ret ("/tmp/v0" +:+ sfx).
Proof.
  apply (get_filename_absolute_simname "val_sim_filtered" "/tmp/v0");
    [reflexivity | do 5 right; left].
Defined.

(** ** Lists of simulation names *)

Lemma collect_shift {A B} (f : A → res B) (l : list A) (acc : list B) :
  collect f l acc
  = match collect f l [] with
    | Ret ys => Ret (acc ++ ys)
    | Throw e => Throw e
    end.
Proof.
  revert acc. induction l as [|x l IH]; intros acc.
  - simpl. by rewrite app_nil_r.
  - cbn [collect]. destruct (f x) as [y|e]; [|done]. cbn [mbind res_bind].
    rewrite (IH (acc ++ [y])), (IH ([] ++ [y])).
    destruct (collect f l []); [|done]. by rewrite <- app_assoc.
Qed.

Lemma collect_app {A B} (f : A → res B) (l1 l2 : list A) (acc : list B) :
  collect f (l1 ++ l2) acc = (r ← collect f l1 acc; collect f l2 r).
Proof.
  revert acc. induction l1 as [|x l1 IH]; intros acc; [done|].
  cbn [app collect]. destruct (f x) as [y|e]; [|done]. cbn [mbind res_bind].
  apply IH.
Qed.




Lemma pl_sim_loop_throw (pm : PipelineManager) (out which : string)
    (EandB : bool) (names : list string) (acc : list entry) (e : error) :
  (∀ n, pl_sim_name pm out which EandB n = Throw e) →
  names ≠ [] → pl_sim_loop pm out which EandB names acc = Throw e.
Proof.
  intros Hf Hne. destruct names as [|n names]; [done|].
  cbn [pl_sim_loop]. by rewrite Hf.
Qed.

(** X28. A kind that the function does not know is noticed only inside the
    loop: with no simulation selected the call returns the empty list,
    with one or more it raises [ValueError]. [pl_sim_names] knows five
    kinds, [val_sim_names] seven. *)
Theorem sim_names_unknown_kind (pm : PipelineManager) (sim0 nsims : Z)
    (out which : string) :
  let err := Builtin (ValueError ("Unknown kind " +:+ which)) in
  (which ∉ ["names"; "input"; "filtered"; "decoupled"; "input_Cl";
            "filtered_Cl"; "decoupled_Cl"] →
     (select (val_names pm) sim0 nsims = [] →
        val_sim_names pm sim0 nsims out which = Ret [])
     ∧ (select (val_names pm) sim0 nsims ≠ [] →
        val_sim_names pm sim0 nsims out which = Throw err))
  ∧ (which ∉ ["names"; "input"; "filtered"; "input_Cl"; "filtered_Cl"] →
     ∀ EandB,
       (select (pl_names pm) sim0 nsims = [] →
          pl_sim_names pm sim0 nsims out which EandB = Ret [])
       ∧ (select (pl_names pm) sim0 nsims ≠ [] →
          pl_sim_names pm sim0 nsims out which EandB = Throw err)).
Proof.
  intros err. split.
  - intros Hno. rewrite !not_elem_of_cons in Hno. destruct_and!.
    unfold val_sim_names. split; [by intros ->|].
    destruct (select (val_names pm) sim0 nsims) as [|n l]; [done|]. intros _.
    cbn [collect]. unfold val_sim_name.
    rewrite !(decide_False (P := which = _)) by done.
    by rewrite decide_False by (by intros [|]).
  - intros Hno EandB. rewrite !not_elem_of_cons in Hno. destruct_and!.
    unfold pl_sim_names. split; [by intros ->|].
    apply pl_sim_loop_throw. intros n. unfold pl_sim_name.
    by rewrite !decide_False by done.
Qed.

Lemma sim_names_unknown_kind_witness :
  pl_sim_names Examples.pm0 0 (-1) "/out/run" "decoupled" false
  = Throw (Builtin (ValueError "Unknown kind decoupled"))
  ∧ pl_sim_names Examples.pm0 3 (-1) "/out/run" "decoupled" false = Ret [].
Proof.
  destruct (sim_names_unknown_kind Examples.pm0 0 (-1) "/out/run" "decoupled")
    as [_ Hpl0].
  destruct (sim_names_unknown_kind Examples.pm0 3 (-1) "/out/run" "decoupled")
    as [_ Hpl3].
  split.
  - apply Hpl0; [|discriminate]. rewrite !not_elem_of_cons.
    split_and!; try discriminate. apply not_elem_of_nil.
  - apply Hpl3; [|reflexivity]. rewrite !not_elem_of_cons.
    split_and!; try discriminate. apply not_elem_of_nil.
Defined.

Lemma select_chunks {A} (names : list A) (sim0 nsims : Z) :
  (0 ≤ sim0)%Z → (0 ≤ nsims)%Z →
  py_slice names sim0 (Some (sim0 + nsims)%Z)
  ++ py_slice names (sim0 + nsims) None
  = py_slice names sim0 None.
Proof.
  intros Hs Hn. unfold py_slice, slice_bound.
  rewrite !decide_False by lia.
  set (len := Z.of_nat (length names)).
  assert (Z.to_nat (len - Z.min sim0 len) = length names - Z.to_nat (Z.min sim0 len))
    as -> by lia.
  assert (Z.to_nat (len - Z.min (sim0 + nsims) len)
          = length names - Z.to_nat (Z.min (sim0 + nsims) len)) as -> by lia.
  rewrite <- !(length_drop names), !firstn_all.
  set (a := Z.to_nat (Z.min sim0 len)).
  replace (Z.to_nat (Z.min (sim0 + nsims) len))
    with (a + Z.to_nat (Z.min (sim0 + nsims) len - Z.min sim0 len)) by lia.
  rewrite <- drop_drop. apply take_drop.
Qed.

(** X29. Lists of names can be made chunk by chunk: for [sim0 >= 0] and
    [nsims >= 0], the list for [(sim0, nsims)] followed by the list for
    [(sim0 + nsims, -1)] is the list for [(sim0, -1)]. *)
Theorem val_sim_names_chunks (pm : PipelineManager) (sim0 nsims : Z)
    (out which : string) (a b : list string) :
  (0 ≤ sim0)%Z → (0 ≤ nsims)%Z →
  val_sim_names pm sim0 nsims out which = Ret a →
  val_sim_names pm (sim0 + nsims) (-1) out which = Ret b →
  val_sim_names pm sim0 (-1) out which = Ret (a ++ b).
Proof.
  intros Hs Hn. unfold val_sim_names, select.
  rewrite decide_False by lia. rewrite !decide_True by done.
  intros Ha Hb. rewrite <- (select_chunks (val_names pm) sim0 nsims) by done.
  rewrite collect_app, Ha. cbn [mbind res_bind].
  by rewrite collect_shift, Hb.
Qed.

Lemma val_sim_names_chunks_witness :
  val_sim_names Examples.pm0 1 2 "/out/run" "names" = Ret ["v1"; "v2"]
  ∧ val_sim_names Examples.pm0 3 (-1) "/out/run" "names" = Ret ["v3"]
  ∧ val_sim_names Examples.pm0 1 (-1) "/out/run" "names" = Ret ["v1"; "v2"; "v3"].
Proof.
  split; [reflexivity|]. split; [reflexivity|].
  apply (val_sim_names_chunks Examples.pm0 1 2 "/out/run" "names" ["v1"; "v2"] ["v3"]);
    [lia | lia | reflexivity | reflexivity].
Defined.

Lemma flat_app (es1 es2 : list entry) : flat (es1 ++ es2) = flat es1 ++ flat es2.
Proof. unfold flat. apply bind_app. Qed.

Lemma pl_sim_name_EandB (pm : PipelineManager) (out which n : string) :
  match pl_sim_name pm out which true n with
  | Ret es => pl_sim_name pm out which false n = Ret (One <$> flat es)
  | Throw e => pl_sim_name pm out which false n = Throw e
  end.
Proof.
  unfold pl_sim_name. repeat case_decide; try done.
Qed.

Lemma pl_sim_loop_EandB (pm : PipelineManager) (out which : string)
    (names : list string) (acc : list entry) :
  match pl_sim_loop pm out which true names acc with
  | Ret es => pl_sim_loop pm out which false names (One <$> flat acc)
              = Ret (One <$> flat es)
  | Throw e => pl_sim_loop pm out which false names (One <$> flat acc) = Throw e
  end.
Proof.
  revert acc. induction names as [|n names IH]; intros acc; [done|].
  cbn [pl_sim_loop]. pose proof (pl_sim_name_EandB pm out which n) as Hn.
  destruct (pl_sim_name pm out which true n) as [es|e]; rewrite Hn; [|done].
  cbn [mbind res_bind]. specialize (IH (acc ++ es)).
  by rewrite flat_app, fmap_app in IH.
Qed.

(** X30. [pl_sim_names_EandB] and [pl_sim_names] agree up to the pairing:
    when the first returns, the second returns the same names one by one,
    each pair [[fE, fB]] opened in place; when the first raises, the second
    raises the same exception. *)
Theorem pl_sim_names_EandB_flat (pm : PipelineManager) (sim0 nsims : Z)
    (out which : string) :
  match pl_sim_names_EandB pm sim0 nsims out which with
  | Ret es => pl_sim_names pm sim0 nsims out which false = Ret (One <$> flat es)
  | Throw e => pl_sim_names pm sim0 nsims out which false = Throw e
  end.
Proof.
  unfold pl_sim_names_EandB, pl_sim_names.
  apply (pl_sim_loop_EandB pm out which _ []).
Qed.
